(** * Session / stream lifecycle of the avatar client

    A shallow embedding of the browser client's session coordinator
    ([services/heygenService.js]), of the manual WebRTC negotiation
    ([services/webrtcService.js]), of the LiveKit room service
    ([services/livekitService.js]) with the avatar integration that drives
    it, and of the session handlers of the React component ([App.jsx]),
    with the properties of the lifecycle stated and proved over that
    embedding.

    JavaScript objects that are shared and mutated (the avatar object of
    the SDK, the video element lent by the view, the peer connection) live
    in a store and are referred to by handle.  Every call that leaves the
    program (backend HTTP request, provider SDK call, listener callback,
    media playback, timer) is recorded in a trace and answered by an
    environment, so that a property quantifies over every behaviour of the
    collaborators.  An [async] function is run to its end in one piece; a
    scenario that depends on something happening while a call is awaited
    splits the function at that [await].

    - [HeyGenService], [App], [WebRTCService], [LiveKitService],
      [HeyGenLiveKitIntegration]: the code.
    - [HeyGenServiceProofs], [WebRTCProofs], [AppProofs], [LiveKitProofs],
      [IntegrationProofs]: its properties. *)

From Stdlib Require Import ZArith NArith List Bool String Lia.
From stdpp Require Import base option gmap strings list fin_maps.
Import ListNotations.

Local Open Scope string_scope.
Local Open Scope list_scope.
Local Open Scope Z_scope.

(** ** JavaScript values used by the client *)

(** A JavaScript string is a sequence of UTF-16 code units.  Identifiers
    handed around opaquely (session, avatar and voice ids, tokens, error
    messages) are kept as [string]; texts whose characters the code
    inspects are [JsString]. *)
Definition JsString := list N.

(** [WhiteSpace] and [LineTerminator] of ECMAScript, the code units that
    [String.prototype.trim] strips. *)
Definition isWhiteSpace (c : N) : bool :=
  ((9 <=? c) && (c <=? 13))%N
  || (c =? 32)%N || (c =? 160)%N || (c =? 5760)%N
  || ((8192 <=? c) && (c <=? 8202))%N
  || (c =? 8232)%N || (c =? 8233)%N || (c =? 8239)%N
  || (c =? 8287)%N || (c =? 12288)%N || (c =? 65279)%N.

Fixpoint trimStart (s : JsString) : JsString :=
  match s with
  | [] => []
  | c :: r => if isWhiteSpace c then trimStart r else s
  end.

Definition trimEnd (s : JsString) : JsString := rev (trimStart (rev s)).

Definition trim (s : JsString) : JsString := trimEnd (trimStart s).

(** Truthiness of a string value: the empty string is falsy. *)
Definition truthyJs (s : JsString) : bool :=
  match s with [] => false | _ :: _ => true end.

Definition truthyStr (s : string) : bool :=
  match s with EmptyString => false | String _ _ => true end.

(** Truthiness of a possibly [null]/[undefined] string. *)
Definition truthyOptStr (o : option string) : bool :=
  match o with Some s => truthyStr s | None => false end.

(** The message of a thrown [Error]. *)
Definition Error := string.

(** Completion of a call: it returns, or it throws (for an [async]
    function: the promise is fulfilled, or it is rejected). *)
Inductive Completion (A : Type) : Type :=
| Normal (a : A)
| Throw (e : Error).
Arguments Normal {A} a.
Arguments Throw {A} e.

Definition isNormal {A} (c : Completion A) : bool :=
  match c with Normal _ => true | Throw _ => false end.

Definition handle := nat.
Definition stream := nat.
Bind Scope nat_scope with handle stream.

(** ** A state monad in which a throw keeps the mutations made so far *)

(** A JavaScript computation over a state [S]: it ends in a completion
    and the state it left behind, also when it throws. *)
Definition Js (S A : Type) : Type := S -> Completion A * S.

Definition ret {S A} (a : A) : Js S A := fun w => (Normal a, w).

Definition throw {S A} (e : Error) : Js S A := fun w => (Throw e, w).

Definition bind {S A B} (m : Js S A) (k : A -> Js S B) : Js S B :=
  fun w =>
    match m w with
    | (Normal a, w') => k a w'
    | (Throw e, w') => (Throw e, w')
    end.

(** [try { m } catch (e) { h e }] *)
Definition tryCatch {S A} (m : Js S A) (h : Error -> Js S A) : Js S A :=
  fun w =>
    match m w with
    | (Normal a, w') => (Normal a, w')
    | (Throw e, w') => h e w'
    end.

(** [try { m } finally { f }], for an [f] that does not throw. *)
Definition tryFinally {S A} (m : Js S A) (f : S -> S) : Js S A :=
  fun w => let (c, w') := m w in (c, f w').

Definition liftCompletion {S A} (c : Completion A) : Js S A :=
  match c with
  | Normal a => ret (S:=S) a
  | Throw e => throw (S:=S) e
  end.

Declare Scope js_scope.
Delimit Scope js_scope with js.
Notation "'let!' x ':=' m 'in' k" := (bind m (fun x => k))
  (at level 10, x name, m at level 100, k at level 200) : js_scope.
Notation "m '>>' k" := (bind m (fun _ => k))
  (at level 100, k at level 200, right associativity) : js_scope.

(** ** The avatar session service ([services/heygenService.js]) *)

Module HeyGenService.

(** *** Objects in the store *)

(** The [StreamingAvatar] object of the SDK: the live stream handle the
    provider fills in, and whether this SDK build exposes [interrupt]. *)
Record AvatarObj : Type := {
  mediaStream : option stream;
  hasInterrupt : bool;
  avatarToken : string
}.

(** The video element owned by the view. *)
Record VideoEl : Type := {
  srcObject : option stream;
  muted : bool
}.

(** *** The fields of the [HeyGenService] singleton *)

Record Service : Type := {
  sessionId : option string;
  avatar : option handle;
  isSDKInitialized : bool;
  videoElement : option handle;
  isAvatarSpeaking : bool;
  isSessionActive : bool;
  keepAliveInterval : option nat;
  onStateChangeListeners : list nat;
  currentAvatarId : option string;
  currentVoiceId : option string
}.

(** The state of a fresh instance, as the constructor leaves it. *)
Definition constructor : Service := {|
  sessionId := None;
  avatar := None;
  isSDKInitialized := false;
  videoElement := None;
  isAvatarSpeaking := false;
  isSessionActive := false;
  keepAliveInterval := None;
  onStateChangeListeners := [];
  currentAvatarId := None;
  currentVoiceId := None
|}.

Definition set_sessionId (x : option string) (s : Service) : Service :=
  {| sessionId := x; avatar := avatar s; isSDKInitialized := isSDKInitialized s;
     videoElement := videoElement s; isAvatarSpeaking := isAvatarSpeaking s;
     isSessionActive := isSessionActive s; keepAliveInterval := keepAliveInterval s;
     onStateChangeListeners := onStateChangeListeners s;
     currentAvatarId := currentAvatarId s; currentVoiceId := currentVoiceId s |}.

Definition set_avatar (x : option handle) (s : Service) : Service :=
  {| sessionId := sessionId s; avatar := x; isSDKInitialized := isSDKInitialized s;
     videoElement := videoElement s; isAvatarSpeaking := isAvatarSpeaking s;
     isSessionActive := isSessionActive s; keepAliveInterval := keepAliveInterval s;
     onStateChangeListeners := onStateChangeListeners s;
     currentAvatarId := currentAvatarId s; currentVoiceId := currentVoiceId s |}.

Definition set_isSDKInitialized (x : bool) (s : Service) : Service :=
  {| sessionId := sessionId s; avatar := avatar s; isSDKInitialized := x;
     videoElement := videoElement s; isAvatarSpeaking := isAvatarSpeaking s;
     isSessionActive := isSessionActive s; keepAliveInterval := keepAliveInterval s;
     onStateChangeListeners := onStateChangeListeners s;
     currentAvatarId := currentAvatarId s; currentVoiceId := currentVoiceId s |}.

Definition set_videoElement (x : option handle) (s : Service) : Service :=
  {| sessionId := sessionId s; avatar := avatar s; isSDKInitialized := isSDKInitialized s;
     videoElement := x; isAvatarSpeaking := isAvatarSpeaking s;
     isSessionActive := isSessionActive s; keepAliveInterval := keepAliveInterval s;
     onStateChangeListeners := onStateChangeListeners s;
     currentAvatarId := currentAvatarId s; currentVoiceId := currentVoiceId s |}.

Definition set_isAvatarSpeaking (x : bool) (s : Service) : Service :=
  {| sessionId := sessionId s; avatar := avatar s; isSDKInitialized := isSDKInitialized s;
     videoElement := videoElement s; isAvatarSpeaking := x;
     isSessionActive := isSessionActive s; keepAliveInterval := keepAliveInterval s;
     onStateChangeListeners := onStateChangeListeners s;
     currentAvatarId := currentAvatarId s; currentVoiceId := currentVoiceId s |}.

Definition set_isSessionActive (x : bool) (s : Service) : Service :=
  {| sessionId := sessionId s; avatar := avatar s; isSDKInitialized := isSDKInitialized s;
     videoElement := videoElement s; isAvatarSpeaking := isAvatarSpeaking s;
     isSessionActive := x; keepAliveInterval := keepAliveInterval s;
     onStateChangeListeners := onStateChangeListeners s;
     currentAvatarId := currentAvatarId s; currentVoiceId := currentVoiceId s |}.

Definition set_keepAliveInterval (x : option nat) (s : Service) : Service :=
  {| sessionId := sessionId s; avatar := avatar s; isSDKInitialized := isSDKInitialized s;
     videoElement := videoElement s; isAvatarSpeaking := isAvatarSpeaking s;
     isSessionActive := isSessionActive s; keepAliveInterval := x;
     onStateChangeListeners := onStateChangeListeners s;
     currentAvatarId := currentAvatarId s; currentVoiceId := currentVoiceId s |}.

Definition set_listeners (x : list nat) (s : Service) : Service :=
  {| sessionId := sessionId s; avatar := avatar s; isSDKInitialized := isSDKInitialized s;
     videoElement := videoElement s; isAvatarSpeaking := isAvatarSpeaking s;
     isSessionActive := isSessionActive s; keepAliveInterval := keepAliveInterval s;
     onStateChangeListeners := x;
     currentAvatarId := currentAvatarId s; currentVoiceId := currentVoiceId s |}.

Definition set_currentAvatarId (x : option string) (s : Service) : Service :=
  {| sessionId := sessionId s; avatar := avatar s; isSDKInitialized := isSDKInitialized s;
     videoElement := videoElement s; isAvatarSpeaking := isAvatarSpeaking s;
     isSessionActive := isSessionActive s; keepAliveInterval := keepAliveInterval s;
     onStateChangeListeners := onStateChangeListeners s;
     currentAvatarId := x; currentVoiceId := currentVoiceId s |}.

Definition set_currentVoiceId (x : option string) (s : Service) : Service :=
  {| sessionId := sessionId s; avatar := avatar s; isSDKInitialized := isSDKInitialized s;
     videoElement := videoElement s; isAvatarSpeaking := isAvatarSpeaking s;
     isSessionActive := isSessionActive s; keepAliveInterval := keepAliveInterval s;
     onStateChangeListeners := onStateChangeListeners s;
     currentAvatarId := currentAvatarId s; currentVoiceId := x |}.

(** *** Calls that leave the program *)

(** The payload of the SDK's [STREAM_READY] event, in the shapes the
    code probes: [event.detail.stream], [event.detail.mediaStream],
    [event.stream]; every level may be missing. *)
Record EventDetail : Type := {
  detail_stream : option stream;
  detail_mediaStream : option stream
}.

Record ReadyEvent : Type := {
  detail : option EventDetail;
  event_stream : option stream
}.

(** Work handed to [setTimeout] / [setInterval]: the closures of the
    source, with the variables they capture. *)
Inductive Task : Type :=
| KeepAliveTick
| RetryAttach (videoElement : handle).

Record Timer : Type := {
  timerId : nat;
  timerDelay : Z;
  timerRepeats : bool;
  timerTask : Task
}.

Inductive Event : Type :=
| EvFetchToken
| EvFetchRegister (session_id : option string) (avatar_id voice_id : string)
| EvFetchUnregister (session_id : option string)
| EvFetchSendPrompt (prompt : JsString)
| EvNewStreamingAvatar (h : handle) (token : string)
| EvStopAvatar (h : handle)
| EvCreateStartAvatar (h : handle) (avatarName voiceId : string)
| EvSpeak (h : handle) (text : option JsString) (task_mode : option string)
          (session_id : option string)
| EvInterrupt (h : handle)
| EvSleep (ms : Z)
| EvSetInterval (id : nat) (ms : Z)
| EvClearInterval (id : nat)
| EvSetTimeout (id : nat) (ms : Z)
| EvListener (listener : nat) (event : string) (data : bool)
| EvPlay (v : handle)
| EvFetchActiveSessions
| EvAlert (message : string).

(** Reply of [GET /heygen-token] after [response.json()]. *)
Inductive TokenReply : Type :=
| TokenFails (e : Error)
| TokenJson (status : string) (token : string).

(** Reply of [POST /send-prompt] after [response.json()]. *)
Record LlmData : Type := {
  llm_status : string;
  llm_message : option string;
  llm_response : option JsString;
  llm_used_knowledge_base : option bool;
  llm_mode : option string
}.

Inductive LlmReply : Type :=
| LlmFails (e : Error)
| LlmJson (d : LlmData).

(** [avatar.speak(...)]: the returned promise is fulfilled or rejected,
    or the call itself throws. *)
Inductive SpeakReply : Type :=
| SpeakFulfilled
| SpeakRejected (e : Error)
| SpeakThrows (e : Error).

(** The collaborators.  Each answer is indexed by the number of the call
    in the run, so one collaborator may answer differently each time. *)
Record Env : Type := {
  env_token : nat -> TokenReply;
  env_stopAvatar : nat -> Completion unit;
  env_newAvatarHasInterrupt : nat -> bool;
  env_createStartAvatar : nat -> Completion (option string);
  env_register : nat -> Completion unit;
  env_unregister : nat -> Completion unit;
  env_sendPrompt : nat -> LlmReply;
  env_speak : nat -> SpeakReply;
  env_interrupt : nat -> Completion unit;
  env_listenerThrows : nat -> bool;
  env_playRejected : nat -> bool;
  env_activeSessions : nat -> Completion (option nat)
}.

(** *** The world a call runs in *)

Record World : Type := {
  svc : Service;
  avatars : gmap nat AvatarObj;
  videos : gmap nat VideoEl;
  timers : list Timer;
  nextId : nat;
  calls : nat;
  trace : list Event
}.

Definition set_svc (f : Service -> Service) (w : World) : World :=
  {| svc := f (svc w); avatars := avatars w; videos := videos w;
     timers := timers w; nextId := nextId w; calls := calls w; trace := trace w |}.

Definition set_avatars (f : gmap nat AvatarObj -> gmap nat AvatarObj) (w : World) : World :=
  {| svc := svc w; avatars := f (avatars w); videos := videos w;
     timers := timers w; nextId := nextId w; calls := calls w; trace := trace w |}.

Definition set_videos (f : gmap nat VideoEl -> gmap nat VideoEl) (w : World) : World :=
  {| svc := svc w; avatars := avatars w; videos := f (videos w);
     timers := timers w; nextId := nextId w; calls := calls w; trace := trace w |}.

Definition set_timers (f : list Timer -> list Timer) (w : World) : World :=
  {| svc := svc w; avatars := avatars w; videos := videos w;
     timers := f (timers w); nextId := nextId w; calls := calls w; trace := trace w |}.

Definition set_nextId (n : nat) (w : World) : World :=
  {| svc := svc w; avatars := avatars w; videos := videos w;
     timers := timers w; nextId := n; calls := calls w; trace := trace w |}.

Definition set_calls (n : nat) (w : World) : World :=
  {| svc := svc w; avatars := avatars w; videos := videos w;
     timers := timers w; nextId := nextId w; calls := n; trace := trace w |}.

Definition set_trace (f : list Event -> list Event) (w : World) : World :=
  {| svc := svc w; avatars := avatars w; videos := videos w;
     timers := timers w; nextId := nextId w; calls := calls w; trace := f (trace w) |}.

(** A fresh page: a new service, an empty store, nothing recorded.
    Handles and timer ids start at 1 (browser timer ids are positive, so
    a stored id is truthy). *)
Definition initialWorld : World := {|
  svc := constructor; avatars := ∅; videos := ∅; timers := [];
  nextId := 1%nat; calls := 0%nat; trace := []
|}.

(** *** Computations of the service *)

Abbreviation M := (Js World).
Local Open Scope js_scope.

Definition getSvc : M Service := fun w => (Normal (svc w), w).

Definition modify (f : Service -> Service) : M unit :=
  fun w => (Normal tt, set_svc f w).

Definition emit (e : Event) : M unit :=
  fun w => (Normal tt, set_trace (fun t => t ++ [e]) w).

(** Ask a collaborator for the answer to the next call. *)
Definition ask {A} (f : nat -> A) : M A :=
  fun w => (Normal (f (calls w)), set_calls (S (calls w)) w).

Definition fresh : M nat :=
  fun w => (Normal (nextId w), set_nextId (S (nextId w)) w).

Definition isSome {A} (o : option A) : bool :=
  match o with Some _ => true | None => false end.

(** Reading through a handle.  A handle that is not in the store reads
    as an object without the property. *)
Definition avatarMediaStream (w : World) (h : handle) : option stream :=
  match avatars w !! h with Some o => mediaStream o | None => None end.

Definition avatarHasInterrupt (w : World) (h : handle) : bool :=
  match avatars w !! h with Some o => hasInterrupt o | None => false end.

Definition videoSrcObject (w : World) (v : handle) : option stream :=
  match videos w !! v with Some el => srcObject el | None => None end.

Definition setSrcObject (v : handle) (x : option stream) : M unit :=
  fun w => (Normal tt,
            set_videos (alter (fun el => {| srcObject := x; muted := muted el |}) v) w).

Definition setMuted (v : handle) (x : bool) : M unit :=
  fun w => (Normal tt,
            set_videos (alter (fun el => {| srcObject := srcObject el; muted := x |}) v) w).

Definition getWorld : M World := fun w => (Normal w, w).

Definition storeAvatar (h : handle) (o : AvatarObj) : M unit :=
  fun w => (Normal tt, set_avatars (insert h o) w).

(** The provider fills in (or replaces) [avatar.mediaStream] on the SDK
    object; this happens outside the program. *)
Definition provider_setMediaStream (h : handle) (st : stream) (w : World) : World :=
  set_avatars (alter (fun o => {| mediaStream := Some st;
                                  hasInterrupt := hasInterrupt o;
                                  avatarToken := avatarToken o |}) h) w.

(** *** Timers *)

Definition dropTimer (id : nat) (ts : list Timer) : list Timer :=
  filter (fun t => negb (Nat.eqb (timerId t) id)) ts.

Definition addTimer (t : Timer) : M unit :=
  fun w => (Normal tt, set_timers (fun ts => ts ++ [t]) w).

Definition removeTimer (id : nat) : M unit :=
  fun w => (Normal tt, set_timers (dropTimer id) w).

Definition setInterval (task : Task) (ms : Z) : M nat :=
  let! id := fresh in
  emit (EvSetInterval id ms) >>
  addTimer {| timerId := id; timerDelay := ms; timerRepeats := true;
              timerTask := task |} >>
  ret id.

Definition setTimeout (task : Task) (ms : Z) : M nat :=
  let! id := fresh in
  emit (EvSetTimeout id ms) >>
  addTimer {| timerId := id; timerDelay := ms; timerRepeats := false;
              timerTask := task |} >>
  ret id.

Definition clearInterval (id : nat) : M unit :=
  emit (EvClearInterval id) >> removeTimer id.

(** [await new Promise(resolve => setTimeout(resolve, ms))] *)
Definition sleep (ms : Z) : M unit := emit (EvSleep ms).

(** The object [closeSession] resolves to. *)
Record CloseResult : Type := { success : bool }.

(** The object [createSessionWithBackend] resolves to. *)
Record SessionData : Type := {
  data_success : bool;
  data_sessionId : option string;
  data_avatarId : string;
  data_voiceId : string
}.

(** The object [sendPrompt] resolves to. *)
Record PromptResult : Type := {
  result_success : bool;
  result_response : option JsString;
  result_heygen_sent : bool;
  result_used_knowledge_base : option bool;
  result_mode : option string
}.

Section Operations.

Variable env : Env.

(** *** State-change listeners *)

(** [notifyStateChange]: every listener is called inside its own
    [try]/[catch]. *)
Fixpoint notifyListeners (ls : list nat) (event : string) (data : bool) : M unit :=
  match ls with
  | [] => ret tt
  | l :: rest =>
      tryCatch
        (emit (EvListener l event data) >>
         let! throws := ask (env_listenerThrows env) in
         if throws : bool then throw "listener failed" else ret tt)
        (fun _ => ret tt) >>
      notifyListeners rest event data
  end.

Definition notifyStateChange (event : string) (data : bool) : M unit :=
  let! s := getSvc in
  notifyListeners (onStateChangeListeners s) event data.

Definition onStateChange (callback : nat) : M unit :=
  modify (fun s =>
    if existsb (Nat.eqb callback) (onStateChangeListeners s) then s
    else set_listeners (onStateChangeListeners s ++ [callback]) s).

Definition unsubscribe (callback : nat) : M unit :=
  modify (fun s =>
    set_listeners (filter (fun l => negb (Nat.eqb l callback))
                          (onStateChangeListeners s)) s).

(** *** Provider and backend calls *)

Definition provider_stopAvatar (h : handle) : M unit :=
  emit (EvStopAvatar h) >>
  let! r := ask (env_stopAvatar env) in
  liftCompletion r.

Definition provider_interrupt (h : handle) : M unit :=
  emit (EvInterrupt h) >>
  let! r := ask (env_interrupt env) in
  liftCompletion r.

Definition provider_createStartAvatar (h : handle) (avatarName voiceId : string)
  : M (option string) :=
  emit (EvCreateStartAvatar h avatarName voiceId) >>
  let! r := ask (env_createStartAvatar env) in
  liftCompletion r.

Definition provider_speak (h : handle) (text : option JsString)
    (task_mode : option string) (session_id : option string) : M SpeakReply :=
  emit (EvSpeak h text task_mode session_id) >>
  ask (env_speak env).

(** [new StreamingAvatar({ token })] *)
Definition newStreamingAvatar (token : string) : M handle :=
  let! h := fresh in
  let! hasI := ask (env_newAvatarHasInterrupt env) in
  emit (EvNewStreamingAvatar h token) >>
  storeAvatar h {| mediaStream := None; hasInterrupt := hasI;
                   avatarToken := token |} >>
  ret h.

Definition fetch_unregister (session_id : option string) : M unit :=
  emit (EvFetchUnregister session_id) >>
  let! r := ask (env_unregister env) in
  liftCompletion r.

Definition fetch_register (session_id : option string) (avatar_id voice_id : string)
  : M unit :=
  emit (EvFetchRegister session_id avatar_id voice_id) >>
  let! r := ask (env_register env) in
  liftCompletion r.

(** [video.play()]: [true] when the returned promise is rejected. *)
Definition play (v : handle) : M bool :=
  emit (EvPlay v) >> ask (env_playRejected env).

(** *** Keep-alive *)

(** The callback handed to [setInterval] by [startKeepAlive]. *)
Definition keepAliveTick : M unit :=
  let! s := getSvc in
  if negb (isSessionActive s) || negb (isSome (avatar s)) || isAvatarSpeaking s
  then ret tt
  else
    match avatar s with
    | None => ret tt
    | Some h =>
        tryCatch
          (let! r := provider_speak h (Some [32%N]) (Some "async") (sessionId s) in
           match r with
           | SpeakFulfilled => ret tt
           | SpeakRejected _ => ret tt      (* .catch(() => {}) *)
           | SpeakThrows e => throw e
           end)
          (fun _ => ret tt)
    end.

Definition startKeepAlive : M unit :=
  let! s := getSvc in
  match keepAliveInterval s with
  | Some id => clearInterval id
  | None => ret tt
  end >>
  let! id := setInterval KeepAliveTick 30000 in
  modify (set_keepAliveInterval (Some id)).

Definition stopKeepAlive : M unit :=
  let! s := getSvc in
  match keepAliveInterval s with
  | Some id => clearInterval id >> modify (set_keepAliveInterval None)
  | None => ret tt
  end.

(** *** Closing a session *)

Definition closeSession : M CloseResult :=
  let! s := getSvc in
  if negb (truthyOptStr (sessionId s)) then ret {| success := true |}
  else
    tryCatch
      (stopKeepAlive >>
       let! s := getSvc in
       match avatar s with
       | Some h => if isSDKInitialized s then provider_stopAvatar h else ret tt
       | None => ret tt
       end >>
       let! s := getSvc in
       fetch_unregister (sessionId s) >>
       modify (set_sessionId None) >>
       modify (set_isSessionActive false) >>
       modify (set_isAvatarSpeaking false) >>
       modify (set_currentAvatarId None) >>
       modify (set_currentVoiceId None) >>
       let! s := getSvc in
       match videoElement s with
       | Some v => setSrcObject v None
       | None => ret tt
       end >>
       ret {| success := true |})
      (fun error => throw error).

(** *** Creating a session *)

Definition initializeSDK (accessToken : string) : M unit :=
  let! s := getSvc in
  match avatar s with
  | Some old => tryCatch (provider_stopAvatar old) (fun _ => ret tt)
  | None => ret tt
  end >>
  let! h := newStreamingAvatar accessToken in
  modify (set_avatar (Some h)) >>
  modify (set_isSDKInitialized true).

(** The [try] block of [createSessionWithBackend]: token, SDK, avatar,
    registration, keep-alive. *)
Definition createSessionTry (avatarId voiceId : string) : M SessionData :=
  tryCatch
    (emit EvFetchToken >>
     let! tokenData := ask (env_token env) in
     match tokenData with
     | TokenFails e => throw e
     | TokenJson status token =>
         if negb (String.eqb status "success")
         then throw "Failed to get streaming token"
         else
           initializeSDK token >>
           let! s := getSvc in
           match avatar s with
           | None => throw "TypeError"
           | Some h =>
               let! session_id := provider_createStartAvatar h avatarId voiceId in
               modify (set_sessionId session_id) >>
               modify (set_isSessionActive true) >>
               tryCatch (fetch_register session_id avatarId voiceId) (fun _ => ret tt) >>
               startKeepAlive >>
               let! s := getSvc in
               ret {| data_success := true; data_sessionId := sessionId s;
                      data_avatarId := avatarId; data_voiceId := voiceId |}
           end
     end)
    (fun error => throw error).

Definition createSessionWithBackend (avatarId voiceId : string) : M SessionData :=
  modify (set_currentAvatarId (Some avatarId)) >>
  modify (set_currentVoiceId (Some voiceId)) >>
  let! s := getSvc in
  (if isSessionActive s && truthyOptStr (sessionId s)
   then closeSession >> sleep 1000
   else ret tt) >>
  createSessionTry avatarId voiceId.

(** *** Prompts *)

Definition sendPrompt (prompt : JsString) : M PromptResult :=
  let! s := getSvc in
  if negb (isSome (avatar s)) || negb (isSDKInitialized s)
  then throw "SDK not initialized"
  else if negb (isSessionActive s)
  then throw "Session is not active"
  else
    tryCatch
      (emit (EvFetchSendPrompt prompt) >>
       let! llm := ask (env_sendPrompt env) in
       match llm with
       | LlmFails e => throw e
       | LlmJson llmData =>
           if negb (String.eqb (llm_status llmData) "success")
           then throw (match llm_message llmData with
                       | Some m => if truthyStr m then m else "LLM response failed"
                       | None => "LLM response failed"
                       end)
           else
             let! s := getSvc in
             match avatar s with
             | None => throw "TypeError"
             | Some h =>
                 let! r := provider_speak h (llm_response llmData) None (sessionId s) in
                 match r with
                 | SpeakFulfilled =>
                     ret {| result_success := true;
                            result_response := llm_response llmData;
                            result_heygen_sent := true;
                            result_used_knowledge_base := llm_used_knowledge_base llmData;
                            result_mode := llm_mode llmData |}
                 | SpeakRejected e => throw e
                 | SpeakThrows e => throw e
                 end
             end
       end)
      (fun error => throw error).

(** *** Interrupt *)

Definition interruptAvatar : M bool :=
  let! s := getSvc in
  if negb (isSome (avatar s)) || negb (isSDKInitialized s)
  then ret false
  else
    tryCatch
      (let! w := getWorld in
       match avatar s with
       | None => throw "TypeError"
       | Some h =>
           if avatarHasInterrupt w h
           then
             provider_interrupt h >>
             modify (set_isAvatarSpeaking false) >>
             notifyStateChange "avatar_speaking" false >>
             ret true
           else ret false
       end)
      (fun _ =>
         modify (set_isAvatarSpeaking false) >>
         notifyStateChange "avatar_speaking" false >>
         ret false).

(** *** Attaching the stream to the video element *)

(** [x || y] on possibly missing objects. *)
Definition orElse {A} (x y : option A) : option A :=
  match x with Some _ => x | None => y end.

(** The [if]/[else if] chain that picks the stream.  A source that is
    present is a [MediaStream]. *)
Definition pickStream (w : World) (event : option ReadyEvent) : option stream :=
  let eventDetail := match event with Some e => detail e | None => None end in
  let s := svc w in
  orElse (match eventDetail with Some d => detail_stream d | None => None end)
  (orElse (match eventDetail with Some d => detail_mediaStream d | None => None end)
  (orElse (match event with Some e => event_stream e | None => None end)
          (match avatar s with Some h => avatarMediaStream w h | None => None end))).

Definition attachAvatarStream (event : option ReadyEvent) : M unit :=
  let! s := getSvc in
  match videoElement s with
  | None => ret tt
  | Some videoElement =>
      let! w := getWorld in
      match pickStream w event with
      | Some stream =>
          setSrcObject videoElement (Some stream) >>
          let! rejected := play videoElement in
          if rejected : bool
          then setMuted videoElement true >> let! _ := play videoElement in ret tt
          else ret tt
      | None =>
          let! _ := setTimeout (RetryAttach videoElement) 2000 in ret tt
      end
  end.

(** The callback handed to [setTimeout] by [attachAvatarStream]; it
    captures [videoElement] and reads [this.avatar] when it runs. *)
Definition retryAttach (videoElement : handle) : M unit :=
  let! w := getWorld in
  match avatar (svc w) with
  | None => ret tt
  | Some h =>
      match avatarMediaStream w h with
      | None => ret tt
      | Some stream =>
          if negb (isSome (videoSrcObject w videoElement))
          then
            setSrcObject videoElement (Some stream) >>
            setMuted videoElement true >>
            let! _ := play videoElement in ret tt
          else ret tt
      end
  end.

(** *** Provider events *)

Definition handleSessionDisconnect : M unit :=
  modify (set_isSessionActive false) >>
  notifyStateChange "session_disconnected" true.

Inductive StreamingEvent : Type :=
| AVATAR_START_TALKING
| AVATAR_STOP_TALKING
| STREAM_READY (event : option ReadyEvent)
| STREAM_DISCONNECTED.

(** The handlers [initializeSDK] registers on the avatar object. *)
Definition onStreamingEvent (ev : StreamingEvent) : M unit :=
  match ev with
  | AVATAR_START_TALKING =>
      modify (set_isAvatarSpeaking true) >> notifyStateChange "avatar_speaking" true
  | AVATAR_STOP_TALKING =>
      modify (set_isAvatarSpeaking false) >> notifyStateChange "avatar_speaking" false
  | STREAM_READY event => attachAvatarStream event
  | STREAM_DISCONNECTED => handleSessionDisconnect
  end.

(** *** Running a timer *)

Definition runTask (t : Task) : M unit :=
  match t with
  | KeepAliveTick => keepAliveTick
  | RetryAttach v => retryAttach v
  end.

Definition fireTimer (id : nat) : M unit :=
  fun w =>
    match find (fun t => Nat.eqb (timerId t) id) (timers w) with
    | None => (Normal tt, w)
    | Some t =>
        runTask (timerTask t)
                (if timerRepeats t then w else set_timers (dropTimer id) w)
    end.

(** *** Status *)

(** The values the [&&] chain of [isSessionAlive] can yield. *)
Inductive JsValue : Type :=
| VNull
| VString (s : string)
| VBool (b : bool)
| VObject (h : handle).

Definition truthy (v : JsValue) : bool :=
  match v with
  | VNull => false
  | VString s => truthyStr s
  | VBool b => b
  | VObject _ => true
  end.

(** [x && y] *)
Definition andAlso (x y : JsValue) : JsValue := if truthy x then y else x.

Definition isSpeaking (s : Service) : bool := isAvatarSpeaking s.

Definition isSessionAlive (s : Service) : JsValue :=
  andAlso
    (andAlso
       (andAlso (match sessionId s with Some x => VString x | None => VNull end)
                (match avatar s with Some h => VObject h | None => VNull end))
       (VBool (isSDKInitialized s)))
    (VBool (isSessionActive s)).

(** The object [getCurrentAvatar] returns. *)
Record CurrentAvatar : Type := {
  current_avatarId : option string;
  current_voiceId : option string
}.

Definition getCurrentAvatar (s : Service) : CurrentAvatar :=
  {| current_avatarId := currentAvatarId s; current_voiceId := currentVoiceId s |}.

(** The object [getSessionStatus] returns.  A stored timer id is
    positive, so [!!this.keepAliveInterval] is whether one is stored. *)
Record SessionStatus : Type := {
  status_sessionId : option string;
  status_isActive : bool;
  status_isSpeaking : bool;
  status_hasAvatar : bool;
  status_isSDKInitialized : bool;
  status_isAlive : JsValue;
  status_hasKeepAlive : bool;
  status_currentAvatar : option string;
  status_currentVoice : option string;
  status_hasMediaStream : bool;
  status_videoElementHasSource : bool;
  status_videoElementExists : bool
}.

Definition getSessionStatus (w : World) : SessionStatus :=
  let s := svc w in
  {| status_sessionId := sessionId s;
     status_isActive := isSessionActive s;
     status_isSpeaking := isAvatarSpeaking s;
     status_hasAvatar := isSome (avatar s);
     status_isSDKInitialized := isSDKInitialized s;
     status_isAlive := isSessionAlive s;
     status_hasKeepAlive := isSome (keepAliveInterval s);
     status_currentAvatar := currentAvatarId s;
     status_currentVoice := currentVoiceId s;
     status_hasMediaStream :=
       isSome (match avatar s with Some h => avatarMediaStream w h | None => None end);
     status_videoElementHasSource :=
       isSome (match videoElement s with Some v => videoSrcObject w v | None => None end);
     status_videoElementExists := isSome (videoElement s) |}.

(** *** Manual retry of the attachment *)

Definition retryStreamAttachment : M bool :=
  let! s := getSvc in
  match videoElement s with
  | None => ret false
  | Some videoElement =>
      match avatar s with
      | None => ret false
      | Some h =>
          let! w := getWorld in
          match avatarMediaStream w h with
          | Some stream =>
              setSrcObject videoElement (Some stream) >>
              setMuted videoElement true >>
              tryCatch
                (let! rejected := play videoElement in
                 if rejected : bool then throw "play failed" else ret true)
                (fun _ => ret false)
          | None => ret false
          end
      end
  end.

End Operations.

(** *** The steps of the page *)

(** What can happen to the page, one thing at a time: a call of the
    view into the service, an event of the SDK, a timer, the provider
    publishing its stream on an avatar object, the view mounting its video
    element. *)
Inductive Step : Type :=
| CallCreateSession (avatarId voiceId : string)
| CallCloseSession
| CallSendPrompt (prompt : JsString)
| CallInterrupt
| CallOnStateChange (callback : nat)
| CallUnsubscribe (callback : nat)
| MountVideo
| SdkEvent (h : handle) (ev : StreamingEvent)
| TimerFires (id : nat)
| ProviderPublishes (h : handle) (st : stream).

(** The view creates its video element and hands it to the service
    ([heygenService.videoElement = videoRef.current]). *)
Definition mountVideo (w : World) : World :=
  set_nextId (S (nextId w))
    (set_videos (insert (nextId w) {| srcObject := None; muted := false |})
       (set_svc (set_videoElement (Some (nextId w))) w)).

Definition perform (env : Env) (s : Step) (w : World) : World :=
  match s with
  | CallCreateSession a v => snd (createSessionWithBackend env a v w)
  | CallCloseSession => snd (closeSession env w)
  | CallSendPrompt p => snd (sendPrompt env p w)
  | CallInterrupt => snd (interruptAvatar env w)
  | CallOnStateChange l => snd (onStateChange l w)
  | CallUnsubscribe l => snd (unsubscribe l w)
  | MountVideo => mountVideo w
  | SdkEvent h ev =>
      match avatars w !! h with
      | Some _ => snd (onStreamingEvent env ev w)
      | None => w
      end
  | TimerFires id => snd (fireTimer env id w)
  | ProviderPublishes h st => provider_setMediaStream h st w
  end.

Definition performAll (env : Env) (steps : list Step) (w : World) : World :=
  fold_left (fun w s => perform env s w) steps w.

Definition Reachable (env : Env) (w : World) : Prop :=
  exists steps, w = performAll env steps initialWorld.

End HeyGenService.

(** ** The session handlers of the view ([App.jsx]) *)

Module App.
Import HeyGenService.
Local Open Scope js_scope.

Record Avatar : Type := {
  id : string;
  name : string;
  voice_id : string;
  gender : string
}.

(** The avatar table of the component (descriptions left out). *)
Definition workingAvatars : list Avatar := [
  {| id := "josh_lite3_20230714"; name := "Josh";
     voice_id := "da04d9a268ac468887a68359908e55b7"; gender := "male" |};
  {| id := "Anthony_Chair_Sitting_public"; name := "Anthony";
     voice_id := "0009aabefe3a4553bc581d837b6268cb"; gender := "male" |};
  {| id := "Pedro_Chair_Sitting_public"; name := "Pedro";
     voice_id := "e17b99e1b86e47e8b7f4cae0f806aa78"; gender := "male" |};
  {| id := "Alessandra_Chair_Sitting_public"; name := "Alessandra";
     voice_id := "1edc5e7338eb4e37b26dc8eb3f9b7e9c"; gender := "female" |};
  {| id := "Amina_Chair_Sitting_public"; name := "Amina";
     voice_id := "1edc5e7338eb4e37b26dc8eb3f9b7e9c"; gender := "female" |};
  {| id := "Anastasia_Chair_Sitting_public"; name := "Anastasia";
     voice_id := "1edc5e7338eb4e37b26dc8eb3f9b7e9c"; gender := "female" |};
  {| id := "Marianne_Chair_Sitting_public"; name := "Marianne";
     voice_id := "1edc5e7338eb4e37b26dc8eb3f9b7e9c"; gender := "female" |};
  {| id := "Rika_Chair_Sitting_public"; name := "Rika";
     voice_id := "1edc5e7338eb4e37b26dc8eb3f9b7e9c"; gender := "female" |}
].

(** [workingAvatars.find(a => a.id === x)] *)
Definition findAvatar (x : string) : option Avatar :=
  find (fun a => String.eqb (id a) x) workingAvatars.

Record LastResponse : Type := {
  query : JsString;
  response : option JsString;
  used_knowledge_base : option bool
}.

(** The React state of the component that the session handlers read or
    write.  The listener the component registers with [onStateChange]
    copies [avatar_speaking] into [isAvatarSpeaking]; listeners are opaque
    callbacks for the service, so that copy is not part of the model, and
    no handler below reads the field. *)
Record State : Type := {
  avatarId : string;
  voiceId : string;
  heygenConnected : bool;
  activeSessions : nat;
  prompt : JsString;
  loading : bool;
  sessionId : option string;
  lastResponse : option LastResponse;
  chatRefreshTrigger : nat;
  isAvatarSpeaking : bool;
  isVoiceMode : bool;
  transcriptionBuffer : JsString
}.

(** The state of the first render: the [useState] initial values. *)
Definition initialState : State := {|
  avatarId := "josh_lite3_20230714";
  voiceId := "da04d9a268ac468887a68359908e55b7";
  heygenConnected := false;
  activeSessions := 0%nat;
  prompt := [];
  loading := false;
  sessionId := None;
  lastResponse := None;
  chatRefreshTrigger := 0%nat;
  isAvatarSpeaking := false;
  isVoiceMode := false;
  transcriptionBuffer := []
|}.

(** The page: the React state, the video ref of the component and the
    world of the service singleton. *)
Record Page : Type := {
  state : State;
  videoRef : option handle;
  world : World
}.

Abbreviation A := (Js Page).

(** A call into the service. *)
Definition service {X} (m : M X) : A X :=
  fun p =>
    let (c, w) := m (world p) in
    (c, {| state := state p; videoRef := videoRef p; world := w |}).

Definition setState (f : State -> State) : A unit :=
  fun p => (Normal tt,
            {| state := f (state p); videoRef := videoRef p; world := world p |}).

Definition setAvatarId (x : string) : A unit :=
  setState (fun s =>
    {| avatarId := x; voiceId := voiceId s; heygenConnected := heygenConnected s;
       activeSessions := activeSessions s; prompt := prompt s; loading := loading s;
       sessionId := sessionId s; lastResponse := lastResponse s;
       chatRefreshTrigger := chatRefreshTrigger s;
       isAvatarSpeaking := isAvatarSpeaking s; isVoiceMode := isVoiceMode s;
       transcriptionBuffer := transcriptionBuffer s |}).

Definition setVoiceId (x : string) : A unit :=
  setState (fun s =>
    {| avatarId := avatarId s; voiceId := x; heygenConnected := heygenConnected s;
       activeSessions := activeSessions s; prompt := prompt s; loading := loading s;
       sessionId := sessionId s; lastResponse := lastResponse s;
       chatRefreshTrigger := chatRefreshTrigger s;
       isAvatarSpeaking := isAvatarSpeaking s; isVoiceMode := isVoiceMode s;
       transcriptionBuffer := transcriptionBuffer s |}).

Definition setHeygenConnected (x : bool) : A unit :=
  setState (fun s =>
    {| avatarId := avatarId s; voiceId := voiceId s; heygenConnected := x;
       activeSessions := activeSessions s; prompt := prompt s; loading := loading s;
       sessionId := sessionId s; lastResponse := lastResponse s;
       chatRefreshTrigger := chatRefreshTrigger s;
       isAvatarSpeaking := isAvatarSpeaking s; isVoiceMode := isVoiceMode s;
       transcriptionBuffer := transcriptionBuffer s |}).

Definition setActiveSessions (x : nat) : A unit :=
  setState (fun s =>
    {| avatarId := avatarId s; voiceId := voiceId s;
       heygenConnected := heygenConnected s;
       activeSessions := x; prompt := prompt s; loading := loading s;
       sessionId := sessionId s; lastResponse := lastResponse s;
       chatRefreshTrigger := chatRefreshTrigger s;
       isAvatarSpeaking := isAvatarSpeaking s; isVoiceMode := isVoiceMode s;
       transcriptionBuffer := transcriptionBuffer s |}).

Definition setPrompt (x : JsString) : A unit :=
  setState (fun s =>
    {| avatarId := avatarId s; voiceId := voiceId s;
       heygenConnected := heygenConnected s;
       activeSessions := activeSessions s; prompt := x; loading := loading s;
       sessionId := sessionId s; lastResponse := lastResponse s;
       chatRefreshTrigger := chatRefreshTrigger s;
       isAvatarSpeaking := isAvatarSpeaking s; isVoiceMode := isVoiceMode s;
       transcriptionBuffer := transcriptionBuffer s |}).

Definition setLoading (x : bool) (s : State) : State :=
  {| avatarId := avatarId s; voiceId := voiceId s;
     heygenConnected := heygenConnected s;
     activeSessions := activeSessions s; prompt := prompt s; loading := x;
     sessionId := sessionId s; lastResponse := lastResponse s;
     chatRefreshTrigger := chatRefreshTrigger s;
     isAvatarSpeaking := isAvatarSpeaking s; isVoiceMode := isVoiceMode s;
     transcriptionBuffer := transcriptionBuffer s |}.

Definition setSessionId (x : option string) : A unit :=
  setState (fun s =>
    {| avatarId := avatarId s; voiceId := voiceId s;
       heygenConnected := heygenConnected s;
       activeSessions := activeSessions s; prompt := prompt s; loading := loading s;
       sessionId := x; lastResponse := lastResponse s;
       chatRefreshTrigger := chatRefreshTrigger s;
       isAvatarSpeaking := isAvatarSpeaking s; isVoiceMode := isVoiceMode s;
       transcriptionBuffer := transcriptionBuffer s |}).

Definition setLastResponse (x : option LastResponse) : A unit :=
  setState (fun s =>
    {| avatarId := avatarId s; voiceId := voiceId s;
       heygenConnected := heygenConnected s;
       activeSessions := activeSessions s; prompt := prompt s; loading := loading s;
       sessionId := sessionId s; lastResponse := x;
       chatRefreshTrigger := chatRefreshTrigger s;
       isAvatarSpeaking := isAvatarSpeaking s; isVoiceMode := isVoiceMode s;
       transcriptionBuffer := transcriptionBuffer s |}).

(** [setChatRefreshTrigger(prev => prev + 1)] *)
Definition bumpChatRefreshTrigger : A unit :=
  setState (fun s =>
    {| avatarId := avatarId s; voiceId := voiceId s;
       heygenConnected := heygenConnected s;
       activeSessions := activeSessions s; prompt := prompt s; loading := loading s;
       sessionId := sessionId s; lastResponse := lastResponse s;
       chatRefreshTrigger := S (chatRefreshTrigger s);
       isAvatarSpeaking := isAvatarSpeaking s; isVoiceMode := isVoiceMode s;
       transcriptionBuffer := transcriptionBuffer s |}).

Definition setIsAvatarSpeaking (x : bool) : A unit :=
  setState (fun s =>
    {| avatarId := avatarId s; voiceId := voiceId s;
       heygenConnected := heygenConnected s;
       activeSessions := activeSessions s; prompt := prompt s; loading := loading s;
       sessionId := sessionId s; lastResponse := lastResponse s;
       chatRefreshTrigger := chatRefreshTrigger s;
       isAvatarSpeaking := x; isVoiceMode := isVoiceMode s;
       transcriptionBuffer := transcriptionBuffer s |}).

Definition setIsVoiceMode (x : bool) : A unit :=
  setState (fun s =>
    {| avatarId := avatarId s; voiceId := voiceId s;
       heygenConnected := heygenConnected s;
       activeSessions := activeSessions s; prompt := prompt s; loading := loading s;
       sessionId := sessionId s; lastResponse := lastResponse s;
       chatRefreshTrigger := chatRefreshTrigger s;
       isAvatarSpeaking := isAvatarSpeaking s; isVoiceMode := x;
       transcriptionBuffer := transcriptionBuffer s |}).

Definition setTranscriptionBuffer (x : JsString) : A unit :=
  setState (fun s =>
    {| avatarId := avatarId s; voiceId := voiceId s;
       heygenConnected := heygenConnected s;
       activeSessions := activeSessions s; prompt := prompt s; loading := loading s;
       sessionId := sessionId s; lastResponse := lastResponse s;
       chatRefreshTrigger := chatRefreshTrigger s;
       isAvatarSpeaking := isAvatarSpeaking s; isVoiceMode := isVoiceMode s;
       transcriptionBuffer := x |}).

Definition alert (message : string) : A unit :=
  service (emit (EvAlert message)).

Section Handlers.

Variable env : Env.

(** The handlers are closures of one render: they read the state values
    of that render, [r], whatever the state has become since. *)

Definition fetchActiveSessions : A unit :=
  tryCatch
    (service (emit EvFetchActiveSessions) >>
     let! reply := service (ask (env_activeSessions env)) in
     match reply with
     | Throw e => throw e
     | Normal active_sessions =>
         setActiveSessions (match active_sessions with Some n => n | None => 0%nat end)
     end)
    (fun _ => ret tt).

(** The voice id [createHeyGenSession] passes:
    [currentAvatar?.voice_id || voiceId]. *)
Definition currentVoiceId (r : State) : string :=
  match findAvatar (avatarId r) with
  | Some currentAvatar =>
      if truthyStr (voice_id currentAvatar) then voice_id currentAvatar
      else voiceId r
  | None => voiceId r
  end.

(** [createHeyGenSession] after its call to the service was issued: the
    awaited call and what follows it.  The arguments were evaluated when
    the call was issued. *)
Definition createHeyGenSession_settle (avatarId currentVoiceId : string) : A unit :=
  tryFinally
    (tryCatch
       (let! sessionData :=
          service (createSessionWithBackend env avatarId currentVoiceId) in
        if data_success sessionData
        then
          setSessionId (data_sessionId sessionData) >>
          setHeygenConnected true >>
          fetchActiveSessions
        else throw "Failed to create session")
       (fun error => alert ("Error creating session: " ++ error)%string))
    (fun p => {| state := setLoading false (state p); videoRef := videoRef p;
                 world := world p |}).

(** [createHeyGenSession] up to the point where the call to the service is
    issued; it yields the arguments of the call. *)
Definition createHeyGenSession_issue (r : State) : A (string * string) :=
  setState (setLoading true) >>
  ret (avatarId r, currentVoiceId r).

Definition createHeyGenSession (r : State) : A unit :=
  let! args := createHeyGenSession_issue r in
  createHeyGenSession_settle (fst args) (snd args).

Definition closeHeyGenSession : A unit :=
  tryCatch
    (let! _ := service (closeSession env) in
     (fun p =>
        match videoRef p with
        | Some v => service (setSrcObject v None) p
        | None => (Normal tt, p)
        end) >>
     setSessionId None >>
     setHeygenConnected false >>
     setIsAvatarSpeaking false >>
     fetchActiveSessions)
    (fun _ => ret tt).

Definition handleAvatarChange (r : State) (selectedId : string) : A unit :=
  if heygenConnected r
  then alert "Please end the current session before changing avatars"
  else
    setAvatarId selectedId >>
    setVoiceId (match findAvatar selectedId with
                | Some selectedAvatar =>
                    if truthyStr (voice_id selectedAvatar)
                    then voice_id selectedAvatar else voiceId r
                | None => voiceId r
                end).

Definition sendPrompt (r : State) : A unit :=
  if negb (truthyJs (trim (prompt r))) || loading r then ret tt
  else
    setState (setLoading true) >>
    tryFinally
      (tryCatch
         (let! result := service (HeyGenService.sendPrompt env (prompt r)) in
          setLastResponse
            (Some {| query := prompt r;
                     response := result_response result;
                     used_knowledge_base := result_used_knowledge_base result |}) >>
          bumpChatRefreshTrigger >>
          setPrompt [] >>
          setTranscriptionBuffer [] >>
          setIsVoiceMode false)
         (fun error => alert ("Error: " ++ error)%string))
      (fun p => {| state := setLoading false (state p); videoRef := videoRef p;
                   world := world p |}).

Definition interruptAvatar : A unit :=
  setState (setLoading false) >>
  tryCatch (let! _ := service (HeyGenService.interruptAvatar env) in ret tt)
           (fun _ => ret tt).

(** The callback of the session-refresh effect. *)
Definition refreshSession (r : State) : A unit :=
  tryCatch
    (closeHeyGenSession >>
     service (sleep 1000) >>
     createHeyGenSession r)
    (fun _ => alert "Session refresh failed. Please restart manually.").

(** The session-refresh effect of a render: nothing without a connected
    session, otherwise one timeout of nine minutes running
    [refreshSession] with the closures of that render. *)
Definition sessionRefreshEffect (r : State) : option (Z * A unit) :=
  if negb (truthyOptStr (sessionId r)) || negb (heygenConnected r) then None
  else Some (9 * 60 * 1000, refreshSession r).

(** [handleKeyPress]: [e.key] is all the handler reads of the event. *)
Definition handleKeyPress (r : State) (key : string) : A unit :=
  if String.eqb key "Enter" && negb (loading r) && truthyJs (trim (prompt r))
  then sendPrompt r
  else ret tt.

(** The [keydown] listener of the Escape effect of a render. *)
Definition handleKeyDown (r : State) (key : string) : A unit :=
  if String.eqb key "Escape" && (isAvatarSpeaking r || loading r)
  then interruptAvatar
  else ret tt.

(** [handleTranscriptionUpdate]: it yields the timeout it arms, if any.
    The callback of that timeout calls the [sendPrompt] of the render the
    handler belongs to. *)
Definition handleTranscriptionUpdate (r : State) (text : JsString) (isFinal : bool)
  : A (option (Z * A unit)) :=
  if isFinal
  then
    setPrompt text >>
    setTranscriptionBuffer [] >>
    setIsVoiceMode false >>
    ret (Some (100, sendPrompt r))
  else
    setTranscriptionBuffer text >>
    setPrompt text >>
    ret None.

End Handlers.

End App.

(** ** The manual negotiation ([services/webrtcService.js]) *)

Module WebRTCService.
Local Open Scope js_scope.

Inductive IceGatheringState : Type := IceNew | IceGathering | IceComplete.

Definition isComplete (st : IceGatheringState) : bool :=
  match st with IceComplete => true | _ => false end.

(** [pc.iceConnectionState] *)
Inductive IceConnectionState : Type :=
| ConnectionNew
| ConnectionChecking
| ConnectionConnected
| ConnectionCompleted
| ConnectionDisconnected
| ConnectionFailed
| ConnectionClosed.

(** A local description: the answer the browser created and the ICE
    candidates gathered so far, which the browser keeps adding to
    [pc.localDescription.sdp]. *)
Record Sdp : Type := {
  answer : string;
  candidates : list nat
}.

(** The [RTCPeerConnection] object. *)
Record PeerConnection : Type := {
  closed : bool;
  remoteDescription : option string;
  localDescription : option Sdp;
  iceGatheringState : IceGatheringState;
  onicegatheringstatechange : bool
}.

(** The promise [setupConnection] returns. *)
Inductive Settlement : Type :=
| Pending
| Resolved (pc : handle)
| Rejected (e : Error).

(** [sdpData]: a string, an object with an optional [sdp] property, or
    [null]/[undefined]. *)
Inductive SdpData : Type :=
| SdpString (s : string)
| SdpObject (sdp : option string)
| SdpNull.

(** How a promise of the browser ends: it is fulfilled, it is rejected,
    or it never settles. *)
Inductive Awaited (A : Type) : Type :=
| Fulfils (a : A)
| Rejects (e : Error)
| Hangs.

Arguments Fulfils {A} a.
Arguments Rejects {A} e.
Arguments Hangs {A}.

(** The object [sendAnswerToHeyGen] expects from the session-start call. *)
Record StartResult : Type := { success : bool }.

(** What the browser reports on the peer connection. *)
Inductive IceEvent : Type :=
| Candidate (c : nat)
| GatheringStateChange (st : IceGatheringState)
| IceConnectionStateChange (st : IceConnectionState)
| Track (kind : string).

Inductive Event : Type :=
| EvNewPeerConnection (pc : handle) (iceServers : list string)
| EvAddTransceiver (pc : handle) (kind : string)
| EvSetRemoteDescription (pc : handle) (sdp : string)
| EvCreateAnswer (pc : handle)
| EvSetLocalDescription (pc : handle) (answer : string)
| EvSetTimeout (ms : Z)
| EvClearTimeout
| EvClose (pc : handle)
| EvTrackCallback (callback : nat) (kind : string)
| EvConnectionStateChangeCallback (callback : nat) (isConnected : bool).

(** The browser during one negotiation.  Times are in milliseconds
    since the call.  [env_ice] lists what the browser reports once the
    [then] chain has run; a track or a connection state reported while the
    chain is still running reaches the same two handlers, which read and
    write nothing the chain uses.  Reports for a connection that is already
    closed are not excluded; they only add runs. *)
Record Env : Type := {
  env_setRemoteDescription : Awaited unit;
  env_createAnswer : Awaited string;
  env_setLocalDescription : Awaited unit;
  env_localSetAt : Z;
  env_gatheringAfterLocal : IceGatheringState;
  env_ice : list (Z * IceEvent)
}.

(** The fields of the [WebRTCService] singleton. *)
Record Service : Type := {
  peerConnection : option handle;
  isConnected : bool;
  onTrackCallback : option nat;
  onConnectionStateChangeCallback : option nat
}.

Definition constructor : Service :=
  {| peerConnection := None; isConnected := false; onTrackCallback := None;
     onConnectionStateChangeCallback := None |}.

Definition set_peerConnection (x : option handle) (s : Service) : Service :=
  {| peerConnection := x; isConnected := isConnected s;
     onTrackCallback := onTrackCallback s;
     onConnectionStateChangeCallback := onConnectionStateChangeCallback s |}.

Definition set_isConnected (x : bool) (s : Service) : Service :=
  {| peerConnection := peerConnection s; isConnected := x;
     onTrackCallback := onTrackCallback s;
     onConnectionStateChangeCallback := onConnectionStateChangeCallback s |}.

Definition set_onTrackCallback (x : option nat) (s : Service) : Service :=
  {| peerConnection := peerConnection s; isConnected := isConnected s;
     onTrackCallback := x;
     onConnectionStateChangeCallback := onConnectionStateChangeCallback s |}.

Definition set_onConnectionStateChangeCallback (x : option nat) (s : Service) : Service :=
  {| peerConnection := peerConnection s; isConnected := isConnected s;
     onTrackCallback := onTrackCallback s;
     onConnectionStateChangeCallback := x |}.

Record World : Type := {
  svc : Service;
  pcs : gmap nat PeerConnection;
  timeoutVar : bool;          (* the [timeout] variable holds a timer id *)
  timerArmed : option Z;      (* the pending timer and its deadline *)
  promise : Settlement;
  settledAt : option Z;       (* when the promise was settled *)
  now : Z;
  nextId : nat;
  trace : list Event
}.

Definition initialWorld : World := {|
  svc := constructor;
  pcs := ∅; timeoutVar := false; timerArmed := None; promise := Pending;
  settledAt := None; now := 0; nextId := 1%nat; trace := []
|}.

Abbreviation M := (Js World).

Definition emit (e : Event) : M unit :=
  fun w => (Normal tt,
            {| svc := svc w; pcs := pcs w; timeoutVar := timeoutVar w;
               timerArmed := timerArmed w; promise := promise w;
               settledAt := settledAt w; now := now w;
               nextId := nextId w; trace := trace w ++ [e] |}).

Definition getWorld : M World := fun w => (Normal w, w).

Definition modify (f : Service -> Service) : M unit :=
  fun w => (Normal tt,
            {| svc := f (svc w); pcs := pcs w; timeoutVar := timeoutVar w;
               timerArmed := timerArmed w; promise := promise w;
               settledAt := settledAt w; now := now w;
               nextId := nextId w; trace := trace w |}).

Definition updatePc (pc : handle) (f : PeerConnection -> PeerConnection) : M unit :=
  fun w => (Normal tt,
            {| svc := svc w; pcs := alter f pc (pcs w); timeoutVar := timeoutVar w;
               timerArmed := timerArmed w; promise := promise w;
               settledAt := settledAt w; now := now w;
               nextId := nextId w; trace := trace w |}).

Definition setTimer (var : bool) (armed : option Z) : M unit :=
  fun w => (Normal tt,
            {| svc := svc w; pcs := pcs w; timeoutVar := var;
               timerArmed := armed; promise := promise w;
               settledAt := settledAt w; now := now w;
               nextId := nextId w; trace := trace w |}).

Definition setNow (t : Z) : M unit :=
  fun w => (Normal tt,
            {| svc := svc w; pcs := pcs w; timeoutVar := timeoutVar w;
               timerArmed := timerArmed w; promise := promise w;
               settledAt := settledAt w; now := t;
               nextId := nextId w; trace := trace w |}).

(** [resolve(pc)] / [reject(error)]: a settled promise stays as it is. *)
Definition settle (s : Settlement) : M unit :=
  fun w => (Normal tt,
            {| svc := svc w; pcs := pcs w; timeoutVar := timeoutVar w;
               timerArmed := timerArmed w;
               promise := match promise w with Pending => s | settled => settled end;
               settledAt := match promise w with
                            | Pending => Some (now w)
                            | _ => settledAt w
                            end;
               now := now w; nextId := nextId w; trace := trace w |}).

(** [new RTCPeerConnection({ iceServers })] *)
Definition newPeerConnection (iceServers : list string) : M handle :=
  fun w =>
    let pc := nextId w in
    (Normal pc,
     {| svc := svc w;
        pcs := <[pc := {| closed := false; remoteDescription := None;
                          localDescription := None; iceGatheringState := IceNew;
                          onicegatheringstatechange := false |}]> (pcs w);
        timeoutVar := timeoutVar w; timerArmed := timerArmed w;
        promise := promise w; settledAt := settledAt w; now := now w;
        nextId := S (nextId w);
        trace := trace w ++ [EvNewPeerConnection pc iceServers] |}).

Definition setClosed (p : PeerConnection) : PeerConnection :=
  {| closed := true; remoteDescription := remoteDescription p;
     localDescription := localDescription p;
     iceGatheringState := iceGatheringState p;
     onicegatheringstatechange := onicegatheringstatechange p |}.

Definition setRemote (sdp : string) (p : PeerConnection) : PeerConnection :=
  {| closed := closed p; remoteDescription := Some sdp;
     localDescription := localDescription p;
     iceGatheringState := iceGatheringState p;
     onicegatheringstatechange := onicegatheringstatechange p |}.

Definition setLocal (d : option Sdp) (p : PeerConnection) : PeerConnection :=
  {| closed := closed p; remoteDescription := remoteDescription p;
     localDescription := d;
     iceGatheringState := iceGatheringState p;
     onicegatheringstatechange := onicegatheringstatechange p |}.

Definition setGathering (st : IceGatheringState) (p : PeerConnection) : PeerConnection :=
  {| closed := closed p; remoteDescription := remoteDescription p;
     localDescription := localDescription p;
     iceGatheringState := st;
     onicegatheringstatechange := onicegatheringstatechange p |}.

Definition setHandler (h : bool) (p : PeerConnection) : PeerConnection :=
  {| closed := closed p; remoteDescription := remoteDescription p;
     localDescription := localDescription p;
     iceGatheringState := iceGatheringState p;
     onicegatheringstatechange := h |}.

Definition addCandidate (c : nat) (p : PeerConnection) : PeerConnection :=
  setLocal (match localDescription p with
            | Some d => Some {| answer := answer d; candidates := candidates d ++ [c] |}
            | None => None
            end) p.

(** [pc.close()] *)
Definition close (pc : handle) : M unit :=
  emit (EvClose pc) >> updatePc pc setClosed.

Definition defaultIceServers : list string :=
  ["stun:stun.l.google.com:19302"; "stun:stun1.l.google.com:19302"].

(** [iceServers && iceServers.length > 0 ? iceServers : [ ... ]] *)
Definition iceServersOrDefault (iceServers : option (list string)) : list string :=
  match iceServers with
  | Some [] => defaultIceServers
  | Some servers => servers
  | None => defaultIceServers
  end.

(** [heygenService.startSession(sessionId, sdp)].  [heygenService] is
    the singleton exported by [services/heygenService.js]; neither its
    class nor its constructor defines [startSession], so the property reads
    [undefined] and the call throws a [TypeError] once its arguments are
    evaluated: nothing leaves the program. *)
Definition startSession (sessionId : string) (sdp : Sdp) : M StartResult :=
  throw "TypeError".

(** [if (this.onConnectionStateChangeCallback)
    this.onConnectionStateChangeCallback(x)].  The callback is the last
    statement wherever it is called from a handler of the browser, so what
    it throws changes nothing in the program. *)
Definition notifyConnectionState (x : bool) : M unit :=
  let! w := getWorld in
  match onConnectionStateChangeCallback (svc w) with
  | Some callback => emit (EvConnectionStateChangeCallback callback x)
  | None => ret tt
  end.

(** [pc.ontrack] *)
Definition onTrack (kind : string) : M unit :=
  let! w := getWorld in
  match onTrackCallback (svc w) with
  | Some callback => emit (EvTrackCallback callback kind)
  | None => ret tt
  end.

(** [pc.oniceconnectionstatechange], with [pc.iceConnectionState] the
    state the browser reports. *)
Definition onIceConnectionStateChange (st : IceConnectionState) : M unit :=
  match st with
  | ConnectionConnected | ConnectionCompleted => modify (set_isConnected true)
  | ConnectionDisconnected | ConnectionFailed => modify (set_isConnected false)
  | _ => ret tt
  end >>
  let! w := getWorld in
  notifyConnectionState (isConnected (svc w)).

(** The [cleanup] closure of the promise executor. *)
Definition cleanup (pc : handle) : M unit :=
  let! w := getWorld in
  (if timeoutVar w then emit EvClearTimeout >> setTimer true None else ret tt) >>
  updatePc pc (setHandler false).

Definition sendAnswerToHeyGen (pc : handle) (sessionId : string) : M unit :=
  cleanup pc >>
  tryCatch
    (let! w := getWorld in
     match pcs w !! pc with
     | Some {| localDescription := Some sdp |} =>
         let! result := startSession sessionId sdp in
         if success result
         then modify (set_peerConnection (Some pc)) >> settle (Resolved pc)
         else close pc >> settle (Rejected "Failed to start session")
     | _ => throw "TypeError"
     end)
    (fun error => close pc >> settle (Rejected error)).

Section Negotiation.

Variable env : Env.

(** [promise.then(onFulfilled)] followed down the chain by
    [.catch(onRejected)]: nothing runs for a promise that never settles. *)
Definition andThen {A} (r : Awaited A) (onRejected : Error -> M unit)
    (onFulfilled : A -> M unit) : M unit :=
  match r with
  | Fulfils a => onFulfilled a
  | Rejects e => onRejected e
  | Hangs => ret tt
  end.

(** The last [then] callback of the chain, run once the local
    description is set. *)
Definition afterLocalDescription (pc : handle) (sessionId : string) : M unit :=
  let! w := getWorld in
  match pcs w !! pc with
  | Some p =>
      if isComplete (iceGatheringState p)
      then sendAnswerToHeyGen pc sessionId
      else
        updatePc pc (setHandler true) >>
        emit (EvSetTimeout 15000) >>
        setTimer true (Some (now w + 15000))
  | None => throw "TypeError"
  end.

(** The [catch] callback of the chain. *)
Definition onRejected (pc : handle) (error : Error) : M unit :=
  cleanup pc >> settle (Rejected error).

(** The promise executor: the [then] chain and its [catch]. *)
Definition executor (pc : handle) (sdpOffer sessionId : string) : M unit :=
  emit (EvSetRemoteDescription pc sdpOffer) >>
  andThen (env_setRemoteDescription env) (onRejected pc) (fun _ =>
    updatePc pc (setRemote sdpOffer) >>
    emit (EvCreateAnswer pc) >>
    andThen (env_createAnswer env) (onRejected pc) (fun created =>
      emit (EvSetLocalDescription pc created) >>
      andThen (env_setLocalDescription env) (onRejected pc) (fun _ =>
        setNow (env_localSetAt env) >>
        updatePc pc (setLocal (Some {| answer := created; candidates := [] |})) >>
        updatePc pc (setGathering (env_gatheringAfterLocal env)) >>
        tryCatch (afterLocalDescription pc sessionId) (onRejected pc)))).

(** The 15 s timer fires. *)
Definition onTimeout (pc : handle) (sessionId : string) (deadline : Z) : M unit :=
  setNow deadline >>
  (fun w => setTimer (timeoutVar w) None w) >>
  sendAnswerToHeyGen pc sessionId.

(** The browser reports something on the peer connection. *)
Definition onIceEvent (pc : handle) (sessionId : string) (t : Z) (ev : IceEvent) : M unit :=
  setNow t >>
  match ev with
  | Candidate c => updatePc pc (addCandidate c)
  | GatheringStateChange st =>
      updatePc pc (setGathering st) >>
      let! w := getWorld in
      match pcs w !! pc with
      | Some p =>
          if onicegatheringstatechange p && isComplete (iceGatheringState p)
          then sendAnswerToHeyGen pc sessionId
          else ret tt
      | None => ret tt
      end
  | IceConnectionStateChange st => onIceConnectionStateChange st
  | Track kind => onTrack kind
  end.

(** The event loop after the executor: the browser's events in order,
    the timer before the first event that is not earlier than its deadline,
    and at the latest when the events are exhausted. *)
Fixpoint eventLoop (pc : handle) (sessionId : string) (evs : list (Z * IceEvent))
  : M unit :=
  match evs with
  | [] =>
      let! w := getWorld in
      match timerArmed w with
      | Some deadline => onTimeout pc sessionId deadline
      | None => ret tt
      end
  | (t, ev) :: rest =>
      let! w := getWorld in
      match timerArmed w with
      | Some deadline =>
          if deadline <=? t then onTimeout pc sessionId deadline else ret tt
      | None => ret tt
      end >>
      onIceEvent pc sessionId t ev >>
      eventLoop pc sessionId rest
  end.

(** Every call has a promise and a [timeout] variable of its own. *)
Definition newCall : M unit :=
  fun w => (Normal tt,
            {| svc := svc w; pcs := pcs w; timeoutVar := false;
               timerArmed := None; promise := Pending; settledAt := None; now := 0;
               nextId := nextId w; trace := trace w |}).

(** [setupConnection]: the world when the negotiation has run its
    course; the promise it returned is [promise] of that world.  A throw
    of the synchronous part rejects the promise of the [async] function. *)
Definition setupConnection (sdpData : SdpData) (iceServers : option (list string))
    (sessionId : string) : World -> World :=
  fun w =>
    snd (tryCatch
           (newCall >>
            let! sdpOffer :=
              match sdpData with
              | SdpString s => ret (Some s)
              | SdpObject sdp => ret sdp
              | SdpNull => throw "TypeError"
              end in
            match sdpOffer with
            | Some offer =>
                if truthyStr offer then
                  let! pc := newPeerConnection (iceServersOrDefault iceServers) in
                  emit (EvAddTransceiver pc "video") >>
                  emit (EvAddTransceiver pc "audio") >>
                  executor pc offer sessionId >>
                  eventLoop pc sessionId (env_ice env)
                else throw "No SDP offer found in response"
            | None => throw "No SDP offer found in response"
            end)
           (fun error => settle (Rejected error)) w).

End Negotiation.

(** [closeConnection] *)
Definition closeConnection : M unit :=
  let! w := getWorld in
  match peerConnection (svc w) with
  | Some pc =>
      close pc >>
      modify (set_peerConnection None) >>
      modify (set_isConnected false) >>
      notifyConnectionState false
  | None => ret tt
  end.

Definition setOnTrackCallback (callback : option nat) : M unit :=
  modify (set_onTrackCallback callback).

Definition setOnConnectionStateChangeCallback (callback : option nat) : M unit :=
  modify (set_onConnectionStateChangeCallback callback).

End WebRTCService.

(** ** The LiveKit room service ([services/livekitService.js]) *)

Module LiveKitService.
Local Open Scope js_scope.

(** The session data as [connectToRoom] reads it. *)
Record SessionData : Type := {
  session_id : option string;
  livekit_url : option string;
  access_token : option string
}.

(** A participant as the handlers read it: its identity and, for every
    track publication, whether it is subscribed and has a track. *)
Record Participant : Type := {
  identity : string;
  trackPublications : list bool
}.

(** [ConnectionState] of the SDK. *)
Inductive ConnectionState : Type :=
| Disconnected
| Connecting
| Connected
| Reconnecting.

Definition isConnectedState (st : ConnectionState) : bool :=
  match st with Connected => true | _ => false end.

(** The events of a room the service listens to. *)
Inductive RoomEvent : Type :=
| ConnectionStateChanged (state : ConnectionState)
| ParticipantConnected (participant : Participant)
| ParticipantDisconnected (participant : Participant)
| TrackSubscribed (participant : Participant)
| TrackUnsubscribed (participant : Participant)
| RoomDisconnected
| ConnectionError.

(** The closures handed to [setTimeout] / [setInterval]. *)
Inductive Task : Type :=
| DelayedCheck
| MonitorTick
| MonitorStop.

Record Timer : Type := {
  timerId : nat;
  timerDelay : Z;
  timerRepeats : bool;
  timerTask : Task
}.

Inductive Event : Type :=
| EvNewRoom (room : handle)
(* [room.on(e, ...)]; [event] is the expression [e] of the source *)
| EvRoomOn (room : handle) (event : string)
| EvRoomConnect (room : handle) (url token : string)
| EvRoomDisconnect (room : handle)
| EvParticipantOn (identity : string) (event : string)
| EvConnectionStateChangeCallback (callback : nat) (isConnected : bool)
| EvParticipantCallback (callback : nat) (event : string) (identity : string)
| EvTrackCallback (callback : nat) (identity : string)
| EvSetTimeout (id : nat) (ms : Z)
| EvSetInterval (id : nat) (ms : Z)
| EvClearInterval (id : nat).

(** The room SDK and the registered callbacks.  Each answer is indexed
    by the number of the call in the run. *)
Record Env : Type := {
  env_connect : nat -> Completion unit;
  env_disconnect : nat -> Completion unit;
  env_participantCount : nat -> nat;
  env_callbackThrows : nat -> bool
}.

(** The fields of the [LiveKitService] singleton.
    [participantMonitorInterval] is not set by the constructor: it reads
    as [undefined] until monitoring starts. *)
Record Service : Type := {
  room : option handle;
  isConnected : bool;
  onTrackCallback : option nat;
  onConnectionStateChangeCallback : option nat;
  onParticipantCallback : option nat;
  sessionId : option string;
  participantMonitorInterval : option nat
}.

Definition constructor : Service := {|
  room := None; isConnected := false; onTrackCallback := None;
  onConnectionStateChangeCallback := None; onParticipantCallback := None;
  sessionId := None; participantMonitorInterval := None
|}.

Definition set_room (x : option handle) (s : Service) : Service :=
  {| room := x; isConnected := isConnected s; onTrackCallback := onTrackCallback s;
     onConnectionStateChangeCallback := onConnectionStateChangeCallback s;
     onParticipantCallback := onParticipantCallback s; sessionId := sessionId s;
     participantMonitorInterval := participantMonitorInterval s |}.

Definition set_isConnected (x : bool) (s : Service) : Service :=
  {| room := room s; isConnected := x; onTrackCallback := onTrackCallback s;
     onConnectionStateChangeCallback := onConnectionStateChangeCallback s;
     onParticipantCallback := onParticipantCallback s; sessionId := sessionId s;
     participantMonitorInterval := participantMonitorInterval s |}.

Definition set_onTrackCallback (x : option nat) (s : Service) : Service :=
  {| room := room s; isConnected := isConnected s; onTrackCallback := x;
     onConnectionStateChangeCallback := onConnectionStateChangeCallback s;
     onParticipantCallback := onParticipantCallback s; sessionId := sessionId s;
     participantMonitorInterval := participantMonitorInterval s |}.

Definition set_onConnectionStateChangeCallback (x : option nat) (s : Service) : Service :=
  {| room := room s; isConnected := isConnected s; onTrackCallback := onTrackCallback s;
     onConnectionStateChangeCallback := x;
     onParticipantCallback := onParticipantCallback s; sessionId := sessionId s;
     participantMonitorInterval := participantMonitorInterval s |}.

Definition set_onParticipantCallback (x : option nat) (s : Service) : Service :=
  {| room := room s; isConnected := isConnected s; onTrackCallback := onTrackCallback s;
     onConnectionStateChangeCallback := onConnectionStateChangeCallback s;
     onParticipantCallback := x; sessionId := sessionId s;
     participantMonitorInterval := participantMonitorInterval s |}.

Definition set_sessionId (x : option string) (s : Service) : Service :=
  {| room := room s; isConnected := isConnected s; onTrackCallback := onTrackCallback s;
     onConnectionStateChangeCallback := onConnectionStateChangeCallback s;
     onParticipantCallback := onParticipantCallback s; sessionId := x;
     participantMonitorInterval := participantMonitorInterval s |}.

Definition set_participantMonitorInterval (x : option nat) (s : Service) : Service :=
  {| room := room s; isConnected := isConnected s; onTrackCallback := onTrackCallback s;
     onConnectionStateChangeCallback := onConnectionStateChangeCallback s;
     onParticipantCallback := onParticipantCallback s; sessionId := sessionId s;
     participantMonitorInterval := x |}.

Record World : Type := {
  svc : Service;
  timers : list Timer;
  nextId : nat;
  calls : nat;
  trace : list Event
}.

Definition initialWorld : World := {|
  svc := constructor; timers := []; nextId := 1%nat; calls := 0%nat; trace := []
|}.

Abbreviation M := (Js World).

Definition getSvc : M Service := fun w => (Normal (svc w), w).

Definition modify (f : Service -> Service) : M unit :=
  fun w => (Normal tt,
            {| svc := f (svc w); timers := timers w; nextId := nextId w;
               calls := calls w; trace := trace w |}).

Definition emit (e : Event) : M unit :=
  fun w => (Normal tt,
            {| svc := svc w; timers := timers w; nextId := nextId w;
               calls := calls w; trace := trace w ++ [e] |}).

Definition ask {A} (f : nat -> A) : M A :=
  fun w => (Normal (f (calls w)),
            {| svc := svc w; timers := timers w; nextId := nextId w;
               calls := S (calls w); trace := trace w |}).

Definition fresh : M nat :=
  fun w => (Normal (nextId w),
            {| svc := svc w; timers := timers w; nextId := S (nextId w);
               calls := calls w; trace := trace w |}).

Definition dropTimer (id : nat) (ts : list Timer) : list Timer :=
  filter (fun t => negb (Nat.eqb (timerId t) id)) ts.

Definition addTimer (t : Timer) : M unit :=
  fun w => (Normal tt,
            {| svc := svc w; timers := timers w ++ [t]; nextId := nextId w;
               calls := calls w; trace := trace w |}).

Definition removeTimer (id : nat) : M unit :=
  fun w => (Normal tt,
            {| svc := svc w; timers := dropTimer id (timers w); nextId := nextId w;
               calls := calls w; trace := trace w |}).

Definition setInterval (task : Task) (ms : Z) : M nat :=
  let! id := fresh in
  emit (EvSetInterval id ms) >>
  addTimer {| timerId := id; timerDelay := ms; timerRepeats := true;
              timerTask := task |} >>
  ret id.

Definition setTimeout (task : Task) (ms : Z) : M nat :=
  let! id := fresh in
  emit (EvSetTimeout id ms) >>
  addTimer {| timerId := id; timerDelay := ms; timerRepeats := false;
              timerTask := task |} >>
  ret id.

Definition clearInterval (id : nat) : M unit :=
  emit (EvClearInterval id) >> removeTimer id.

Section Operations.

Variable env : Env.

(** A registered callback is called; it may throw. *)
Definition call (e : Event) : M unit :=
  emit e >>
  let! throws := ask (env_callbackThrows env) in
  if throws : bool then throw "callback failed" else ret tt.

(** [if (this.onConnectionStateChangeCallback) this.onConnectionStateChangeCallback(x)] *)
Definition notifyConnectionState (x : bool) : M unit :=
  let! s := getSvc in
  match onConnectionStateChangeCallback s with
  | Some callback => call (EvConnectionStateChangeCallback callback x)
  | None => ret tt
  end.

Definition stopParticipantMonitoring : M unit :=
  let! s := getSvc in
  match participantMonitorInterval s with
  | Some id => clearInterval id >> modify (set_participantMonitorInterval None)
  | None => ret tt
  end.

(** [this.room.participants?.size || 0] *)
Definition participantCount : M nat := ask (env_participantCount env).

(** The callback of the 5 s interval. *)
Definition monitorTick : M unit :=
  let! s := getSvc in
  if negb (HeyGenService.isSome (room s)) || negb (isConnected s)
  then stopParticipantMonitoring
  else
    let! n := participantCount in
    if (0 <? n)%nat then stopParticipantMonitoring else ret tt.

Definition startParticipantMonitoring : M unit :=
  let! s := getSvc in
  if negb (HeyGenService.isSome (room s)) then ret tt
  else
    let! id := setInterval MonitorTick 5000 in
    modify (set_participantMonitorInterval (Some id)) >>
    let! _ := setTimeout MonitorStop 120000 in
    ret tt.

(** The callback of the 8 s timeout: it reads the participants and only
    logs. *)
Definition delayedCheck : M unit :=
  let! s := getSvc in
  match room s with
  | Some _ => let! _ := participantCount in ret tt
  | None => ret tt
  end.

Definition setupRoomEventListeners : M unit :=
  let! s := getSvc in
  match room s with
  | None => ret tt
  | Some h =>
      emit (EvRoomOn h "RoomEvent.ConnectionStateChanged") >>
      emit (EvRoomOn h "RoomEvent.ParticipantConnected") >>
      emit (EvRoomOn h "RoomEvent.ParticipantDisconnected") >>
      emit (EvRoomOn h "RoomEvent.TrackSubscribed") >>
      emit (EvRoomOn h "RoomEvent.TrackUnsubscribed") >>
      emit (EvRoomOn h "RoomEvent.Disconnected") >>
      emit (EvRoomOn h "RoomEvent.ConnectionError")
  end.

(** [new Room({ ... })] *)
Definition newRoom : M handle :=
  let! h := fresh in
  emit (EvNewRoom h) >>
  ret h.

Definition connectToRoom (sessionData : SessionData) : M bool :=
  tryCatch
    (match livekit_url sessionData, access_token sessionData with
     | Some url, Some token =>
         if negb (truthyStr url) || negb (truthyStr token)
         then throw "Missing LiveKit connection data from HeyGen"
         else
           modify (set_sessionId (session_id sessionData)) >>
           let! h := newRoom in
           modify (set_room (Some h)) >>
           setupRoomEventListeners >>
           emit (EvRoomConnect h url token) >>
           let! r := ask (env_connect env) in
           liftCompletion r >>
           modify (set_isConnected true) >>
           notifyConnectionState true >>
           let! _ := setTimeout DelayedCheck 8000 in
           startParticipantMonitoring >>
           ret true
     | _, _ => throw "Missing LiveKit connection data from HeyGen"
     end)
    (fun error =>
       modify (set_isConnected false) >>
       notifyConnectionState false >>
       throw error).

(** [handleTrack] *)
Definition handleTrack (participant : Participant) : M unit :=
  let! s := getSvc in
  match onTrackCallback s with
  | Some callback => call (EvTrackCallback callback (identity participant))
  | None => ret tt
  end.

(** [participant.trackPublications.forEach(...)] of the
    [ParticipantConnected] handler. *)
Fixpoint handlePublications (participant : Participant) (pubs : list bool) : M unit :=
  match pubs with
  | [] => ret tt
  | subscribed :: rest =>
      (if subscribed : bool then handleTrack participant else ret tt) >>
      handlePublications participant rest
  end.

(** The handlers [setupRoomEventListeners] registers. *)
Definition onRoomEvent (ev : RoomEvent) : M unit :=
  match ev with
  | ConnectionStateChanged state =>
      modify (set_isConnected (isConnectedState state)) >>
      notifyConnectionState (isConnectedState state)
  | ParticipantConnected participant =>
      let! s := getSvc in
      match onParticipantCallback s with
      | Some callback =>
          call (EvParticipantCallback callback "connected" (identity participant))
      | None => ret tt
      end >>
      handlePublications participant (trackPublications participant) >>
      emit (EvParticipantOn (identity participant) "ParticipantEvent.TrackSubscribed")
  | ParticipantDisconnected participant =>
      let! s := getSvc in
      match onParticipantCallback s with
      | Some callback =>
          call (EvParticipantCallback callback "disconnected" (identity participant))
      | None => ret tt
      end
  | TrackSubscribed participant => handleTrack participant
  | TrackUnsubscribed _ => ret tt
  | RoomDisconnected =>
      modify (set_isConnected false) >> notifyConnectionState false
  | ConnectionError =>
      modify (set_isConnected false) >> notifyConnectionState false
  end.

Definition disconnect : M unit :=
  let! s := getSvc in
  match room s with
  | None => ret tt
  | Some h =>
      stopParticipantMonitoring >>
      tryCatch
        (emit (EvRoomDisconnect h) >>
         let! r := ask (env_disconnect env) in
         liftCompletion r)
        (fun _ => ret tt) >>
      modify (set_room None) >>
      modify (set_isConnected false) >>
      modify (set_sessionId None) >>
      notifyConnectionState false
  end.

Definition setOnTrackCallback (callback : option nat) : M unit :=
  modify (set_onTrackCallback callback).

Definition setOnConnectionStateChangeCallback (callback : option nat) : M unit :=
  modify (set_onConnectionStateChangeCallback callback).

Definition setOnParticipantCallback (callback : option nat) : M unit :=
  modify (set_onParticipantCallback callback).

Definition runTask (t : Task) : M unit :=
  match t with
  | DelayedCheck => delayedCheck
  | MonitorTick => monitorTick
  | MonitorStop => stopParticipantMonitoring
  end.

Definition fireTimer (id : nat) : M unit :=
  fun w =>
    match find (fun t => Nat.eqb (timerId t) id) (timers w) with
    | None => (Normal tt, w)
    | Some t =>
        runTask (timerTask t)
                (if timerRepeats t then w
                 else {| svc := svc w; timers := dropTimer id (timers w);
                         nextId := nextId w; calls := calls w; trace := trace w |})
    end.

End Operations.

(** *** The steps of the room service *)

(** What can happen to the singleton, one thing at a time: a call of one
    of its methods, an event of a room it listens to, a timer.  The
    handlers are never removed from a room, so an event can still arrive
    after [disconnect].  Runs in which an event comes before any room
    exists are included as well; they only add behaviours.  The
    awaited SDK calls are taken as one step: the events a room emits
    while [connect] or [disconnect] is pending come as steps of their own,
    before or after the call. *)
Inductive Step : Type :=
| CallConnectToRoom (sessionData : SessionData)
| CallDisconnect
| CallSetOnTrackCallback (callback : option nat)
| CallSetOnConnectionStateChangeCallback (callback : option nat)
| CallSetOnParticipantCallback (callback : option nat)
| RoomEmits (ev : RoomEvent)
| TimerFires (id : nat).

Definition perform (env : Env) (s : Step) (w : World) : World :=
  match s with
  | CallConnectToRoom d => snd (connectToRoom env d w)
  | CallDisconnect => snd (disconnect env w)
  | CallSetOnTrackCallback c => snd (setOnTrackCallback c w)
  | CallSetOnConnectionStateChangeCallback c =>
      snd (setOnConnectionStateChangeCallback c w)
  | CallSetOnParticipantCallback c => snd (setOnParticipantCallback c w)
  | RoomEmits ev => snd (onRoomEvent env ev w)
  | TimerFires id => snd (fireTimer env id w)
  end.

Definition performAll (env : Env) (steps : list Step) (w : World) : World :=
  fold_left (fun w s => perform env s w) steps w.

Definition Reachable (env : Env) (w : World) : Prop :=
  exists steps, w = performAll env steps initialWorld.

End LiveKitService.

(** ** The avatar SDK on top of the room service ([HeyGenLiveKitIntegration]) *)

Module HeyGenLiveKitIntegration.
Local Open Scope js_scope.

Abbreviation SessionData := LiveKitService.SessionData.

(** The argument of [startAvatarSession].  The voice and knowledge-base
    entries are passed through to the SDK unread and are left out. *)
Record Config : Type := {
  avatarId : option string;
  quality : option string;
  avatarName : option string;
  livekitSettings : option (string * string);
  disableIdleTimeout : option bool
}.

Definition emptyConfig : Config := {|
  avatarId := None; quality := None; avatarName := None;
  livekitSettings := None; disableIdleTimeout := None
|}.

(** The request [startAvatarSession] builds.  [custom_livekit] holds
    [livekit_url] and [livekit_token]; [use_custom_livekit] is [true]
    exactly when it is present. *)
Record SessionConfig : Type := {
  avatar_id : string;
  session_quality : string;
  avatar_name : string;
  custom_livekit : option (string * string);
  version : string;
  disable_idle_timeout : bool
}.

(** [x || d] on an optional string. *)
Definition orString (x : option string) (d : string) : string :=
  match x with
  | Some s => if truthyStr s then s else d
  | None => d
  end.

Definition sessionConfig (config : Config) : SessionConfig := {|
  avatar_id := orString (avatarId config) "default_avatar_id";
  session_quality := orString (quality config) "medium";
  avatar_name := orString (avatarName config) "HeyGen Avatar";
  custom_livekit := livekitSettings config;
  version := "v2";
  disable_idle_timeout :=
    match disableIdleTimeout config with Some b => b | None => false end
|}.

(** What [avatar.speak] and the voice-chat calls resolve to. *)
Record Response : Type := { task_id : option string }.

Inductive Event : Type :=
| EvFetchToken
| EvNewAvatar (avatar : handle) (token : string)
| EvAvatarOn (avatar : handle) (event : string)
| EvCreateStartAvatar (avatar : handle) (config : SessionConfig)
| EvSpeak (avatar : handle) (text taskMode : string) (session : option string)
| EvInterrupt (avatar : handle) (session : option string)
| EvStartVoiceChat (avatar : handle) (session : option string)
| EvCloseVoiceChat (avatar : handle) (session : option string)
| EvStopAvatar (avatar : handle) (session : string).

(** The avatar SDK, the token endpoint and the room SDK. *)
Record Env : Type := {
  env_livekit : LiveKitService.Env;
  env_fetchToken : nat -> Completion string;
  env_createStartAvatar : nat -> Completion (option SessionData);
  env_speak : nat -> Completion (option Response);
  env_interrupt : nat -> Completion unit;
  env_startVoiceChat : nat -> Completion (option Response);
  env_closeVoiceChat : nat -> Completion (option Response);
  env_stopAvatar : nat -> Completion unit
}.

(** The fields of a [HeyGenLiveKitIntegration]. *)
Record Integration : Type := {
  avatar : option handle;
  sessionData : option SessionData;
  isSessionActive : bool
}.

Definition constructor : Integration :=
  {| avatar := None; sessionData := None; isSessionActive := false |}.

Definition set_avatar (x : option handle) (i : Integration) : Integration :=
  {| avatar := x; sessionData := sessionData i; isSessionActive := isSessionActive i |}.

Definition set_sessionData (x : option SessionData) (i : Integration) : Integration :=
  {| avatar := avatar i; sessionData := x; isSessionActive := isSessionActive i |}.

Definition set_isSessionActive (x : bool) (i : Integration) : Integration :=
  {| avatar := avatar i; sessionData := sessionData i; isSessionActive := x |}.

(** One integration object, the room-service singleton it drives, and
    the calls made on the avatar SDK. *)
Record World : Type := {
  integration : Integration;
  livekit : LiveKitService.World;
  nextAvatar : nat;
  calls : nat;
  trace : list Event
}.

Definition initialWorld : World := {|
  integration := constructor; livekit := LiveKitService.initialWorld;
  nextAvatar := 1%nat; calls := 0%nat; trace := []
|}.

Abbreviation I := (Js World).

Definition getIntegration : I Integration := fun w => (Normal (integration w), w).

Definition modify (f : Integration -> Integration) : I unit :=
  fun w => (Normal tt,
            {| integration := f (integration w); livekit := livekit w;
               nextAvatar := nextAvatar w; calls := calls w; trace := trace w |}).

Definition emit (e : Event) : I unit :=
  fun w => (Normal tt,
            {| integration := integration w; livekit := livekit w;
               nextAvatar := nextAvatar w; calls := calls w; trace := trace w ++ [e] |}).

Definition ask {A} (f : nat -> A) : I A :=
  fun w => (Normal (f (calls w)),
            {| integration := integration w; livekit := livekit w;
               nextAvatar := nextAvatar w; calls := S (calls w); trace := trace w |}).

Definition fresh : I handle :=
  fun w => (Normal (nextAvatar w),
            {| integration := integration w; livekit := livekit w;
               nextAvatar := S (nextAvatar w); calls := calls w; trace := trace w |}).

(** A method of the imported [LiveKitService] singleton. *)
Definition service {A} (m : LiveKitService.M A) : I A :=
  fun w =>
    let (c, l) := m (livekit w) in
    (c, {| integration := integration w; livekit := l;
           nextAvatar := nextAvatar w; calls := calls w; trace := trace w |}).

(** The closures [connectToLiveKitRoom] registers. *)
Definition trackCallback : nat := 1.
Definition connectionStateCallback : nat := 2.
Definition participantCallback : nat := 3.

(** [this.sessionData?.session_id] *)
Definition sessionIdOf (i : Integration) : option string :=
  match sessionData i with
  | Some d => LiveKitService.session_id d
  | None => None
  end.

Section Operations.

Variable env : Env.

Definition setupAvatarEventListeners : I unit :=
  let! i := getIntegration in
  match avatar i with
  | None => ret tt
  | Some h =>
      emit (EvAvatarOn h "StreamingEvents.AVATAR_START_TALKING") >>
      emit (EvAvatarOn h "StreamingEvents.AVATAR_STOP_TALKING") >>
      emit (EvAvatarOn h "StreamingEvents.STREAM_READY") >>
      emit (EvAvatarOn h "StreamingEvents.STREAM_DISCONNECTED")
  end.

Definition initializeAvatar (accessToken : string) : I bool :=
  tryCatch
    (let! h := fresh in
     emit (EvNewAvatar h accessToken) >>
     modify (set_avatar (Some h)) >>
     setupAvatarEventListeners >>
     ret true)
    (fun error => throw error).

Definition startAvatarSession (config : Config) : I SessionData :=
  tryCatch
    (let! i := getIntegration in
     match avatar i with
     | None => throw "TypeError"
     | Some h =>
         emit (EvCreateStartAvatar h (sessionConfig config)) >>
         let! r := ask (env_createStartAvatar env) in
         let! d := liftCompletion r in
         modify (set_sessionData d) >>
         match d with
         | None => throw "TypeError"
         | Some data =>
             modify (set_isSessionActive true) >>
             ret data
         end
     end)
    (fun error =>
       modify (set_isSessionActive false) >>
       throw error).

Definition connectToLiveKitRoom (data : SessionData) : I bool :=
  tryCatch
    (service (LiveKitService.setOnTrackCallback (Some trackCallback)) >>
     service (LiveKitService.setOnConnectionStateChangeCallback
                (Some connectionStateCallback)) >>
     service (LiveKitService.setOnParticipantCallback (Some participantCallback)) >>
     let! _ := service (LiveKitService.connectToRoom (env_livekit env) data) in
     ret true)
    (fun error => throw error).

(** The guard of the four session methods:
    [if (!this.avatar || !this.isSessionActive) throw ...]. *)
Definition activeAvatar : I handle :=
  let! i := getIntegration in
  match avatar i with
  | Some h =>
      if isSessionActive i then ret h else throw "Avatar session not active"
  | None => throw "Avatar session not active"
  end.

Definition sendTextToAvatar (text : string) (taskMode : option string) : I Response :=
  let! h := activeAvatar in
  tryCatch
    (let! i := getIntegration in
     emit (EvSpeak h text (orString taskMode "sync") (sessionIdOf i)) >>
     let! r := ask (env_speak env) in
     let! response := liftCompletion r in
     match response with
     | Some x => ret x
     | None => throw "TypeError"
     end)
    (fun error => throw error).

Definition interruptAvatar : I unit :=
  let! h := activeAvatar in
  tryCatch
    (let! i := getIntegration in
     emit (EvInterrupt h (sessionIdOf i)) >>
     let! r := ask (env_interrupt env) in
     liftCompletion r)
    (fun error => throw error).

Definition startRecording : I (option Response) :=
  let! h := activeAvatar in
  tryCatch
    (let! i := getIntegration in
     emit (EvStartVoiceChat h (sessionIdOf i)) >>
     let! r := ask (env_startVoiceChat env) in
     liftCompletion r)
    (fun error => throw error).

Definition stopRecording : I (option Response) :=
  let! h := activeAvatar in
  tryCatch
    (let! i := getIntegration in
     emit (EvCloseVoiceChat h (sessionIdOf i)) >>
     let! r := ask (env_closeVoiceChat env) in
     liftCompletion r)
    (fun error => throw error).

(** [this.avatar && this.isSessionActive && this.sessionData?.session_id] *)
Definition stoppable (i : Integration) : option (handle * string) :=
  match avatar i, sessionIdOf i with
  | Some h, Some id =>
      if isSessionActive i && truthyStr id then Some (h, id) else None
  | _, _ => None
  end.

Definition disconnect : I unit :=
  tryCatch
    (let! i := getIntegration in
     match stoppable i with
     | Some (h, id) =>
         emit (EvStopAvatar h id) >>
         let! r := ask (env_stopAvatar env) in
         liftCompletion r
     | None => ret tt
     end >>
     service (LiveKitService.disconnect (env_livekit env)) >>
     modify (set_isSessionActive false) >>
     modify (set_sessionData None) >>
     modify (set_avatar None))
    (fun error => throw error).

(** [initializeHeyGenWithLiveKit]: the integration object it creates is
    the one of the world. *)
Definition initializeHeyGenWithLiveKit : I unit :=
  modify (fun _ => constructor) >>
  tryCatch
    (emit EvFetchToken >>
     let! t := ask (env_fetchToken env) in
     let! accessToken := liftCompletion t in
     let! _ := initializeAvatar accessToken in
     let! data := startAvatarSession
                    {| avatarId := Some "your_avatar_id"; quality := Some "medium";
                       avatarName := None; livekitSettings := None;
                       disableIdleTimeout := None |} in
     let! _ := connectToLiveKitRoom data in
     let! _ := sendTextToAvatar
                 "Hello! I am now connected to the LiveKit room and ready to talk."
                 None in
     ret tt)
    (fun error => disconnect >> throw error).

End Operations.

End HeyGenLiveKitIntegration.

(** ** Properties of the avatar session service *)

Module HeyGenServiceProofs.
Import HeyGenService.
Local Open Scope js_scope.

(** A collaborator set in which every call succeeds. *)
Definition quietEnv : Env := {|
  env_token := fun _ => TokenJson "success" "token-1";
  env_stopAvatar := fun _ => Normal tt;
  env_newAvatarHasInterrupt := fun _ => true;
  env_createStartAvatar := fun _ => Normal (Some "session-1");
  env_register := fun _ => Normal tt;
  env_unregister := fun _ => Normal tt;
  env_sendPrompt := fun _ =>
    LlmJson {| llm_status := "success"; llm_message := None;
               llm_response := Some [104; 105]%N;
               llm_used_knowledge_base := Some false; llm_mode := None |};
  env_speak := fun _ => SpeakFulfilled;
  env_interrupt := fun _ => Normal tt;
  env_listenerThrows := fun _ => false;
  env_playRejected := fun _ => false;
  env_activeSessions := fun _ => Normal (Some 1%nat)
|}.

(** The same collaborators with an SDK build whose avatar object has no
    [interrupt] method. *)
Definition noInterruptEnv : Env := {|
  env_token := env_token quietEnv;
  env_stopAvatar := env_stopAvatar quietEnv;
  env_newAvatarHasInterrupt := fun _ => false;
  env_createStartAvatar := env_createStartAvatar quietEnv;
  env_register := env_register quietEnv;
  env_unregister := env_unregister quietEnv;
  env_sendPrompt := env_sendPrompt quietEnv;
  env_speak := env_speak quietEnv;
  env_interrupt := env_interrupt quietEnv;
  env_listenerThrows := env_listenerThrows quietEnv;
  env_playRejected := env_playRejected quietEnv;
  env_activeSessions := env_activeSessions quietEnv
|}.

(** The page after the view mounted its video element (handle 1) and
    subscribed its listener (callback 7). *)
Definition mountedWorld : World :=
  performAll quietEnv [MountVideo; CallOnStateChange 7] initialWorld.

(** The page with one active session, created by the code itself. *)
Definition activeWorld : World :=
  performAll quietEnv
    [MountVideo; CallOnStateChange 7;
     CallCreateSession "josh_lite3_20230714" "da04d9a268ac468887a68359908e55b7"]
    initialWorld.

(** *** Listeners cannot disturb the service *)

Lemma notifyListeners_returns env ls event data w :
  fst (notifyListeners env ls event data w) = Normal tt
  /\ svc (snd (notifyListeners env ls event data w)) = svc w
  /\ avatars (snd (notifyListeners env ls event data w)) = avatars w
  /\ videos (snd (notifyListeners env ls event data w)) = videos w
  /\ timers (snd (notifyListeners env ls event data w)) = timers w.
Proof.
  revert w. induction ls as [|l rest IH]; intros w; [by cbn|].
  cbn [notifyListeners]. unfold bind at 1.
  unfold tryCatch, bind, emit, ask, throw, ret.
  destruct (env_listenerThrows env _); cbn;
    match goal with
    | |- context [notifyListeners env rest event data ?w'] =>
        destruct (IH w') as (-> & -> & -> & -> & ->)
    end; done.
Qed.

Lemma notifyStateChange_returns env event data w :
  fst (notifyStateChange env event data w) = Normal tt
  /\ svc (snd (notifyStateChange env event data w)) = svc w
  /\ avatars (snd (notifyStateChange env event data w)) = avatars w
  /\ videos (snd (notifyStateChange env event data w)) = videos w
  /\ timers (snd (notifyStateChange env event data w)) = timers w.
Proof.
  unfold notifyStateChange, bind, getSvc. apply notifyListeners_returns.
Qed.

Lemma notifyListeners_trace env ls event data w :
  exists t, trace (snd (notifyListeners env ls event data w)) = trace w ++ t.
Proof.
  revert w. induction ls as [|l rest IH]; intros w.
  - exists []. cbn. by rewrite app_nil_r.
  - cbn [notifyListeners]. unfold bind at 1.
    unfold tryCatch, bind, emit, ask, throw, ret.
    destruct (env_listenerThrows env _); cbn;
      match goal with
      | |- context [notifyListeners env rest event data ?w'] =>
          destruct (IH w') as [t ->]
      end; cbn; rewrite <- app_assoc; eauto.
Qed.

Lemma notifyStateChange_trace env event data w :
  exists t, trace (snd (notifyStateChange env event data w)) = trace w ++ t.
Proof.
  unfold notifyStateChange, bind, getSvc. apply notifyListeners_trace.
Qed.

Lemma notifyStateChange_then {A} env event data (k : M A) w :
  bind (notifyStateChange env event data) (fun _ => k) w =
  k (snd (notifyStateChange env event data w)).
Proof.
  unfold bind at 1.
  pose proof (notifyStateChange_returns env event data w) as [H _].
  destruct (notifyStateChange env event data w) as [[[]|e] w']; cbn in *; congruence.
Qed.

(** *** Running the monad one call at a time *)

Lemma run_getSvc {A} (k : Service -> M A) w : bind getSvc k w = k (svc w) w.
Proof. reflexivity. Qed.

Lemma run_getWorld {A} (k : World -> M A) w : bind getWorld k w = k w w.
Proof. reflexivity. Qed.

Lemma run_ret {A B} (a : A) (k : A -> M B) w : bind (ret a) k w = k a w.
Proof. reflexivity. Qed.

Lemma run_throw {A B} e (k : A -> M B) w : bind (throw e) k w = (Throw e, w).
Proof. reflexivity. Qed.

Lemma run_modify {A} f (k : unit -> M A) w :
  bind (modify f) k w = k tt (set_svc f w).
Proof. reflexivity. Qed.

Lemma run_emit {A} e (k : unit -> M A) w :
  bind (emit e) k w = k tt (set_trace (fun t => t ++ [e]) w).
Proof. reflexivity. Qed.

Lemma run_ask {A B} (f : nat -> A) (k : A -> M B) w :
  bind (ask f) k w = k (f (calls w)) (set_calls (S (calls w)) w).
Proof. reflexivity. Qed.

Lemma run_fresh {A} (k : nat -> M A) w :
  bind fresh k w = k (nextId w) (set_nextId (S (nextId w)) w).
Proof. reflexivity. Qed.

Lemma run_addTimer {A} t (k : unit -> M A) w :
  bind (addTimer t) k w = k tt (set_timers (fun ts => ts ++ [t]) w).
Proof. reflexivity. Qed.

Lemma run_removeTimer {A} id (k : unit -> M A) w :
  bind (removeTimer id) k w = k tt (set_timers (dropTimer id) w).
Proof. reflexivity. Qed.

Lemma run_storeAvatar {A} h o (k : unit -> M A) w :
  bind (storeAvatar h o) k w = k tt (set_avatars (insert h o) w).
Proof. reflexivity. Qed.

Lemma run_setSrcObject {A} v x (k : unit -> M A) w :
  bind (setSrcObject v x) k w =
  k tt (set_videos (alter (fun el => {| srcObject := x; muted := muted el |}) v) w).
Proof. reflexivity. Qed.

Lemma run_setMuted {A} v x (k : unit -> M A) w :
  bind (setMuted v x) k w =
  k tt (set_videos (alter (fun el => {| srcObject := srcObject el; muted := x |}) v) w).
Proof. reflexivity. Qed.

Lemma run_bind {A B C} (m : M A) (f : A -> M B) (g : B -> M C) w :
  bind (bind m f) g w = bind m (fun a => bind (f a) g) w.
Proof. unfold bind. destruct (m w) as [[a|e] w']; reflexivity. Qed.

Lemma run_ret_end {A} (a : A) (w : World) : ret a w = (Normal a, w).
Proof. reflexivity. Qed.

Lemma run_throw_end {A} e (w : World) : throw (A:=A) e w = (Throw e, w).
Proof. reflexivity. Qed.

Lemma try_bind {A B C} (m : M A) (f : A -> M B) (g : B -> M C) h w :
  tryCatch (bind (bind m f) g) h w = tryCatch (bind m (fun a => bind (f a) g)) h w.
Proof. unfold tryCatch. by rewrite run_bind. Qed.

Lemma try_getSvc {A} (k : Service -> M A) h w :
  tryCatch (bind getSvc k) h w = tryCatch (k (svc w)) h w.
Proof. reflexivity. Qed.

Lemma try_getWorld {A} (k : World -> M A) h w :
  tryCatch (bind getWorld k) h w = tryCatch (k w) h w.
Proof. reflexivity. Qed.

Lemma try_ret_bind {A B} (a : A) (k : A -> M B) h w :
  tryCatch (bind (ret a) k) h w = tryCatch (k a) h w.
Proof. reflexivity. Qed.

Lemma try_throw_bind {A B} e (k : A -> M B) h w :
  tryCatch (bind (throw e) k) h w = h e w.
Proof. reflexivity. Qed.

Lemma try_modify {A} f (k : unit -> M A) h w :
  tryCatch (bind (modify f) k) h w = tryCatch (k tt) h (set_svc f w).
Proof. reflexivity. Qed.

Lemma try_emit {A} e (k : unit -> M A) h w :
  tryCatch (bind (emit e) k) h w =
  tryCatch (k tt) h (set_trace (fun t => t ++ [e]) w).
Proof. reflexivity. Qed.

Lemma try_ask {A B} (f : nat -> A) (k : A -> M B) h w :
  tryCatch (bind (ask f) k) h w =
  tryCatch (k (f (calls w))) h (set_calls (S (calls w)) w).
Proof. reflexivity. Qed.

Lemma try_fresh {A} (k : nat -> M A) h w :
  tryCatch (bind fresh k) h w =
  tryCatch (k (nextId w)) h (set_nextId (S (nextId w)) w).
Proof. reflexivity. Qed.

Lemma try_addTimer {A} t (k : unit -> M A) h w :
  tryCatch (bind (addTimer t) k) h w =
  tryCatch (k tt) h (set_timers (fun ts => ts ++ [t]) w).
Proof. reflexivity. Qed.

Lemma try_removeTimer {A} id (k : unit -> M A) h w :
  tryCatch (bind (removeTimer id) k) h w =
  tryCatch (k tt) h (set_timers (dropTimer id) w).
Proof. reflexivity. Qed.

Lemma try_storeAvatar {A} hd o (k : unit -> M A) h w :
  tryCatch (bind (storeAvatar hd o) k) h w =
  tryCatch (k tt) h (set_avatars (insert hd o) w).
Proof. reflexivity. Qed.

Lemma try_setSrcObject {A} v x (k : unit -> M A) h w :
  tryCatch (bind (setSrcObject v x) k) h w =
  tryCatch (k tt) h
    (set_videos (alter (fun el => {| srcObject := x; muted := muted el |}) v) w).
Proof. reflexivity. Qed.

Lemma try_ret {A} (a : A) h (w : World) : tryCatch (ret a) h w = (Normal a, w).
Proof. reflexivity. Qed.

Lemma try_throw {A} e (h : Error -> M A) (w : World) :
  tryCatch (throw e) h w = h e w.
Proof. reflexivity. Qed.

Lemma try_notifyStateChange {A} env event data (k : M A) h w :
  tryCatch (bind (notifyStateChange env event data) (fun _ => k)) h w =
  tryCatch k h (snd (notifyStateChange env event data w)).
Proof.
  unfold tryCatch. by rewrite notifyStateChange_then.
Qed.

Ltac simpl_world :=
  cbn [svc avatars videos timers nextId calls trace
       set_svc set_avatars set_videos set_timers set_nextId set_calls set_trace].

Ltac run :=
  repeat (first
    [ rewrite run_bind | rewrite run_getSvc | rewrite run_getWorld
    | rewrite run_ret | rewrite run_throw | rewrite run_modify
    | rewrite run_emit | rewrite run_ask
    | rewrite run_fresh | rewrite run_addTimer | rewrite run_removeTimer
    | rewrite run_storeAvatar | rewrite run_setSrcObject | rewrite run_setMuted
    | rewrite try_fresh | rewrite try_addTimer | rewrite try_removeTimer
    | rewrite try_storeAvatar | rewrite try_setSrcObject
    | rewrite try_bind | rewrite try_getSvc | rewrite try_getWorld
    | rewrite try_ret_bind | rewrite try_throw_bind | rewrite try_modify
    | rewrite try_emit | rewrite try_ask | rewrite try_ret | rewrite try_throw
    | rewrite notifyStateChange_then | rewrite try_notifyStateChange
    | rewrite run_ret_end | rewrite run_throw_end ];
    cbv beta).

(** C2.  Closing when no session identifier is set ([null], [undefined]
    or the empty string) returns [{ success: true }] at once: the world is
    left exactly as it was, so nothing is added to the trace (no
    [stopAvatar], no unregister request), and the session fields, the timers
    and the video element are unchanged. *)
Theorem closeSession_without_session env w :
  truthyOptStr (sessionId (svc w)) = false ->
  closeSession env w = (Normal {| success := true |}, w).
Proof.
  intros H. unfold closeSession, bind, getSvc. by rewrite H.
Qed.

Lemma closeSession_without_session_witness :
  truthyOptStr (sessionId (svc mountedWorld)) = false
  /\ closeSession quietEnv mountedWorld = (Normal {| success := true |}, mountedWorld).
Proof.
  split; [reflexivity | apply closeSession_without_session; reflexivity].
Defined.

(** C3.  A keep-alive tick always returns normally and leaves the
    service fields, the store and the timers as they were.  It adds
    nothing to the trace when the session is not active, the avatar handle
    is absent or the avatar is speaking; otherwise it adds exactly one
    [speak] of the text [" "] in mode [async], whose failure (rejected
    promise or thrown error) is swallowed. *)
Theorem keepAliveTick_guarded env w :
  fst (keepAliveTick env w) = Normal tt
  /\ svc (snd (keepAliveTick env w)) = svc w
  /\ avatars (snd (keepAliveTick env w)) = avatars w
  /\ videos (snd (keepAliveTick env w)) = videos w
  /\ timers (snd (keepAliveTick env w)) = timers w
  /\ trace (snd (keepAliveTick env w)) =
       trace w ++
       match avatar (svc w) with
       | Some h =>
           if isSessionActive (svc w) && negb (isAvatarSpeaking (svc w))
           then [EvSpeak h (Some [32%N]) (Some "async") (sessionId (svc w))]
           else []
       | None => []
       end.
Proof.
  unfold keepAliveTick, bind, getSvc.
  destruct (avatar (svc w)) as [h|];
    destruct (isSessionActive (svc w)), (isAvatarSpeaking (svc w)); cbn;
    rewrite ?app_nil_r; try done.
  unfold tryCatch, bind, provider_speak, emit, ask, bind. cbn.
  destruct (env_speak env (calls w)); cbn; done.
Qed.

(** What [interruptAvatar] resolves to and what it does to the speaking
    flag, by the four ways through the function. *)
Lemma interruptAvatar_cases env w :
  let r := interruptAvatar env w in
  match avatar (svc w) with
  | Some h =>
      if isSDKInitialized (svc w) && avatarHasInterrupt w h
      then fst r = Normal (isNormal (env_interrupt env (calls w)))
           /\ isAvatarSpeaking (svc (snd r)) = false
           /\ exists t, trace (snd r) = trace w ++ EvInterrupt h :: t
      else r = (Normal false, w)
  | None => r = (Normal false, w)
  end.
Proof.
  cbn zeta. unfold interruptAvatar. run.
  destruct (avatar (svc w)) as [h|] eqn:Hav; [|reflexivity].
  destruct (isSDKInitialized (svc w)); [|reflexivity].
  cbn [isSome negb orb andb]. run.
  destruct (avatarHasInterrupt w h); [|reflexivity].
  unfold provider_interrupt, liftCompletion. run. simpl_world.
  destruct (env_interrupt env (calls w)) as [[]|e]; cbn [isNormal]; run.
  - cbn [fst snd].
    match goal with
    | |- context [notifyStateChange env ?ev ?d ?w'] =>
        pose proof (notifyStateChange_returns env ev d w') as (_ & Hs & _);
        pose proof (notifyStateChange_trace env ev d w') as [t Ht]
    end.
    rewrite Hs, Ht. simpl_world. repeat split.
    exists t. by rewrite <- app_assoc.
  - cbn [fst snd].
    match goal with
    | |- context [notifyStateChange env ?ev ?d ?w'] =>
        pose proof (notifyStateChange_returns env ev d w') as (_ & Hs & _);
        pose proof (notifyStateChange_trace env ev d w') as [t Ht]
    end.
    rewrite Hs, Ht. simpl_world. repeat split.
    exists t. by rewrite <- app_assoc.
Qed.

(** The speaking flag after [interruptAvatar], in any world: cleared
    when the provider's interrupt call was attempted, untouched on the
    guarded paths. *)
Lemma interruptAvatar_flag_cases env w :
  isAvatarSpeaking (svc (snd (interruptAvatar env w))) =
  match avatar (svc w) with
  | Some h =>
      if isSDKInitialized (svc w) && avatarHasInterrupt w h then false
      else isAvatarSpeaking (svc w)
  | None => isAvatarSpeaking (svc w)
  end.
Proof.
  pose proof (interruptAvatar_cases env w) as H. cbn zeta in H.
  destruct (avatar (svc w)) as [h|]; [|by rewrite H].
  destruct (isSDKInitialized (svc w) && avatarHasInterrupt w h).
  - by destruct H as (_ & -> & _).
  - by rewrite H.
Qed.

(** *** Stream attachment *)

(** The candidate sources of a [streamReady] event, in the order the
    specification lists them: the payload's stream field, the payload's
    alternate [mediaStream] field, the event-level stream, the provider's
    live stream handle. *)
Definition candidateSources (w : World) (event : option ReadyEvent)
  : list (option stream) :=
  let payload := match event with Some e => detail e | None => None end in
  [ match payload with Some d => detail_stream d | None => None end;
    match payload with Some d => detail_mediaStream d | None => None end;
    match event with Some e => event_stream e | None => None end;
    match avatar (svc w) with Some h => avatarMediaStream w h | None => None end ].

Definition firstPresent (l : list (option stream)) : option stream :=
  head (omap id l).

(** The one-shot timer [attachAvatarStream] arms when no source is
    present. *)
Definition retryTimer (id : nat) (v : handle) : Timer :=
  {| timerId := id; timerDelay := 2000; timerRepeats := false;
     timerTask := RetryAttach v |}.

Lemma pickStream_first_present w event :
  pickStream w event = firstPresent (candidateSources w event).
Proof.
  unfold pickStream, candidateSources, firstPresent.
  destruct event as [[[[[s1|] [s2|]]|] [s3|]]|]; cbn;
    destruct (avatar (svc w)) as [h|]; cbn; try reflexivity;
    destruct (avatarMediaStream w h); reflexivity.
Qed.

Lemma videoSrcObject_alter w v el f :
  videos w !! v = Some el ->
  videoSrcObject (set_videos (alter f v) w) v = srcObject (f el).
Proof.
  intros H. unfold videoSrcObject. simpl_world.
  by rewrite lookup_alter_eq, H.
Qed.

Lemma attachAvatarStream_run env w v el event :
  videoElement (svc w) = Some v ->
  videos w !! v = Some el ->
  let r := attachAvatarStream env event w in
  fst r = Normal tt /\
  match firstPresent (candidateSources w event) with
  | Some st =>
      videoSrcObject (snd r) v = Some st
      /\ timers (snd r) = timers w
      /\ svc (snd r) = svc w
  | None =>
      videos (snd r) = videos w
      /\ svc (snd r) = svc w
      /\ trace (snd r) = trace w ++ [EvSetTimeout (nextId w) 2000]
      /\ timers (snd r) = timers w ++ [retryTimer (nextId w) v]
  end.
Proof.
  intros Hv Hel. cbn zeta. rewrite <- pickStream_first_present.
  unfold attachAvatarStream. run. rewrite Hv. run.
  destruct (pickStream w event) as [st|].
  - unfold play. run. simpl_world.
    destruct (env_playRejected env (calls w)); run;
      cbn [fst snd]; simpl_world; repeat split;
      unfold videoSrcObject; simpl_world;
      rewrite !lookup_alter_eq, Hel; reflexivity.
  - unfold setTimeout. run. cbn [fst snd]. simpl_world. repeat split.
Qed.

Lemma retryAttach_run env id v w2 el2 :
  find (fun t => Nat.eqb (timerId t) id) (timers w2) = Some (retryTimer id v) ->
  videos w2 !! v = Some el2 ->
  let r2 := fireTimer env id w2 in
  fst r2 = Normal tt
  /\ timers (snd r2) = dropTimer id (timers w2)
  /\ svc (snd r2) = svc w2
  /\ match match avatar (svc w2) with
            | Some h => avatarMediaStream w2 h
            | None => None
            end, srcObject el2 with
     | Some st, None => videoSrcObject (snd r2) v = Some st
     | _, _ => videos (snd r2) = videos w2 /\ trace (snd r2) = trace w2
     end.
Proof.
  intros Hfind Hel. cbn zeta. unfold fireTimer. rewrite Hfind.
  cbn [retryTimer timerRepeats timerTask runTask]. unfold retryAttach. run.
  simpl_world.
  destruct (avatar (svc w2)) as [h|]; [|run; by repeat split].
  change (avatarMediaStream (set_timers (dropTimer id) w2) h)
    with (avatarMediaStream w2 h).
  destruct (avatarMediaStream w2 h) as [st|]; [|run; by repeat split].
  change (videoSrcObject (set_timers (dropTimer id) w2) v)
    with (videoSrcObject w2 v).
  assert (Hsrc : videoSrcObject w2 v = srcObject el2)
    by (unfold videoSrcObject; by rewrite Hel).
  rewrite !Hsrc.
  destruct (srcObject el2) as [cur|]; cbn [isSome negb]; [run; by repeat split|].
  unfold play. run. cbn [fst snd]. simpl_world. repeat split.
  unfold videoSrcObject. simpl_world.
  by rewrite !lookup_alter_eq, Hel.
Qed.

(** C9.  With a video element registered, [attachAvatarStream] returns
    normally and binds to it the first source present among
    [event.detail.stream], [event.detail.mediaStream], [event.stream] and
    [avatar.mediaStream], in this order, arming no timer.  When none is
    present it leaves the element alone and arms exactly one one-shot
    timer of 2000 ms.  When that timer fires it is removed, arms nothing
    else, and its callback reads [avatar.mediaStream] again: if a stream is
    there and the element still has no source the stream is bound to it
    (no call from the caller is involved), otherwise nothing is bound and
    nothing is reported. *)
Theorem attachAvatarStream_fallback_and_retry env w v el event :
  videoElement (svc w) = Some v ->
  videos w !! v = Some el ->
  let r := attachAvatarStream env event w in
  fst r = Normal tt /\
  match firstPresent (candidateSources w event) with
  | Some st =>
      videoSrcObject (snd r) v = Some st /\ timers (snd r) = timers w
  | None =>
      videos (snd r) = videos w
      /\ trace (snd r) = trace w ++ [EvSetTimeout (nextId w) 2000]
      /\ timers (snd r) = timers w ++ [retryTimer (nextId w) v]
      /\ forall id w2 el2,
           find (fun t => Nat.eqb (timerId t) id) (timers w2)
             = Some (retryTimer id v) ->
           videos w2 !! v = Some el2 ->
           let r2 := fireTimer env id w2 in
           fst r2 = Normal tt
           /\ timers (snd r2) = dropTimer id (timers w2)
           /\ match match avatar (svc w2) with
                     | Some h => avatarMediaStream w2 h
                     | None => None
                     end, srcObject el2 with
              | Some st, None => videoSrcObject (snd r2) v = Some st
              | _, _ => videos (snd r2) = videos w2 /\ trace (snd r2) = trace w2
              end
  end.
Proof.
  intros Hv Hel.
  pose proof (attachAvatarStream_run env w v el event Hv Hel) as [Hn H].
  cbn zeta in *. split; [exact Hn|].
  destruct (firstPresent (candidateSources w event)) as [st|].
  - destruct H as (? & ? & ?). by split.
  - destruct H as (? & ? & ? & ?). repeat (split; [assumption|]).
    intros id w2 el2 Hfind Hel2.
    pose proof (retryAttach_run env id v w2 el2 Hfind Hel2) as (? & ? & ? & ?).
    cbn zeta in *. by repeat split.
Qed.

(** The scenario of the specification: [streamReady] arrives on the
    active session with no stream in any field and none on the avatar yet;
    the provider then publishes stream 42 on the avatar; the timer fires. *)
Definition afterEmptyReady : World :=
  snd (onStreamingEvent quietEnv (STREAM_READY None) activeWorld).

Definition streamPublished : World :=
  provider_setMediaStream 2%nat 42%nat afterEmptyReady.

Lemma attachAvatarStream_fallback_and_retry_witness :
  videoElement (svc activeWorld) = Some 1%nat
  /\ videos activeWorld !! 1%nat = Some {| srcObject := None; muted := false |}
  /\ fst (attachAvatarStream quietEnv None activeWorld) = Normal tt.
Proof.
  assert (H1 : videoElement (svc activeWorld) = Some 1%nat)
    by (vm_compute; reflexivity).
  assert (H2 : videos activeWorld !! 1%nat
               = Some {| srcObject := None; muted := false |})
    by (vm_compute; reflexivity).
  split; [exact H1|]. split; [exact H2|].
  exact (proj1 (attachAvatarStream_fallback_and_retry quietEnv activeWorld 1%nat
                  {| srcObject := None; muted := false |} None H1 H2)).
Defined.

(** The scenario run on the code: one timer is armed by the event, and
    after the provider published the stream the firing timer binds it. *)
Example late_stream_reaches_the_sink :
  timers afterEmptyReady = timers activeWorld ++ [retryTimer 4%nat 1%nat]
  /\ videoSrcObject afterEmptyReady 1%nat = None
  /\ videoSrcObject (snd (fireTimer quietEnv 4%nat streamPublished)) 1%nat
     = Some 42%nat
  /\ timers (snd (fireTimer quietEnv 4%nat streamPublished)) = timers activeWorld.
Proof. vm_compute. repeat split. Qed.

(** *** Replacing an active session *)



Lemma run_inner {A B} (m : M A) h1 (k : A -> M B) w :
  bind (tryCatch m h1) k w =
  match tryCatch m h1 w with
  | (Normal a, w') => k a w'
  | (Throw e, w') => (Throw e, w')
  end.
Proof. reflexivity. Qed.


(** A provider or backend call whose failure is swallowed. *)
Lemma swallowed_stopAvatar env old w :
  tryCatch (provider_stopAvatar env old) (fun _ => ret tt) w =
  (Normal tt, set_calls (S (calls w))
                (set_trace (fun t => t ++ [EvStopAvatar old]) w)).
Proof.
  unfold provider_stopAvatar, liftCompletion. run. simpl_world.
  destruct (env_stopAvatar env (calls w)) as [[]|e]; by run.
Qed.







(** *** A small program logic for the service *)

(** [triple P m Qn Qe]: started in a world satisfying [P], [m] ends in a
    world satisfying [Qn] when it returns and [Qe] when it throws. *)
Definition triple {A} (P : World -> Prop) (m : M A)
    (Qn : A -> World -> Prop) (Qe : World -> Prop) : Prop :=
  forall w, P w ->
    match m w with
    | (Normal a, w') => Qn a w'
    | (Throw _, w') => Qe w'
    end.

Lemma triple_ret {A} (a : A) (Qn : A -> World -> Prop) Qe :
  triple (Qn a) (ret a) Qn Qe.
Proof. intros w H. exact H. Qed.


Lemma triple_bind {A B} P (m : M A) (k : A -> M B) R Qn Qe :
  triple P m R Qe ->
  (forall a, triple (R a) (k a) Qn Qe) ->
  triple P (bind m k) Qn Qe.
Proof.
  intros Hm Hk w HP. specialize (Hm w HP). unfold bind.
  destruct (m w) as [[a|e] w']; [exact (Hk a w' Hm) | exact Hm].
Qed.

Lemma triple_tryCatch {A} P (m : M A) (h : Error -> M A) R Qn Qe :
  triple P m Qn R ->
  (forall e, triple R (h e) Qn Qe) ->
  triple P (tryCatch m h) Qn Qe.
Proof.
  intros Hm Hh w HP. specialize (Hm w HP). unfold tryCatch.
  destruct (m w) as [[a|e] w']; [exact Hm | exact (Hh e w' Hm)].
Qed.

Lemma triple_pre {A} (P P' : World -> Prop) (m : M A) Qn Qe :
  (forall w, P w -> P' w) -> triple P' m Qn Qe -> triple P m Qn Qe.
Proof. intros HPP Hm w HP. exact (Hm w (HPP w HP)). Qed.

Lemma triple_post {A} P (m : M A) (Qn Qn' : A -> World -> Prop) (Qe Qe' : World -> Prop) :
  (forall a w, Qn' a w -> Qn a w) -> (forall w, Qe' w -> Qe w) ->
  triple P m Qn' Qe' -> triple P m Qn Qe.
Proof.
  intros Hn He Hm w HP. specialize (Hm w HP).
  destruct (m w) as [[a|e] w']; auto.
Qed.

(** A predicate that looks only at the service fields and at the avatar
    objects is kept by every step that touches neither. *)
Definition Stable (P : World -> Prop) : Prop :=
  forall w w', svc w = svc w' -> avatars w = avatars w' -> P w -> P w'.

(** [keeps I m]: [I] holds when [m] ends, however it ends. *)
Definition keeps {A} (I : World -> Prop) (m : M A) : Prop :=
  triple I m (fun _ => I) I.

Lemma keeps_ret {A} I (a : A) : keeps I (ret a).
Proof. intros w H. exact H. Qed.

Lemma keeps_throw {A} I e : keeps I (throw (A:=A) e).
Proof. intros w H. exact H. Qed.

Lemma keeps_bind {A B} I (m : M A) (k : A -> M B) :
  keeps I m -> (forall a, keeps I (k a)) -> keeps I (bind m k).
Proof. intros. eapply triple_bind; eauto. Qed.

Lemma keeps_tryCatch {A} I (m : M A) h :
  keeps I m -> (forall e, keeps I (h e)) -> keeps I (tryCatch m h).
Proof. intros. eapply triple_tryCatch; eauto. Qed.

Lemma keeps_liftCompletion {A} I (c : Completion A) : keeps I (liftCompletion c).
Proof. destruct c; [apply keeps_ret | apply keeps_throw]. Qed.

Lemma keeps_getSvc I : keeps I getSvc.
Proof. intros w H. exact H. Qed.

Lemma keeps_getWorld I : keeps I getWorld.
Proof. intros w H. exact H. Qed.

Lemma keeps_emit I e : Stable I -> keeps I (emit e).
Proof. intros HS w H. refine (HS w _ _ _ H); reflexivity. Qed.

Lemma keeps_ask {A} I (f : nat -> A) : Stable I -> keeps I (ask f).
Proof. intros HS w H. refine (HS w _ _ _ H); reflexivity. Qed.

Lemma keeps_fresh I : Stable I -> keeps I fresh.
Proof. intros HS w H. refine (HS w _ _ _ H); reflexivity. Qed.

Lemma keeps_addTimer I t : Stable I -> keeps I (addTimer t).
Proof. intros HS w H. refine (HS w _ _ _ H); reflexivity. Qed.

Lemma keeps_removeTimer I id : Stable I -> keeps I (removeTimer id).
Proof. intros HS w H. refine (HS w _ _ _ H); reflexivity. Qed.

Lemma keeps_setSrcObject I v x : Stable I -> keeps I (setSrcObject v x).
Proof. intros HS w H. refine (HS w _ _ _ H); reflexivity. Qed.

Lemma keeps_setMuted I v x : Stable I -> keeps I (setMuted v x).
Proof. intros HS w H. refine (HS w _ _ _ H); reflexivity. Qed.

Lemma keeps_modify I f :
  (forall w, I w -> I (set_svc f w)) -> keeps I (modify f).
Proof. intros Hf w H. exact (Hf w H). Qed.

Create HintDb keeps discriminated.
#[local] Hint Resolve keeps_ret keeps_throw keeps_liftCompletion keeps_getSvc
  keeps_getWorld keeps_emit keeps_ask keeps_fresh keeps_addTimer
  keeps_removeTimer keeps_setSrcObject keeps_setMuted : keeps.

(** Break a computation down to its primitive steps. *)
Ltac keeps_step :=
  match goal with
  | |- keeps _ (bind _ _) => apply keeps_bind; [|intros ?]
  | |- keeps _ (tryCatch _ _) => apply keeps_tryCatch; [|intros ?]
  | |- keeps _ (match ?x with _ => _ end) => destruct x
  | |- keeps _ (if ?b then _ else _) => destruct b
  | |- keeps _ (modify _) => apply keeps_modify
  | |- keeps _ _ => solve [auto with keeps]
  end.

(** *** The invariant of the service *)

(** The SDK is initialised and an avatar handle is held. *)
Definition Ready (w : World) : Prop :=
  isSDKInitialized (svc w) = true /\ isSome (avatar (svc w)) = true.

(** A session is marked active, the avatar is marked speaking, or an
    avatar object exists, only when the SDK is initialised and a handle is
    held. *)
Definition Inv (w : World) : Prop :=
  (isSessionActive (svc w) = true -> Ready w)
  /\ (isAvatarSpeaking (svc w) = true -> Ready w)
  /\ (forall h, is_Some (avatars w !! h) -> Ready w).

Lemma Ready_stable : Stable Ready.
Proof. intros w w' Hs _. unfold Ready. by rewrite Hs. Qed.

Lemma Inv_stable : Stable Inv.
Proof. intros w w' Hs Ha. unfold Inv, Ready. by rewrite Hs, Ha. Qed.

#[local] Hint Resolve Ready_stable Inv_stable : keeps.

Lemma keeps_notifyListeners env I ls event data :
  Stable I -> keeps I (notifyListeners env ls event data).
Proof.
  intros HS. induction ls as [|l rest IH]; cbn [notifyListeners].
  - auto with keeps.
  - repeat keeps_step; exact IH.
Qed.

Lemma keeps_notifyStateChange env I event data :
  Stable I -> keeps I (notifyStateChange env event data).
Proof.
  intros HS. unfold notifyStateChange. keeps_step; [auto with keeps|].
  by apply keeps_notifyListeners.
Qed.

#[local] Hint Resolve keeps_notifyStateChange : keeps.

Lemma keeps_closeSession env : keeps Inv (closeSession env).
Proof.
  unfold closeSession, stopKeepAlive, clearInterval, provider_stopAvatar,
    fetch_unregister.
  repeat keeps_step; unfold Inv, Ready; cbn; intros w (H1 & H2 & H3);
    repeat split; try discriminate; try tauto; intros; eapply H3; eauto.
Qed.

Lemma Ready_Inv w : Ready w -> Inv w.
Proof. intros H. unfold Inv. tauto. Qed.

(** [initializeSDK] makes the service ready, whatever it started from
    and whatever the provider answers. *)
Lemma initializeSDK_ready env token :
  triple (fun _ => True) (initializeSDK env token) (fun _ => Ready) (fun _ => False).
Proof.
  intros w _. unfold initializeSDK. run.
  destruct (avatar (svc w)) as [old|].
  - rewrite run_inner, swallowed_stopAvatar. cbv iota beta.
    unfold newStreamingAvatar. run. by cbn.
  - unfold newStreamingAvatar. run. by cbn.
Qed.

Ltac keeps_ready :=
  repeat keeps_step;
  try (unfold Ready; cbn; intros ? (? & ?); by split).

Lemma keeps_startKeepAlive : keeps Ready startKeepAlive.
Proof. unfold startKeepAlive, clearInterval, setInterval. keeps_ready. Qed.

Lemma keeps_createSessionTry env a v : keeps Inv (createSessionTry env a v).
Proof.
  unfold createSessionTry.
  apply keeps_tryCatch; [|intros e; apply keeps_throw].
  apply keeps_bind; [auto with keeps|intros _].
  apply keeps_bind; [auto with keeps|intros tokenData].
  destruct tokenData as [e|status token]; [apply keeps_throw|].
  destruct (negb (String.eqb status "success")); [apply keeps_throw|].
  eapply triple_bind.
  - apply (triple_pre Inv (fun _ => True)); [intros; exact Logic.I|].
    apply (triple_post _ _ (fun _ => Ready) (fun _ => Ready) Inv (fun _ => False));
      [intros; assumption | intros ? [] | apply initializeSDK_ready].
  - intros u. cbv beta. eapply triple_post; [| |].
    + intros sd w H. exact (Ready_Inv w H).
    + intros w H. exact (Ready_Inv w H).
    + match goal with |- triple ?J ?m _ _ => change (keeps J m) end.
      unfold provider_createStartAvatar, fetch_register.
      pose proof keeps_startKeepAlive.
      keeps_ready.
Qed.

(** An update of the service fields keeps the invariant when it leaves
    the SDK flag and the avatar handle alone and raises neither the active
    flag nor the speaking flag. *)
Lemma Inv_set_svc f w :
  (forall s, isSDKInitialized (f s) = isSDKInitialized s) ->
  (forall s, avatar (f s) = avatar s) ->
  (forall s, isSessionActive (f s) = true -> isSessionActive s = true) ->
  (forall s, isAvatarSpeaking (f s) = true -> isAvatarSpeaking s = true) ->
  Inv w -> Inv (set_svc f w).
Proof.
  intros Hi Ha Hact Hsp (H1 & H2 & H3). unfold Inv, Ready in *. cbn.
  rewrite Hi, Ha. repeat split; intros; try (apply H1; by apply Hact);
    try (apply H2; by apply Hsp); try (by eapply H3).
Qed.

Ltac keeps_inv :=
  repeat keeps_step;
  try (intros ? ?; apply Inv_set_svc;
       [ intros ?; reflexivity | intros ?; reflexivity
       | cbn; intros ? ?; first [assumption | discriminate]
       | cbn; intros ? ?; first [assumption | discriminate]
       | assumption ]).

Lemma keeps_createSessionWithBackend env a v :
  keeps Inv (createSessionWithBackend env a v).
Proof.
  unfold createSessionWithBackend, sleep.
  pose proof (keeps_closeSession env). pose proof (keeps_createSessionTry env a v).
  keeps_inv.
Qed.

Lemma keeps_sendPrompt env prompt : keeps Inv (sendPrompt env prompt).
Proof. unfold sendPrompt, provider_speak. keeps_inv. Qed.

Lemma keeps_interruptAvatar env : keeps Inv (interruptAvatar env).
Proof. unfold interruptAvatar, provider_interrupt. keeps_inv. Qed.

Lemma keeps_keepAliveTick env : keeps Inv (keepAliveTick env).
Proof. unfold keepAliveTick, provider_speak. keeps_inv. Qed.

Lemma keeps_attachAvatarStream env event : keeps Inv (attachAvatarStream env event).
Proof. unfold attachAvatarStream, play, setTimeout. keeps_inv. Qed.

Lemma keeps_retryAttach env v : keeps Inv (retryAttach env v).
Proof. unfold retryAttach, play. keeps_inv. Qed.

Lemma keeps_handleSessionDisconnect env : keeps Inv (handleSessionDisconnect env).
Proof. unfold handleSessionDisconnect. keeps_inv. Qed.

Lemma keeps_fireTimer env id : keeps Inv (fireTimer env id).
Proof.
  intros w H. unfold fireTimer.
  destruct (find _ (timers w)) as [t|]; [|exact H].
  assert (H' : Inv (if timerRepeats t then w else set_timers (dropTimer id) w))
    by (destruct (timerRepeats t); [exact H | exact (Inv_stable w _ eq_refl eq_refl H)]).
  destruct (timerTask t) as [|v]; cbn [runTask].
  - exact (keeps_keepAliveTick env _ H').
  - exact (keeps_retryAttach env v _ H').
Qed.

(** An SDK event is raised by an avatar object, so one exists. *)
Lemma keeps_onStreamingEvent env ev :
  triple (fun w => Inv w /\ exists h, is_Some (avatars w !! h))
         (onStreamingEvent env ev) (fun _ => Inv) Inv.
Proof.
  destruct ev as [| |event|]; cbn [onStreamingEvent].
  - apply (triple_pre _ Ready).
    { intros w ((_ & _ & H) & h & Hh). exact (H h Hh). }
    apply (triple_post _ _ (fun _ => Inv) (fun _ => Ready) Inv Ready);
      [intros; by apply Ready_Inv | intros; by apply Ready_Inv|].
    match goal with |- triple ?J ?m _ _ => change (keeps J m) end.
    keeps_ready.
  - apply (triple_pre _ Inv); [by intros w [H _]|].
    match goal with |- triple ?J ?m _ _ => change (keeps J m) end. keeps_inv.
  - apply (triple_pre _ Inv); [by intros w [H _]|].
    apply keeps_attachAvatarStream.
  - apply (triple_pre _ Inv); [by intros w [H _]|].
    apply keeps_handleSessionDisconnect.
Qed.

Lemma keeps_snd {A} (J : World -> Prop) (m : M A) w :
  keeps J m -> J w -> J (snd (m w)).
Proof.
  intros Hm HJ. specialize (Hm w HJ). by destruct (m w) as [[a|e] w'].
Qed.

Lemma perform_Inv env s w : Inv w -> Inv (perform env s w).
Proof.
  intros H. destruct s as [a v| |p| |l|l| |h ev|id|h st]; cbn [perform].
  - by apply keeps_snd; [apply keeps_createSessionWithBackend|].
  - by apply keeps_snd; [apply keeps_closeSession|].
  - by apply keeps_snd; [apply keeps_sendPrompt|].
  - by apply keeps_snd; [apply keeps_interruptAvatar|].
  - apply keeps_snd; [|exact H]. unfold onStateChange. apply keeps_modify.
    intros w' Hw'. apply Inv_set_svc; try assumption;
      intros s0; destruct (existsb _ _); cbn; by intros.
  - apply keeps_snd; [|exact H]. unfold unsubscribe. keeps_inv.
  - unfold mountVideo.
    apply (Inv_stable (set_svc (set_videoElement (Some (nextId w))) w));
      [reflexivity | reflexivity |].
    apply Inv_set_svc; try assumption; by intros.
  - destruct (avatars w !! h) as [o|] eqn:Hh; [|exact H].
    pose proof (keeps_onStreamingEvent env ev w
                  (conj H (ex_intro _ h (mk_is_Some _ _ Hh)))) as Hk.
    by destruct (onStreamingEvent env ev w) as [[a|e] w'].
  - by apply keeps_snd; [apply keeps_fireTimer|].
  - destruct H as (H1 & H2 & H3). unfold provider_setMediaStream.
    split; [exact H1|split; [exact H2|]].
    intros h' Hs. apply (H3 h'). cbn in Hs.
    rewrite lookup_alter in Hs.
    case_decide as Heq; [subst h'; by apply fmap_is_Some in Hs | exact Hs].
Qed.

(** In every reachable world, a session marked active, or an avatar
    marked speaking, comes with an avatar handle and an initialised SDK. *)
Lemma reachable_Inv env w : Reachable env w -> Inv w.
Proof.
  intros [steps ->]. unfold performAll.
  assert (H0 : Inv initialWorld).
  { split; [discriminate|split; [discriminate|]].
    intros h Hh. cbn in Hh. rewrite lookup_empty in Hh. by destruct Hh. }
  revert H0. generalize initialWorld.
  induction steps as [|s rest IH]; intros w H; cbn [fold_left]; [exact H|].
  apply IH. by apply perform_Inv.
Qed.


(** The run that replaces the active session of [activeWorld]. *)
Definition replacementRun : World :=
  snd (createSessionWithBackend quietEnv "Anthony_Chair_Sitting_public"
         "0009aabefe3a4553bc581d837b6268cb" activeWorld).


(** The events of that run, as the code produces them. *)
Example replacementRun_trace :
  trace replacementRun =
    trace activeWorld ++
    [EvClearInterval 3; EvStopAvatar 2;
     EvFetchUnregister (Some "session-1"); EvSleep 1000;
     EvFetchToken; EvStopAvatar 2; EvNewStreamingAvatar 4 "token-1";
     EvCreateStartAvatar 4 "Anthony_Chair_Sitting_public"
       "0009aabefe3a4553bc581d837b6268cb";
     EvFetchRegister (Some "session-1") "Anthony_Chair_Sitting_public"
       "0009aabefe3a4553bc581d837b6268cb";
     EvSetInterval 5 30000].
Proof. vm_compute. reflexivity. Qed.






(** *** The speaking flag after an interrupt *)

(** C4, as the code has it.  In every reachable world, after
    [interruptAvatar] resolves the speaking flag is [false], whether the
    provider's interrupt call returns or throws and also when the SDK is
    uninitialised or the avatar handle is absent (the flag is then already
    [false]); the one exception is an avatar handle without an [interrupt]
    function, where the function returns [false] and leaves the flag as it
    was. *)
Theorem interruptAvatar_speaking_flag env w :
  Reachable env w ->
  isAvatarSpeaking (svc (snd (interruptAvatar env w))) =
  match avatar (svc w) with
  | Some h =>
      if isSDKInitialized (svc w) && negb (avatarHasInterrupt w h)
      then isAvatarSpeaking (svc w)
      else false
  | None => false
  end.
Proof.
  intros Hreach. rewrite interruptAvatar_flag_cases.
  destruct (reachable_Inv env w Hreach) as (_ & Hsp & _).
  unfold Ready in Hsp.
  destruct (avatar (svc w)) as [h|]; cbn [isSome] in Hsp.
  - destruct (isSDKInitialized (svc w)); cbn [andb].
    + by destruct (avatarHasInterrupt w h).
    + destruct (isAvatarSpeaking (svc w)); [|reflexivity].
      by destruct (Hsp eq_refl).
  - destruct (isAvatarSpeaking (svc w)); [|reflexivity].
    by destruct (Hsp eq_refl).
Qed.

(** A session created with an SDK build without [interrupt], whose
    avatar has started talking. *)
Definition talkingWorld : World :=
  performAll noInterruptEnv
    [MountVideo; CallOnStateChange 7;
     CallCreateSession "josh_lite3_20230714" "da04d9a268ac468887a68359908e55b7";
     SdkEvent 2 AVATAR_START_TALKING]
    initialWorld.

Lemma interruptAvatar_speaking_flag_witness :
  Reachable quietEnv activeWorld
  /\ isAvatarSpeaking (svc (snd (interruptAvatar quietEnv activeWorld))) = false.
Proof.
  assert (H0 : Reachable quietEnv activeWorld) by (eexists; reflexivity).
  split; [exact H0|].
  rewrite (interruptAvatar_speaking_flag quietEnv activeWorld H0).
  vm_compute. reflexivity.
Defined.

(** C4, as stated, fails: with an avatar object that has no [interrupt]
    function, [interruptAvatar] resolves (to [false]) while the speaking
    flag is still [true]. *)
Lemma interruptAvatar_flag_counterexample :
  isAvatarSpeaking (svc talkingWorld) = true
  /\ fst (interruptAvatar noInterruptEnv talkingWorld) = Normal false
  /\ isAvatarSpeaking (svc (snd (interruptAvatar noInterruptEnv talkingWorld))) = true.
Proof. vm_compute. repeat split. Qed.

(** *** What a computation may emit *)

Section EmitsOnly.

Context {S : Type} (tr : S -> list Event) (Phi : Event -> Prop).

(** [emitsOnly tr Phi m]: whatever [m] adds to the trace satisfies [Phi]. *)
Definition emitsOnly {A} (m : Js S A) : Prop :=
  forall w, exists t, tr (snd (m w)) = tr w ++ t /\ Forall Phi t.

Lemma emitsOnly_silent {A} (m : Js S A) :
  (forall w, tr (snd (m w)) = tr w) -> emitsOnly m.
Proof. intros H w. exists []. rewrite app_nil_r. split; [apply H|constructor]. Qed.

Lemma emitsOnly_ret {A} (a : A) : emitsOnly (ret a).
Proof. by apply emitsOnly_silent. Qed.

Lemma emitsOnly_throw {A} e : emitsOnly (throw (A:=A) e).
Proof. by apply emitsOnly_silent. Qed.

Lemma emitsOnly_bind {A B} (m : Js S A) (k : A -> Js S B) :
  emitsOnly m -> (forall a, emitsOnly (k a)) -> emitsOnly (bind m k).
Proof.
  intros Hm Hk w. destruct (Hm w) as (t1 & E1 & F1). unfold bind.
  destruct (m w) as [[a|e] w1]; cbn [snd] in *.
  - destruct (Hk a w1) as (t2 & E2 & F2). exists (t1 ++ t2).
    rewrite E2, E1, app_assoc. split; [reflexivity|]. by apply Forall_app.
  - by exists t1.
Qed.

Lemma emitsOnly_tryCatch {A} (m : Js S A) (h : Error -> Js S A) :
  emitsOnly m -> (forall e, emitsOnly (h e)) -> emitsOnly (tryCatch m h).
Proof.
  intros Hm Hh w. destruct (Hm w) as (t1 & E1 & F1). unfold tryCatch.
  destruct (m w) as [[a|e] w1]; cbn [snd] in *.
  - by exists t1.
  - destruct (Hh e w1) as (t2 & E2 & F2). exists (t1 ++ t2).
    rewrite E2, E1, app_assoc. split; [reflexivity|]. by apply Forall_app.
Qed.

Lemma emitsOnly_tryFinally {A} (m : Js S A) (f : S -> S) :
  emitsOnly m -> (forall w, tr (f w) = tr w) -> emitsOnly (tryFinally m f).
Proof.
  intros Hm Hf w. destruct (Hm w) as (t1 & E1 & F1). unfold tryFinally.
  destruct (m w) as [c w1]; cbn [snd] in *. exists t1. by rewrite Hf.
Qed.

Lemma emitsOnly_ext {A} (m m' : Js S A) :
  (forall w, m w = m' w) -> emitsOnly m' -> emitsOnly m.
Proof. intros E H w. rewrite E. apply H. Qed.

Lemma emitsOnly_liftCompletion {A} (c : Completion A) :
  emitsOnly (liftCompletion c).
Proof. destruct c; [apply emitsOnly_ret | apply emitsOnly_throw]. Qed.

End EmitsOnly.

Lemma emitsOnly_emit Phi e : Phi e -> emitsOnly trace Phi (emit e).
Proof. intros H w. exists [e]. split; [reflexivity|]. by repeat constructor. Qed.

Ltac emits_step :=
  match goal with
  | |- emitsOnly _ _ (bind _ _) => apply emitsOnly_bind; [|intros ?]
  | |- emitsOnly _ _ (tryCatch _ _) => apply emitsOnly_tryCatch; [|intros ?]
  | |- emitsOnly _ _ (tryFinally _ _) => apply emitsOnly_tryFinally; [|intros ?; reflexivity]
  | |- emitsOnly _ _ (ret _) => apply emitsOnly_ret
  | |- emitsOnly _ _ (throw _) => apply emitsOnly_throw
  | |- emitsOnly _ _ (liftCompletion _) => apply emitsOnly_liftCompletion
  | |- emitsOnly _ _ (emit _) => apply emitsOnly_emit
  | |- emitsOnly _ _ (match ?x with _ => _ end) => destruct x
  | |- emitsOnly _ _ (if ?b then _ else _) => destruct b
  | |- emitsOnly _ _ _ => solve [apply emitsOnly_silent; intros ?; reflexivity]
  | |- emitsOnly _ _ ?m => assumption
  end.

(** The events that ask the provider for a session ask for avatar [a]
    with voice [v]. *)
Definition asksOnlyFor (a v : string) (e : Event) : Prop :=
  match e with
  | EvCreateStartAvatar _ a' v' => a' = a /\ v' = v
  | _ => True
  end.

Lemma emitsOnly_notifyListeners env a v ls event data :
  emitsOnly trace (asksOnlyFor a v) (notifyListeners env ls event data).
Proof.
  induction ls as [|l rest IH]; cbn [notifyListeners]; repeat emits_step;
    first [exact I | exact IH].
Qed.

Lemma emitsOnly_closeSession env a v :
  emitsOnly trace (asksOnlyFor a v) (closeSession env).
Proof.
  unfold closeSession, stopKeepAlive, clearInterval, provider_stopAvatar,
    fetch_unregister.
  repeat emits_step; exact I.
Qed.

Lemma emitsOnly_createSessionWithBackend env a v :
  emitsOnly trace (asksOnlyFor a v) (createSessionWithBackend env a v).
Proof.
  pose proof (emitsOnly_closeSession env a v).
  unfold createSessionWithBackend, createSessionTry, initializeSDK,
    newStreamingAvatar, provider_stopAvatar, provider_createStartAvatar,
    fetch_register, startKeepAlive, setInterval, clearInterval, sleep.
  repeat emits_step; first [exact I | by split].
Qed.

(** Whether [closeSession] calls [stopAvatar]. *)
Definition stopIssued (s : Service) : bool :=
  isSome (avatar s) && isSDKInitialized s.

(** The error of the first call awaited by [closeSession] that fails,
    if any. *)
Definition closeFailure (env : Env) (w : World) : option Error :=
  if stopIssued (svc w)
  then match env_stopAvatar env (calls w) with
       | Throw e => Some e
       | Normal _ =>
           match env_unregister env (S (calls w)) with
           | Throw e => Some e
           | Normal _ => None
           end
       end
  else match env_unregister env (calls w) with
       | Throw e => Some e
       | Normal _ => None
       end.

(** The timers without the keep-alive interval the service holds. *)
Definition withoutKeepAlive (w : World) : list Timer :=
  match keepAliveInterval (svc w) with
  | Some id => dropTimer id (timers w)
  | None => timers w
  end.

(** The fields after a close that went through. *)
Definition closedService (s : Service) : Service :=
  {| sessionId := None; avatar := avatar s;
     isSDKInitialized := isSDKInitialized s; videoElement := videoElement s;
     isAvatarSpeaking := false; isSessionActive := false;
     keepAliveInterval := None;
     onStateChangeListeners := onStateChangeListeners s;
     currentAvatarId := None; currentVoiceId := None |}.

Definition clearedSink (w : World) : gmap nat VideoEl :=
  match videoElement (svc w) with
  | Some v => alter (fun el => {| srcObject := None; muted := muted el |}) v (videos w)
  | None => videos w
  end.

(** What [closeSession] does once the keep-alive is stopped and
    [stopAvatar] has returned: the backend is told, then the fields are
    cleared. *)
Definition closeTail (env : Env) : M CloseResult :=
  let! s := getSvc in
  fetch_unregister env (sessionId s) >>
  modify (set_sessionId None) >>
  modify (set_isSessionActive false) >>
  modify (set_isAvatarSpeaking false) >>
  modify (set_currentAvatarId None) >>
  modify (set_currentVoiceId None) >>
  let! s := getSvc in
  match videoElement s with
  | Some v => setSrcObject v None
  | None => ret tt
  end >>
  ret {| success := true |}.

Lemma closeTail_run env w1 :
  keepAliveInterval (svc w1) = None ->
  let r := tryCatch (closeTail env) (fun error => throw error) w1 in
  timers (snd r) = timers w1
  /\ avatars (snd r) = avatars w1
  /\ nextId (snd r) = nextId w1
  /\ match env_unregister env (calls w1) with
     | Normal _ =>
         fst r = Normal {| success := true |}
         /\ svc (snd r) = closedService (svc w1)
         /\ videos (snd r) = clearedSink w1
     | Throw e =>
         fst r = Throw e /\ svc (snd r) = svc w1 /\ videos (snd r) = videos w1
     end.
Proof.
  intros Hka. cbn zeta.
  destruct (tryCatch (closeTail env) (fun error => throw error) w1) as [c w'] eqn:Hr.
  cbn [fst snd]. revert Hr.
  unfold closeTail, fetch_unregister, liftCompletion, clearedSink. run. simpl_world.
  destruct (env_unregister env (calls w1)) as [[]|e]; run.
  - cbn [videoElement svc set_svc set_currentVoiceId set_currentAvatarId
         set_isAvatarSpeaking set_isSessionActive set_sessionId set_calls set_trace].
    destruct (videoElement (svc w1)); run; intros [= <- <-]; cbn;
      unfold closedService, set_currentVoiceId, set_currentAvatarId,
        set_isAvatarSpeaking, set_isSessionActive, set_sessionId;
      cbn; rewrite Hka; repeat split.
  - intros [= <- <-]. cbn. repeat split.
Qed.

Lemma closeSession_unfold env w :
  truthyOptStr (sessionId (svc w)) = true ->
  closeSession env w =
  tryCatch
    (stopKeepAlive >>
     (let! s := getSvc in
      match avatar s with
      | Some h => if isSDKInitialized s then provider_stopAvatar env h else ret tt
      | None => ret tt
      end) >>
     closeTail env)
    (fun error => throw error) w.
Proof.
  intros Hsid. unfold closeSession. rewrite run_getSvc, Hsid. cbn [negb].
  unfold tryCatch, closeTail, bind, getSvc.
  destruct (stopKeepAlive w) as [[[]|e] w1]; [|reflexivity].
  destruct (avatar (svc w1)) as [h|]; [destruct (isSDKInitialized (svc w1))|];
    reflexivity.
Qed.

(** The world in which [closeSession] reaches its calls: the keep-alive
    interval is gone. *)
Definition keepAliveStopped (w : World) : World :=
  match keepAliveInterval (svc w) with
  | Some id =>
      set_svc (set_keepAliveInterval None)
        (set_timers (dropTimer id) (set_trace (fun t => t ++ [EvClearInterval id]) w))
  | None => w
  end.

Lemma stopKeepAlive_run {A} (k : unit -> M A) h w :
  tryCatch (bind stopKeepAlive k) h w = tryCatch (k tt) h (keepAliveStopped w).
Proof.
  unfold stopKeepAlive, keepAliveStopped. rewrite try_bind, try_getSvc.
  destruct (keepAliveInterval (svc w)) as [id|]; [|reflexivity].
  unfold clearInterval. by run.
Qed.

Lemma keepAliveStopped_fields w :
  keepAliveInterval (svc (keepAliveStopped w)) = None
  /\ timers (keepAliveStopped w) = withoutKeepAlive w
  /\ avatars (keepAliveStopped w) = avatars w
  /\ videos (keepAliveStopped w) = videos w
  /\ nextId (keepAliveStopped w) = nextId w
  /\ calls (keepAliveStopped w) = calls w
  /\ closedService (svc (keepAliveStopped w)) = closedService (svc w)
  /\ sessionId (svc (keepAliveStopped w)) = sessionId (svc w)
  /\ isSessionActive (svc (keepAliveStopped w)) = isSessionActive (svc w)
  /\ isAvatarSpeaking (svc (keepAliveStopped w)) = isAvatarSpeaking (svc w)
  /\ currentAvatarId (svc (keepAliveStopped w)) = currentAvatarId (svc w)
  /\ currentVoiceId (svc (keepAliveStopped w)) = currentVoiceId (svc w)
  /\ avatar (svc (keepAliveStopped w)) = avatar (svc w)
  /\ isSDKInitialized (svc (keepAliveStopped w)) = isSDKInitialized (svc w)
  /\ videoElement (svc (keepAliveStopped w)) = videoElement (svc w)
  /\ onStateChangeListeners (svc (keepAliveStopped w)) = onStateChangeListeners (svc w).
Proof.
  unfold keepAliveStopped, withoutKeepAlive.
  destruct (keepAliveInterval (svc w)) as [id|] eqn:Hka; cbn; rewrite ?Hka; repeat split.
Qed.

Lemma closeSession_outcome env w :
  truthyOptStr (sessionId (svc w)) = true ->
  let r := closeSession env w in
  timers (snd r) = withoutKeepAlive w
  /\ avatars (snd r) = avatars w
  /\ nextId (snd r) = nextId w
  /\ keepAliveInterval (svc (snd r)) = None
  /\ avatar (svc (snd r)) = avatar (svc w)
  /\ isSDKInitialized (svc (snd r)) = isSDKInitialized (svc w)
  /\ onStateChangeListeners (svc (snd r)) = onStateChangeListeners (svc w)
  /\ match closeFailure env w with
     | None =>
         fst r = Normal {| success := true |}
         /\ svc (snd r) = closedService (svc w)
         /\ videos (snd r) = clearedSink w
     | Some e =>
         fst r = Throw e
         /\ sessionId (svc (snd r)) = sessionId (svc w)
         /\ isSessionActive (svc (snd r)) = isSessionActive (svc w)
         /\ isAvatarSpeaking (svc (snd r)) = isAvatarSpeaking (svc w)
         /\ currentAvatarId (svc (snd r)) = currentAvatarId (svc w)
         /\ currentVoiceId (svc (snd r)) = currentVoiceId (svc w)
         /\ videos (snd r) = videos w
     end.
Proof.
  intros Hsid. cbn zeta. rewrite (closeSession_unfold env w Hsid).
  rewrite stopKeepAlive_run. cbv beta.
  pose proof (keepAliveStopped_fields w) as
    (Hka & Htm & Hav & Hvd & Hid & Hcl & Hcs & Hsi & Hac & Hsp & Hca & Hcv & Ha & Hsdk
     & Hve & Hls).
  set (w0 := keepAliveStopped w) in *.
  unfold closeFailure, stopIssued.
  assert (Htail : forall (w1 : World) (n : nat),
            svc w1 = svc w0 -> timers w1 = timers w0 -> avatars w1 = avatars w0 ->
            videos w1 = videos w0 -> nextId w1 = nextId w0 -> calls w1 = n ->
            let r := tryCatch (closeTail env) (fun error => throw error) w1 in
            timers (snd r) = withoutKeepAlive w
            /\ avatars (snd r) = avatars w
            /\ nextId (snd r) = nextId w
            /\ keepAliveInterval (svc (snd r)) = None
            /\ avatar (svc (snd r)) = avatar (svc w)
            /\ isSDKInitialized (svc (snd r)) = isSDKInitialized (svc w)
            /\ onStateChangeListeners (svc (snd r)) = onStateChangeListeners (svc w)
            /\ match env_unregister env n with
               | Normal _ =>
                   fst r = Normal {| success := true |}
                   /\ svc (snd r) = closedService (svc w)
                   /\ videos (snd r) = clearedSink w
               | Throw e =>
                   fst r = Throw e
                   /\ sessionId (svc (snd r)) = sessionId (svc w)
                   /\ isSessionActive (svc (snd r)) = isSessionActive (svc w)
                   /\ isAvatarSpeaking (svc (snd r)) = isAvatarSpeaking (svc w)
                   /\ currentAvatarId (svc (snd r)) = currentAvatarId (svc w)
                   /\ currentVoiceId (svc (snd r)) = currentVoiceId (svc w)
                   /\ videos (snd r) = videos w
               end).
  { intros w1 n E1 E2 E3 E4 E5 <-. cbn zeta.
    assert (Hka1 : keepAliveInterval (svc w1) = None) by (by rewrite E1).
    pose proof (closeTail_run env w1 Hka1) as (T1 & T2 & T3 & T4). cbn zeta in T4.
    rewrite T1, T2, T3, E2, E3, E5, Htm, Hav, Hid.
    do 3 (split; [reflexivity|]).
    destruct (env_unregister env (calls w1)) as [[]|e].
    - destruct T4 as (-> & -> & ->). rewrite E1, Hcs.
      do 4 (split; [reflexivity|]). do 2 (split; [reflexivity|]).
      unfold clearedSink. by rewrite E1, E4, Hve, Hvd.
    - destruct T4 as (-> & -> & ->).
      rewrite E1, E4, Hka, Hls, Hsi, Hac, Hsp, Hca, Hcv, Hvd, Ha, Hsdk.
      repeat split. }
  rewrite try_bind, try_getSvc, Ha, Hsdk.
  destruct (avatar (svc w)) as [h|];
    [destruct (isSDKInitialized (svc w))|]; cbn [isSome andb].
  - unfold provider_stopAvatar, liftCompletion. run. simpl_world. rewrite Hcl.
    destruct (env_stopAvatar env (calls w)) as [[]|e]; run.
    + match goal with |- context [tryCatch _ _ ?w1] =>
        pose proof (Htail w1 (S (calls w)) eq_refl eq_refl eq_refl eq_refl eq_refl
                      eq_refl) as Ht end.
      cbn zeta in Ht. by destruct (env_unregister env (S (calls w))).
    + cbn [fst snd]. simpl_world.
      rewrite Htm, Hav, Hid, Hka, Hls, Hsi, Hac, Hsp, Hca, Hcv, Hvd, Ha, Hsdk.
      repeat split.
  - rewrite try_ret_bind.
    pose proof (Htail w0 (calls w) eq_refl eq_refl eq_refl eq_refl eq_refl Hcl) as Ht.
    cbn zeta in Ht. by destruct (env_unregister env (calls w)).
  - rewrite try_ret_bind.
    pose proof (Htail w0 (calls w) eq_refl eq_refl eq_refl eq_refl eq_refl Hcl) as Ht.
    cbn zeta in Ht. by destruct (env_unregister env (calls w)).
Qed.

(** *** The timers of the service *)

Lemma elem_of_dropTimer id ts t :
  t ∈ dropTimer id ts <-> t ∈ ts /\ timerId t <> id.
Proof.
  unfold dropTimer. rewrite list_elem_of_filter.
  rewrite Is_true_true, negb_true_iff, Nat.eqb_neq. tauto.
Qed.

Lemma NoDup_dropTimer id ts :
  NoDup (timerId <$> ts) -> NoDup (timerId <$> dropTimer id ts).
Proof.
  induction ts as [|x r IH]; [intros; constructor|].
  cbn [fmap list_fmap]. rewrite NoDup_cons. intros [Hx Hr].
  unfold dropTimer. rewrite filter_cons. fold (dropTimer id r).
  destruct (decide _); [|auto].
  cbn [fmap list_fmap]. apply NoDup_cons. split; [|auto].
  intros Hin. apply Hx. apply list_elem_of_fmap in Hin as (t & Ht & Hin).
  apply elem_of_dropTimer in Hin as [Hin _]. apply list_elem_of_fmap. eauto.
Qed.

(** Timer ids are handed out once; the only keep-alive interval pending,
    if any, is the one the service holds. *)
Definition TimerInv (w : World) : Prop :=
  (forall t, t ∈ timers w -> (timerId t < nextId w)%nat)
  /\ NoDup (timerId <$> timers w)
  /\ (forall t, t ∈ timers w -> timerTask t = KeepAliveTick ->
        keepAliveInterval (svc w) = Some (timerId t)).

Lemma TimerInv_ext w w' :
  timers w' = timers w ->
  (nextId w <= nextId w')%nat ->
  keepAliveInterval (svc w') = keepAliveInterval (svc w) ->
  TimerInv w -> TimerInv w'.
Proof.
  intros Ht Hn Hk (H1 & H2 & H3). unfold TimerInv. rewrite Ht, Hk.
  repeat split; [|assumption|assumption].
  intros t Hin. specialize (H1 t Hin). lia.
Qed.

Lemma TimerInv_drop id w w' :
  timers w' = dropTimer id (timers w) ->
  (nextId w <= nextId w')%nat ->
  (keepAliveInterval (svc w') = keepAliveInterval (svc w)
   \/ keepAliveInterval (svc w) = Some id) ->
  TimerInv w -> TimerInv w'.
Proof.
  intros Ht Hn Hk (H1 & H2 & H3). unfold TimerInv. rewrite Ht.
  repeat split.
  - intros t Hin. apply elem_of_dropTimer in Hin as [Hin _]. specialize (H1 t Hin). lia.
  - by apply NoDup_dropTimer.
  - intros t Hin Htask. apply elem_of_dropTimer in Hin as [Hin Hne].
    specialize (H3 t Hin Htask). destruct Hk as [->| Hk]; [exact H3|].
    congruence.
Qed.

Lemma TimerInv_add t w w' :
  timers w' = timers w ++ [t] ->
  timerId t = nextId w ->
  (nextId w < nextId w')%nat ->
  (timerTask t = KeepAliveTick -> keepAliveInterval (svc w') = Some (timerId t)) ->
  (keepAliveInterval (svc w') = keepAliveInterval (svc w)
   \/ forall t', t' ∈ timers w -> timerTask t' <> KeepAliveTick) ->
  TimerInv w -> TimerInv w'.
Proof.
  intros Ht Hid Hn Hnew Hk (H1 & H2 & H3). unfold TimerInv. rewrite Ht.
  repeat split.
  - intros t' Hin. apply elem_of_app in Hin as [Hin|Hin].
    + specialize (H1 t' Hin). lia.
    + apply list_elem_of_singleton in Hin as ->. lia.
  - rewrite fmap_app. apply NoDup_app. repeat split.
    + exact H2.
    + intros x Hx Hx'. apply list_elem_of_fmap in Hx as (t' & -> & Hin).
      cbn in Hx'. apply list_elem_of_singleton in Hx'.
      specialize (H1 t' Hin). lia.
    + apply NoDup_singleton.
  - intros t' Hin Htask. apply elem_of_app in Hin as [Hin|Hin].
    + destruct Hk as [->|Hk]; [by apply H3|]. by destruct (Hk t' Hin).
    + apply list_elem_of_singleton in Hin as ->. auto.
Qed.

Ltac timers_leaf :=
  let w := fresh "w" in let H := fresh "H" in
  intros w H; cbn;
  first [ exact H
        | apply (TimerInv_ext w); [reflexivity | cbn; lia | reflexivity | exact H] ].

Create HintDb timers discriminated.

Ltac keeps_timers :=
  repeat match goal with
  | H : keeps TimerInv ?m |- keeps TimerInv ?m => exact H
  | |- keeps TimerInv _ => solve [auto 1 with timers nocore]
  | |- keeps _ (bind _ _) => apply keeps_bind; [|intros ?]
  | |- keeps _ (tryCatch _ _) => apply keeps_tryCatch; [|intros ?]
  | |- keeps _ (liftCompletion _) => apply keeps_liftCompletion
  | |- keeps _ (match ?x with _ => _ end) => destruct x
  | |- keeps _ (if ?b then _ else _) => destruct b
  | |- keeps TimerInv _ => solve [timers_leaf]
  end.

Lemma timers_notifyListeners env ls event data :
  keeps TimerInv (notifyListeners env ls event data).
Proof.
  induction ls as [|l rest IH]; cbn [notifyListeners]; keeps_timers.
Qed.

Lemma timers_notifyStateChange env event data :
  keeps TimerInv (notifyStateChange env event data).
Proof.
  unfold notifyStateChange. apply keeps_bind; [timers_leaf|intros s].
  apply timers_notifyListeners.
Qed.

#[local] Hint Resolve timers_notifyStateChange : timers.

Lemma timers_stopKeepAlive : keeps TimerInv stopKeepAlive.
Proof.
  intros w H. unfold stopKeepAlive. run.
  destruct (keepAliveInterval (svc w)) as [id|] eqn:Hka; [|exact H].
  unfold clearInterval. run. cbn.
  apply (TimerInv_drop id w); [reflexivity | cbn; lia | by right | exact H].
Qed.

Lemma timers_startKeepAlive : keeps TimerInv startKeepAlive.
Proof.
  intros w H. unfold startKeepAlive. run.
  destruct (keepAliveInterval (svc w)) as [id|] eqn:Hka.
  - unfold clearInterval, setInterval. run. cbn.
    set (w1 := set_timers (dropTimer id) w).
    assert (H1 : TimerInv w1)
      by (apply (TimerInv_drop id w); [reflexivity | cbn; lia | by left | exact H]).
    match goal with |- TimerInv ?w' =>
      apply (TimerInv_add {| timerId := nextId w; timerDelay := 30000;
                             timerRepeats := true; timerTask := KeepAliveTick |} w1 w')
    end; [reflexivity | reflexivity | cbn; lia | reflexivity | | exact H1].
    right. intros t' Hin Htask. cbn in Hin.
    apply elem_of_dropTimer in Hin as [Hin Hne].
    destruct H as (_ & _ & H3). specialize (H3 t' Hin Htask).
    congruence.
  - unfold setInterval. run. cbn.
    match goal with |- TimerInv ?w' =>
      apply (TimerInv_add {| timerId := nextId w; timerDelay := 30000;
                             timerRepeats := true; timerTask := KeepAliveTick |} w w')
    end; [reflexivity | reflexivity | cbn; lia | reflexivity | | exact H].
    right. intros t' Hin Htask.
    destruct H as (_ & _ & H3). specialize (H3 t' Hin Htask). congruence.
Qed.

Lemma timers_setTimeout v ms : keeps TimerInv (setTimeout (RetryAttach v) ms).
Proof.
  intros w H. unfold setTimeout. run. cbn.
  match goal with |- TimerInv ?w' =>
    apply (TimerInv_add {| timerId := nextId w; timerDelay := ms;
                           timerRepeats := false; timerTask := RetryAttach v |} w w')
  end; [reflexivity | reflexivity | cbn; lia | discriminate | by left | exact H].
Qed.

#[local] Hint Resolve timers_stopKeepAlive timers_startKeepAlive
  timers_setTimeout : timers.

Lemma timers_closeSession env : keeps TimerInv (closeSession env).
Proof.
  unfold closeSession, provider_stopAvatar, fetch_unregister. keeps_timers.
Qed.

Lemma timers_createSessionWithBackend env a v :
  keeps TimerInv (createSessionWithBackend env a v).
Proof.
  pose proof (timers_closeSession env).
  unfold createSessionWithBackend, createSessionTry, initializeSDK,
    newStreamingAvatar, provider_stopAvatar, provider_createStartAvatar,
    fetch_register, sleep.
  keeps_timers.
Qed.

Lemma timers_sendPrompt env p : keeps TimerInv (sendPrompt env p).
Proof. unfold sendPrompt, provider_speak. keeps_timers. Qed.

Lemma timers_interruptAvatar env : keeps TimerInv (interruptAvatar env).
Proof. unfold interruptAvatar, provider_interrupt. keeps_timers. Qed.

Lemma timers_keepAliveTick env : keeps TimerInv (keepAliveTick env).
Proof. unfold keepAliveTick, provider_speak. keeps_timers. Qed.

Lemma timers_attachAvatarStream env event :
  keeps TimerInv (attachAvatarStream env event).
Proof. unfold attachAvatarStream, play. keeps_timers. Qed.

Lemma timers_retryAttach env v : keeps TimerInv (retryAttach env v).
Proof. unfold retryAttach, play. keeps_timers. Qed.

Lemma timers_onStreamingEvent env ev : keeps TimerInv (onStreamingEvent env ev).
Proof.
  destruct ev; cbn [onStreamingEvent]; unfold handleSessionDisconnect;
    first [apply timers_attachAvatarStream | keeps_timers].
Qed.

Lemma timers_fireTimer env id : keeps TimerInv (fireTimer env id).
Proof.
  intros w H. unfold fireTimer.
  destruct (find _ (timers w)) as [t|]; [|exact H].
  assert (H' : TimerInv (if timerRepeats t then w else set_timers (dropTimer id) w)).
  { destruct (timerRepeats t); [exact H|].
    apply (TimerInv_drop id w); [reflexivity | cbn; lia | by left | exact H]. }
  destruct (timerTask t) as [|v]; cbn [runTask].
  - exact (timers_keepAliveTick env _ H').
  - exact (timers_retryAttach env v _ H').
Qed.

Lemma perform_TimerInv env s w : TimerInv w -> TimerInv (perform env s w).
Proof.
  intros H. destruct s as [a v| |p| |l|l| |h ev|id|h st]; cbn [perform].
  - by apply keeps_snd; [apply timers_createSessionWithBackend|].
  - by apply keeps_snd; [apply timers_closeSession|].
  - by apply keeps_snd; [apply timers_sendPrompt|].
  - by apply keeps_snd; [apply timers_interruptAvatar|].
  - apply (TimerInv_ext w); [reflexivity | cbn; lia | | exact H].
    cbn. by destruct (existsb _ _).
  - apply (TimerInv_ext w); [reflexivity | cbn; lia | reflexivity | exact H].
  - apply (TimerInv_ext w); [reflexivity | cbn; lia | reflexivity | exact H].
  - destruct (avatars w !! h); [|exact H].
    by apply keeps_snd; [apply timers_onStreamingEvent|].
  - by apply keeps_snd; [apply timers_fireTimer|].
  - apply (TimerInv_ext w); [reflexivity | cbn; lia | reflexivity | exact H].
Qed.

Lemma reachable_TimerInv env w : Reachable env w -> TimerInv w.
Proof.
  intros [steps ->]. unfold performAll.
  assert (H0 : TimerInv initialWorld).
  { repeat split; cbn; [intros t Ht; by apply elem_of_nil in Ht | constructor
                        | intros t Ht; by apply elem_of_nil in Ht]. }
  revert H0. generalize initialWorld.
  induction steps as [|s rest IH]; intros w H; cbn [fold_left]; [exact H|].
  apply IH. by apply perform_TimerInv.
Qed.

(** *** Closing a session *)

(** A collaborator set whose [stopAvatar] always fails. *)
Definition stopFailsEnv : Env := {|
  env_token := env_token quietEnv;
  env_stopAvatar := fun _ => Throw "stop failed";
  env_newAvatarHasInterrupt := env_newAvatarHasInterrupt quietEnv;
  env_createStartAvatar := env_createStartAvatar quietEnv;
  env_register := env_register quietEnv;
  env_unregister := env_unregister quietEnv;
  env_sendPrompt := env_sendPrompt quietEnv;
  env_speak := env_speak quietEnv;
  env_interrupt := env_interrupt quietEnv;
  env_listenerThrows := env_listenerThrows quietEnv;
  env_playRejected := env_playRejected quietEnv;
  env_activeSessions := env_activeSessions quietEnv
|}.

(** One active session, with those collaborators. *)
Definition activeWorldStopFails : World :=
  performAll stopFailsEnv
    [MountVideo; CallOnStateChange 7;
     CallCreateSession "josh_lite3_20230714" "da04d9a268ac468887a68359908e55b7"]
    initialWorld.

(** X1.  A close that goes through ([stopAvatar], when an avatar handle
    is held and the SDK is initialised, and the unregister request both
    return) resolves to [{ success: true }] and leaves the service with no
    session id, inactive, not speaking, without current avatar and voice and
    without keep-alive interval; the keep-alive timer is removed and the
    source of the registered video element is cleared.  The avatar handle,
    the SDK flag, the video element and the listeners stay as they were. *)
Theorem closeSession_success_clears env w :
  truthyOptStr (sessionId (svc w)) = true ->
  closeFailure env w = None ->
  let r := closeSession env w in
  fst r = Normal {| success := true |}
  /\ svc (snd r) = closedService (svc w)
  /\ timers (snd r) = withoutKeepAlive w
  /\ videos (snd r) = clearedSink w
  /\ avatars (snd r) = avatars w.
Proof.
  intros Hsid Hok.
  pose proof (closeSession_outcome env w Hsid) as (Ht & Ha & _ & _ & _ & _ & _ & H).
  cbn zeta in *. rewrite Hok in H. destruct H as (? & ? & ?). by repeat split.
Qed.

Lemma closeSession_success_clears_witness :
  truthyOptStr (sessionId (svc activeWorld)) = true
  /\ closeFailure quietEnv activeWorld = None
  /\ fst (closeSession quietEnv activeWorld) = Normal {| success := true |}.
Proof.
  assert (H1 : truthyOptStr (sessionId (svc activeWorld)) = true)
    by (vm_compute; reflexivity).
  assert (H2 : closeFailure quietEnv activeWorld = None) by (vm_compute; reflexivity).
  split; [exact H1|]. split; [exact H2|].
  exact (proj1 (closeSession_success_clears quietEnv activeWorld H1 H2)).
Defined.

Definition isKeepAlive (t : Timer) : bool :=
  match timerTask t with KeepAliveTick => true | RetryAttach _ => false end.

(** The keep-alive intervals that are pending. *)
Definition keepAliveTimers (w : World) : list Timer :=
  filter (fun t => isKeepAlive t = true) (timers w).

Lemma NoDup_fmap_filter {A B} (f : A -> B) (P : A -> Prop)
    `{forall x, Decision (P x)} (l : list A) :
  NoDup (f <$> l) -> NoDup (f <$> filter P l).
Proof.
  induction l as [|x r IH]; [intros; constructor|].
  cbn [fmap list_fmap]. rewrite NoDup_cons. intros [Hx Hr].
  rewrite filter_cons. destruct (decide _); [|auto].
  cbn [fmap list_fmap]. apply NoDup_cons. split; [|auto].
  intros Hin. apply Hx. apply list_elem_of_fmap in Hin as (t & Ht & Hin).
  apply list_elem_of_filter in Hin as [_ Hin]. apply list_elem_of_fmap. eauto.
Qed.

Lemma same_key_short {A B} (f : A -> B) (l : list A) (c : B) :
  NoDup (f <$> l) -> (forall x, x ∈ l -> f x = c) -> (length l <= 1)%nat.
Proof.
  destruct l as [|x [|y r]]; cbn; [lia|lia|].
  intros Hnd Hall. exfalso.
  apply NoDup_cons in Hnd as [Hx _]. apply Hx.
  rewrite (Hall x), <- (Hall y); [apply elem_of_cons; by left | | ].
  - apply elem_of_cons. right. apply elem_of_cons. by left.
  - apply elem_of_cons. by left.
Qed.

Lemma TimerInv_keepAlive w :
  TimerInv w ->
  match keepAliveInterval (svc w) with
  | Some id => forall t, t ∈ keepAliveTimers w -> timerId t = id
  | None => keepAliveTimers w = []
  end
  /\ (length (keepAliveTimers w) <= 1)%nat.
Proof.
  intros (H1 & H2 & H3).
  assert (Hka : forall t, t ∈ keepAliveTimers w ->
                  keepAliveInterval (svc w) = Some (timerId t)).
  { intros t Ht. apply list_elem_of_filter in Ht as [Hk Ht].
    apply H3; [exact Ht|]. unfold isKeepAlive in Hk. by destruct (timerTask t). }
  assert (Hnd : NoDup (timerId <$> keepAliveTimers w))
    by (by apply NoDup_fmap_filter).
  destruct (keepAliveInterval (svc w)) as [id|] eqn:E.
  - assert (Hid : forall t, t ∈ keepAliveTimers w -> timerId t = id).
    { intros t Ht. specialize (Hka t Ht). congruence. }
    split; [exact Hid|]. exact (same_key_short timerId _ id Hnd Hid).
  - assert (Hnil : keepAliveTimers w = []).
    { destruct (keepAliveTimers w) as [|t r] eqn:El; [reflexivity|].
      specialize (Hka t (list_elem_of_here t r)). discriminate. }
    split; [exact Hnil|]. rewrite Hnil. cbn. lia.
Qed.

(** X2.  A close that fails (the error of [stopAvatar], or else of the
    unregister request) rejects with that error and keeps the session: the
    session id, the active and speaking flags, the current avatar and voice
    and the video elements are as before.  The keep-alive is gone all the
    same: the interval was cleared before the first call was made, and in a
    reachable world no keep-alive timer is pending afterwards. *)
Theorem closeSession_failure_keeps_session env w e :
  Reachable env w ->
  truthyOptStr (sessionId (svc w)) = true ->
  closeFailure env w = Some e ->
  let r := closeSession env w in
  fst r = Throw e
  /\ sessionId (svc (snd r)) = sessionId (svc w)
  /\ isSessionActive (svc (snd r)) = isSessionActive (svc w)
  /\ isAvatarSpeaking (svc (snd r)) = isAvatarSpeaking (svc w)
  /\ getCurrentAvatar (svc (snd r)) = getCurrentAvatar (svc w)
  /\ videos (snd r) = videos w
  /\ keepAliveInterval (svc (snd r)) = None
  /\ keepAliveTimers (snd r) = [].
Proof.
  intros Hreach Hsid Hfail.
  pose proof (closeSession_outcome env w Hsid) as (_ & _ & _ & Hka & _ & _ & _ & H).
  pose proof (keeps_snd TimerInv (closeSession env) w (timers_closeSession env)
                (reachable_TimerInv env w Hreach)) as Hinv.
  apply TimerInv_keepAlive in Hinv as [Hnone _].
  cbn zeta in *. rewrite Hka in Hnone. rewrite Hfail in H.
  destruct H as (? & ? & ? & ? & Hca & Hcv & ?).
  unfold getCurrentAvatar. rewrite Hca, Hcv. by repeat split.
Qed.

Lemma closeSession_failure_keeps_session_witness :
  Reachable stopFailsEnv activeWorldStopFails
  /\ truthyOptStr (sessionId (svc activeWorldStopFails)) = true
  /\ closeFailure stopFailsEnv activeWorldStopFails = Some "stop failed"
  /\ fst (closeSession stopFailsEnv activeWorldStopFails) = Throw "stop failed".
Proof.
  assert (H0 : Reachable stopFailsEnv activeWorldStopFails) by (eexists; reflexivity).
  assert (H1 : truthyOptStr (sessionId (svc activeWorldStopFails)) = true)
    by (vm_compute; reflexivity).
  assert (H2 : closeFailure stopFailsEnv activeWorldStopFails = Some "stop failed")
    by (vm_compute; reflexivity).
  split; [exact H0|]. split; [exact H1|]. split; [exact H2|].
  exact (proj1 (closeSession_failure_keeps_session stopFailsEnv activeWorldStopFails
                  "stop failed" H0 H1 H2)).
Defined.

(** X3.  In every reachable world at most one keep-alive interval is
    pending, and it is the one whose id the service holds: when
    [keepAliveInterval] is [null] none is pending.  So [startKeepAlive]
    never leaves a second interval behind and [stopKeepAlive] stops the
    only one. *)
Theorem one_keepAlive_interval env w :
  Reachable env w ->
  match keepAliveInterval (svc w) with
  | Some id => forall t, t ∈ keepAliveTimers w -> timerId t = id
  | None => keepAliveTimers w = []
  end
  /\ (length (keepAliveTimers w) <= 1)%nat.
Proof.
  intros Hreach. apply TimerInv_keepAlive. exact (reachable_TimerInv env w Hreach).
Qed.

(** The page after a second session replaced the first. *)
Definition replacedWorld : World :=
  performAll quietEnv
    [MountVideo; CallOnStateChange 7;
     CallCreateSession "josh_lite3_20230714" "da04d9a268ac468887a68359908e55b7";
     CallCreateSession "Anthony_Chair_Sitting_public" "0009aabefe3a4553bc581d837b6268cb"]
    initialWorld.

Lemma one_keepAlive_interval_witness :
  Reachable quietEnv replacedWorld
  /\ (length (keepAliveTimers replacedWorld) <= 1)%nat.
Proof.
  assert (H0 : Reachable quietEnv replacedWorld) by (eexists; reflexivity).
  split; [exact H0|].
  destruct (one_keepAlive_interval quietEnv replacedWorld H0) as [_ H]. exact H.
Defined.

(** *** Prompts *)

(** The error [sendPrompt] throws for a reply whose status is not
    [success]. *)
Definition llmError (d : LlmData) : Error :=
  match llm_message d with
  | Some m => if truthyStr m then m else "LLM response failed"
  | None => "LLM response failed"
  end.

Lemma sendPrompt_run env p w h :
  avatar (svc w) = Some h ->
  isSDKInitialized (svc w) = true ->
  isSessionActive (svc w) = true ->
  let r := sendPrompt env p w in
  svc (snd r) = svc w /\ avatars (snd r) = avatars w
  /\ videos (snd r) = videos w /\ timers (snd r) = timers w
  /\ match env_sendPrompt env (calls w) with
     | LlmFails e =>
         fst r = Throw e /\ trace (snd r) = trace w ++ [EvFetchSendPrompt p]
     | LlmJson d =>
         if String.eqb (llm_status d) "success"
         then
           trace (snd r) =
             trace w ++ [EvFetchSendPrompt p;
                         EvSpeak h (llm_response d) None (sessionId (svc w))]
           /\ fst r =
                match env_speak env (S (calls w)) with
                | SpeakFulfilled =>
                    Normal {| result_success := true;
                              result_response := llm_response d;
                              result_heygen_sent := true;
                              result_used_knowledge_base := llm_used_knowledge_base d;
                              result_mode := llm_mode d |}
                | SpeakRejected e => Throw e
                | SpeakThrows e => Throw e
                end
         else
           fst r = Throw (llmError d)
           /\ trace (snd r) = trace w ++ [EvFetchSendPrompt p]
     end.
Proof.
  intros Hav Hsdk Hact. cbn zeta.
  destruct (sendPrompt env p w) as [c w'] eqn:Hr. cbn [fst snd]. revert Hr.
  unfold sendPrompt, llmError. run. rewrite Hav, Hsdk, Hact. cbn [isSome negb orb].
  run. simpl_world.
  destruct (env_sendPrompt env (calls w)) as [e|d]; run.
  { intros [= <- <-]. by repeat split. }
  destruct (String.eqb (llm_status d) "success"); cbn [negb]; run.
  2:{ intros [= <- <-]. by repeat split. }
  simpl_world. rewrite Hav. unfold provider_speak. run. simpl_world.
  destruct (env_speak env (S (calls w))); run; intros [= <- <-]; cbn;
    rewrite <- ?app_assoc; by repeat split.
Qed.

(** X4.  In a reachable world with an active session, [sendPrompt]
    passes both guards (an avatar handle is held and the SDK is
    initialised), sends the prompt to the backend once, and speaks at most
    once: exactly the text the backend returned, on the held handle and for
    the current session id, and only when the backend reported [success].
    It resolves only when that [speak] is fulfilled; otherwise it rejects
    with the backend's error, with the reply's message (or
    ["LLM response failed"]), or with the error of [speak].  It changes no
    field of the service, no object and no timer. *)
Theorem sendPrompt_on_active_session env p w :
  Reachable env w ->
  isSessionActive (svc w) = true ->
  exists h,
    avatar (svc w) = Some h /\
    let r := sendPrompt env p w in
    svc (snd r) = svc w /\ avatars (snd r) = avatars w
    /\ videos (snd r) = videos w /\ timers (snd r) = timers w
    /\ match env_sendPrompt env (calls w) with
       | LlmFails e =>
           fst r = Throw e /\ trace (snd r) = trace w ++ [EvFetchSendPrompt p]
       | LlmJson d =>
           if String.eqb (llm_status d) "success"
           then
             trace (snd r) =
               trace w ++ [EvFetchSendPrompt p;
                           EvSpeak h (llm_response d) None (sessionId (svc w))]
             /\ fst r =
                  match env_speak env (S (calls w)) with
                  | SpeakFulfilled =>
                      Normal {| result_success := true;
                                result_response := llm_response d;
                                result_heygen_sent := true;
                                result_used_knowledge_base :=
                                  llm_used_knowledge_base d;
                                result_mode := llm_mode d |}
                  | SpeakRejected e => Throw e
                  | SpeakThrows e => Throw e
                  end
           else
             fst r = Throw (llmError d)
             /\ trace (snd r) = trace w ++ [EvFetchSendPrompt p]
       end.
Proof.
  intros Hreach Hact.
  destruct (reachable_Inv env w Hreach) as (Hready & _ & _).
  destruct (Hready Hact) as (Hsdk & Hav).
  destruct (avatar (svc w)) as [h|] eqn:Hh; [|discriminate].
  exists h. split; [reflexivity|].
  exact (sendPrompt_run env p w h Hh Hsdk Hact).
Qed.

Lemma sendPrompt_on_active_session_witness :
  Reachable quietEnv activeWorld
  /\ isSessionActive (svc activeWorld) = true
  /\ exists h, avatar (svc activeWorld) = Some h.
Proof.
  assert (H0 : Reachable quietEnv activeWorld) by (eexists; reflexivity).
  assert (H1 : isSessionActive (svc activeWorld) = true) by (vm_compute; reflexivity).
  split; [exact H0|]. split; [exact H1|].
  destruct (sendPrompt_on_active_session quietEnv [104; 105]%N activeWorld H0 H1)
    as (h & Hh & _).
  exists h. exact Hh.
Defined.

(** X5.  Without an active session [sendPrompt] rejects before anything
    leaves the program: the world is untouched (no request to the backend,
    no [speak]).  The error is ["SDK not initialized"] when the avatar
    handle is missing or the SDK is not initialised, whatever the active
    flag says, and ["Session is not active"] otherwise. *)
Theorem sendPrompt_rejected_without_session env p w :
  isSome (avatar (svc w)) && isSDKInitialized (svc w) && isSessionActive (svc w)
    = false ->
  sendPrompt env p w =
  (Throw (if isSome (avatar (svc w)) && isSDKInitialized (svc w)
          then "Session is not active" else "SDK not initialized"), w).
Proof.
  intros H. unfold sendPrompt. rewrite run_getSvc.
  destruct (avatar (svc w)) as [h|]; [|reflexivity].
  destruct (isSDKInitialized (svc w)); [|reflexivity].
  cbn in H. rewrite H. reflexivity.
Qed.

Lemma sendPrompt_rejected_without_session_witness :
  isSome (avatar (svc mountedWorld)) && isSDKInitialized (svc mountedWorld)
    && isSessionActive (svc mountedWorld) = false
  /\ fst (sendPrompt quietEnv [104; 105]%N mountedWorld) = Throw "SDK not initialized".
Proof.
  assert (H : isSome (avatar (svc mountedWorld)) && isSDKInitialized (svc mountedWorld)
              && isSessionActive (svc mountedWorld) = false) by reflexivity.
  split; [exact H|].
  rewrite (sendPrompt_rejected_without_session quietEnv [104; 105]%N mountedWorld H).
  reflexivity.
Defined.

(** *** Listeners *)

Lemma notifyListeners_run env ls event data w :
  trace (snd (notifyListeners env ls event data w)) =
    trace w ++ map (fun l => EvListener l event data) ls
  /\ calls (snd (notifyListeners env ls event data w)) = (calls w + length ls)%nat.
Proof.
  revert w. induction ls as [|l rest IH]; intros w.
  - cbn. rewrite app_nil_r. split; [reflexivity|lia].
  - cbn [notifyListeners]. unfold bind at 1.
    unfold tryCatch, bind, emit, ask, throw, ret.
    destruct (env_listenerThrows env _); cbn;
      match goal with
      | |- context [notifyListeners env rest event data ?w'] =>
          destruct (IH w') as [-> ->]
      end; cbn; rewrite <- app_assoc; (split; [reflexivity|lia]).
Qed.

(** X6.  A state change reaches every subscribed listener exactly once,
    in the order of subscription, with the event name and the value, also
    when listeners throw: the error of one listener neither stops the
    notification of the others nor reaches the caller, and no field of the
    service is changed. *)
Theorem notifyStateChange_reaches_every_listener env event data w :
  let r := notifyStateChange env event data w in
  fst r = Normal tt
  /\ svc (snd r) = svc w
  /\ trace (snd r) =
       trace w ++ map (fun l => EvListener l event data) (onStateChangeListeners (svc w)).
Proof.
  cbn zeta.
  pose proof (notifyStateChange_returns env event data w) as (Hn & Hs & _).
  split; [exact Hn|split; [exact Hs|]].
  unfold notifyStateChange. rewrite run_getSvc.
  apply notifyListeners_run.
Qed.

(** A field of the service holds a given value. *)
Definition FieldIs {X} (f : Service -> X) (x : X) (w : World) : Prop :=
  f (svc w) = x.

Lemma FieldIs_stable {X} (f : Service -> X) x : Stable (FieldIs f x).
Proof. intros w w' Hs _. unfold FieldIs. by rewrite Hs. Qed.

#[local] Hint Resolve FieldIs_stable : keeps.

Ltac keeps_field :=
  repeat keeps_step; try (let H := fresh in intros ? H; exact H).

Lemma listeners_closeSession env L :
  keeps (FieldIs onStateChangeListeners L) (closeSession env).
Proof.
  unfold closeSession, stopKeepAlive, clearInterval, provider_stopAvatar,
    fetch_unregister.
  keeps_field.
Qed.

Lemma listeners_createSessionTry env a v L :
  keeps (FieldIs onStateChangeListeners L) (createSessionTry env a v).
Proof.
  unfold createSessionTry, initializeSDK, newStreamingAvatar, storeAvatar,
    provider_stopAvatar, provider_createStartAvatar, fetch_register,
    startKeepAlive, clearInterval, setInterval.
  keeps_field.
Qed.

(** *** Interrupting *)

Lemma notifyStateChange_run env event data w :
  trace (snd (notifyStateChange env event data w)) =
    trace w ++ map (fun l => EvListener l event data) (onStateChangeListeners (svc w)).
Proof.
  unfold notifyStateChange. rewrite run_getSvc. apply notifyListeners_run.
Qed.

(** C10.  [interruptAvatar] never throws and its promise is never
    rejected: for every world and every behaviour of the provider and of the
    listeners it resolves to a boolean.  When the SDK is initialised, the
    avatar handle is present and the handle has an [interrupt] function, the
    provider's [interrupt] is called, once and on that handle, the listeners
    are then told that the avatar stopped speaking, and the boolean is
    [true] exactly when that call returned, [false] when it threw.  When the
    SDK is uninitialised, the handle is absent or the function is missing,
    it resolves to [false] and nothing is called or changed. *)
Theorem interruptAvatar_total env w :
  let r := interruptAvatar env w in
  match avatar (svc w) with
  | Some h =>
      if isSDKInitialized (svc w) && avatarHasInterrupt w h
      then fst r = Normal (isNormal (env_interrupt env (calls w)))
           /\ trace (snd r) =
                trace w ++ EvInterrupt h ::
                map (fun l => EvListener l "avatar_speaking" false)
                    (onStateChangeListeners (svc w))
      else r = (Normal false, w)
  | None => r = (Normal false, w)
  end.
Proof.
  cbn zeta. unfold interruptAvatar. run.
  destruct (avatar (svc w)) as [h|] eqn:Hav; [|reflexivity].
  destruct (isSDKInitialized (svc w)); [|reflexivity].
  cbn [isSome negb orb andb]. run.
  destruct (avatarHasInterrupt w h); [|reflexivity].
  unfold provider_interrupt, liftCompletion. run. simpl_world.
  destruct (env_interrupt env (calls w)) as [[]|e]; cbn [isNormal]; run;
    cbn [fst snd];
    match goal with
    | |- context [notifyStateChange env ?ev ?d ?w'] =>
        rewrite (notifyStateChange_run env ev d w')
    end;
    simpl_world; cbn [svc set_svc onStateChangeListeners set_isAvatarSpeaking];
    rewrite <- app_assoc; by split.
Qed.

Definition isSubscription (s : Step) : bool :=
  match s with
  | CallOnStateChange _ | CallUnsubscribe _ => true
  | _ => false
  end.

Lemma listeners_perform env s w L :
  isSubscription s = false ->
  FieldIs onStateChangeListeners L w ->
  FieldIs onStateChangeListeners L (perform env s w).
Proof.
  intros Hs H.
  destruct s as [a v| |p| |l|l| |h ev|id|h st]; try discriminate; cbn [perform].
  - apply keeps_snd; [|exact H].
    pose proof (listeners_closeSession env L).
    pose proof (listeners_createSessionTry env a v L).
    unfold createSessionWithBackend, sleep. keeps_field.
  - apply keeps_snd; [apply listeners_closeSession|exact H].
  - apply keeps_snd; [|exact H]. unfold sendPrompt, provider_speak. keeps_field.
  - apply keeps_snd; [|exact H]. unfold interruptAvatar, provider_interrupt. keeps_field.
  - exact H.
  - destruct (avatars w !! h); [|exact H].
    apply keeps_snd; [|exact H].
    destruct ev; cbn [onStreamingEvent];
      unfold attachAvatarStream, play, setTimeout, handleSessionDisconnect; keeps_field.
  - apply keeps_snd; [|exact H].
    intros w0 H0. unfold fireTimer.
    destruct (find _ (timers w0)) as [t|]; [|exact H0].
    assert (H' : FieldIs onStateChangeListeners L
                   (if timerRepeats t then w0 else set_timers (dropTimer id) w0))
      by (by destruct (timerRepeats t)).
    revert H'. generalize (if timerRepeats t then w0 else set_timers (dropTimer id) w0).
    change (keeps (FieldIs onStateChangeListeners L) (runTask env (timerTask t))).
    destruct (timerTask t); cbn [runTask];
      unfold keepAliveTick, retryAttach, provider_speak, play; keeps_field.
  - exact H.
Qed.

(** X7.  The set of listeners is changed by [onStateChange] and by the
    unsubscribe function it returns, and by nothing else: creating,
    replacing or closing a session, a prompt, an interrupt, an SDK event, a
    timer, the provider publishing a stream and the view mounting its video
    element all leave the listeners as they were.  A subscription made
    once therefore survives every session. *)
Theorem lifecycle_keeps_listeners env s w :
  isSubscription s = false ->
  onStateChangeListeners (svc (perform env s w)) = onStateChangeListeners (svc w).
Proof.
  intros Hs. exact (listeners_perform env s w _ Hs eq_refl).
Qed.

Lemma lifecycle_keeps_listeners_witness :
  isSubscription CallCloseSession = false
  /\ onStateChangeListeners (svc (perform quietEnv CallCloseSession activeWorld))
     = onStateChangeListeners (svc activeWorld).
Proof.
  split; [reflexivity|].
  exact (lifecycle_keeps_listeners quietEnv CallCloseSession activeWorld eq_refl).
Defined.

(** *** The current avatar and voice *)

Lemma identity_createSessionTry env a v x :
  keeps (FieldIs getCurrentAvatar x) (createSessionTry env a v).
Proof.
  unfold createSessionTry, initializeSDK, newStreamingAvatar, storeAvatar,
    provider_stopAvatar, provider_createStartAvatar, fetch_register,
    startKeepAlive, clearInterval, setInterval.
  keeps_field.
Qed.

(** X8.  What [getCurrentAvatar] reports after [createSessionWithBackend],
    however the call ends.  The requested avatar and voice are recorded
    before anything else, so they are reported also when the creation
    fails.  But when an active session was replaced and its close went
    through, the close cleared both fields after they had been set and
    nothing sets them again: the new session runs with [avatarId] and
    [voiceId] reported as [null]. *)
Theorem createSession_current_avatar env a v w :
  let r := createSessionWithBackend env a v w in
  getCurrentAvatar (svc (snd r)) =
  if isSessionActive (svc w) && truthyOptStr (sessionId (svc w))
     && negb (isSome (closeFailure env w))
  then {| current_avatarId := None; current_voiceId := None |}
  else {| current_avatarId := Some a; current_voiceId := Some v |}.
Proof.
  cbn zeta. unfold createSessionWithBackend. rewrite !run_modify, run_getSvc.
  set (w0 := set_svc (set_currentVoiceId (Some v))
               (set_svc (set_currentAvatarId (Some a)) w)).
  change (isSessionActive (svc w0)) with (isSessionActive (svc w)).
  change (sessionId (svc w0)) with (sessionId (svc w)).
  change (closeFailure env w) with (closeFailure env w0).
  destruct (isSessionActive (svc w) && truthyOptStr (sessionId (svc w))) eqn:Hc;
    cbn [andb].
  - apply andb_prop in Hc as [_ Hsid].
    pose proof (closeSession_outcome env w0 Hsid) as (_ & _ & _ & _ & _ & _ & _ & H).
    cbn zeta in H. rewrite run_bind. unfold bind at 1.
    destruct (closeSession env w0) as [[c|e] w1]; cbn [fst snd] in H.
    + destruct (closeFailure env w0) as [e|]; [by destruct H|].
      destruct H as (_ & Hs & _). cbn [isSome negb].
      unfold sleep. rewrite run_emit.
      apply (keeps_snd _ _ _ (identity_createSessionTry env a v _)).
      unfold FieldIs. cbn. by rewrite Hs.
    + destruct (closeFailure env w0) as [e'|]; [|by destruct H].
      destruct H as (_ & _ & _ & _ & Hca & Hcv & _). cbn [isSome negb snd].
      unfold getCurrentAvatar. by rewrite Hca, Hcv.
  - rewrite run_ret.
    by apply (keeps_snd _ _ _ (identity_createSessionTry env a v _)).
Qed.

(** *** A session the provider disconnected *)



(** The [try] block of [createSessionWithBackend] run on an inactive
    service: when it returns, the service is active and holds the id it
    reports; when it throws, the id held before is still there and the
    service is still inactive. *)
Definition Dormant (sid : option string) (w : World) : Prop :=
  sessionId (svc w) = sid /\ isSessionActive (svc w) = false.

Lemma Dormant_stable sid : Stable (Dormant sid).
Proof. intros w w' Hs _. unfold Dormant. by rewrite Hs. Qed.

#[local] Hint Resolve Dormant_stable : keeps.





(** *** Status *)

Lemma videoSrcObject_cleared w :
  match videoElement (svc w) with
  | Some v' =>
      match (clearedSink w) !! v' with Some el => srcObject el | None => None end
  | None => None
  end = None.
Proof.
  unfold clearedSink. destruct (videoElement (svc w)) as [v'|]; [|reflexivity].
  rewrite lookup_alter_eq. by destruct (videos w !! v').
Qed.

(** X10.  The status after a close that went through: no session id,
    not active, not speaking, not alive, no keep-alive, no current avatar
    or voice, and a video element without source.  The avatar handle and
    the SDK flag are not reset by a close: [hasAvatar] and
    [isSDKInitialized] report what they reported before. *)
Theorem status_after_close env w :
  truthyOptStr (sessionId (svc w)) = true ->
  closeFailure env w = None ->
  getSessionStatus (snd (closeSession env w)) =
  {| status_sessionId := None;
     status_isActive := false;
     status_isSpeaking := false;
     status_hasAvatar := status_hasAvatar (getSessionStatus w);
     status_isSDKInitialized := status_isSDKInitialized (getSessionStatus w);
     status_isAlive := VNull;
     status_hasKeepAlive := false;
     status_currentAvatar := None;
     status_currentVoice := None;
     status_hasMediaStream := status_hasMediaStream (getSessionStatus w);
     status_videoElementHasSource := false;
     status_videoElementExists := status_videoElementExists (getSessionStatus w) |}.
Proof.
  intros Hsid Hok.
  pose proof (closeSession_outcome env w Hsid) as (_ & Ha & _ & _ & _ & _ & _ & H).
  cbn zeta in *. rewrite Hok in H. destruct H as (_ & Hs & Hv).
  pose proof (videoSrcObject_cleared w) as Hsink.
  unfold getSessionStatus, avatarMediaStream, videoSrcObject.
  rewrite Hs, Ha, Hv. cbn [closedService sessionId isSessionActive isAvatarSpeaking
    avatar isSDKInitialized keepAliveInterval currentAvatarId currentVoiceId
    videoElement isSome].
  rewrite Hsink. reflexivity.
Qed.

Lemma status_after_close_witness :
  truthyOptStr (sessionId (svc activeWorld)) = true
  /\ closeFailure quietEnv activeWorld = None
  /\ status_isAlive (getSessionStatus (snd (closeSession quietEnv activeWorld))) = VNull.
Proof.
  assert (H1 : truthyOptStr (sessionId (svc activeWorld)) = true)
    by (vm_compute; reflexivity).
  assert (H2 : closeFailure quietEnv activeWorld = None) by (vm_compute; reflexivity).
  split; [exact H1|]. split; [exact H2|].
  rewrite (status_after_close quietEnv activeWorld H1 H2). reflexivity.
Defined.

Lemma truthy_andAlso x y : truthy (andAlso x y) = truthy x && truthy y.
Proof. unfold andAlso. by destruct (truthy x) eqn:E; cbn; rewrite ?E. Qed.

Lemma truthy_isSessionAlive (s : Service) :
  truthy (isSessionAlive s) =
  truthyOptStr (sessionId s) && isSome (avatar s) && isSDKInitialized s
  && isSessionActive s.
Proof.
  unfold isSessionAlive. rewrite !truthy_andAlso.
  by destruct (sessionId s), (avatar s).
Qed.

(** X11.  In a reachable world the session is alive exactly when it is
    marked active and has a non-empty session id: the two other conjuncts of
    [isSessionAlive] (an avatar handle, an initialised SDK) always hold for
    an active session. *)
Theorem isSessionAlive_reachable env w :
  Reachable env w ->
  truthy (isSessionAlive (svc w)) =
  isSessionActive (svc w) && truthyOptStr (sessionId (svc w)).
Proof.
  intros Hreach. destruct (reachable_Inv env w Hreach) as (Hready & _ & _).
  rewrite truthy_isSessionAlive. unfold Ready in Hready.
  destruct (isSessionActive (svc w)).
  - destruct (Hready eq_refl) as (-> & ->). cbn. by rewrite !andb_true_r.
  - by rewrite andb_false_r.
Qed.

Lemma isSessionAlive_reachable_witness :
  Reachable quietEnv activeWorld
  /\ truthy (isSessionAlive (svc activeWorld)) = true.
Proof.
  assert (H0 : Reachable quietEnv activeWorld) by (eexists; reflexivity).
  split; [exact H0|].
  rewrite (isSessionAlive_reachable quietEnv activeWorld H0).
  vm_compute. reflexivity.
Defined.

(** *** Manual retry and autoplay *)

(** X12.  [retryStreamAttachment] resolves to a boolean and never
    rejects.  Without a video element, an avatar handle or a stream on the
    avatar it resolves to [false] and touches nothing.  Otherwise it binds
    the avatar's stream to the video element, whatever source the element
    had, mutes the element and plays it once; it resolves to [true] exactly
    when that play is not refused. *)
Theorem retryStreamAttachment_result env w :
  let r := retryStreamAttachment env w in
  match videoElement (svc w),
        match avatar (svc w) with Some h => avatarMediaStream w h | None => None end
  with
  | Some v, Some st =>
      fst r = Normal (negb (env_playRejected env (calls w)))
      /\ trace (snd r) = trace w ++ [EvPlay v]
      /\ videos (snd r) =
           alter (fun el => {| srcObject := Some st; muted := true |}) v (videos w)
      /\ svc (snd r) = svc w /\ timers (snd r) = timers w
  | _, _ => r = (Normal false, w)
  end.
Proof.
  cbn zeta. unfold retryStreamAttachment. run.
  destruct (videoElement (svc w)) as [v|]; [|reflexivity].
  destruct (avatar (svc w)) as [h|]; [|reflexivity]. run.
  destruct (avatarMediaStream w h) as [st|]; [|reflexivity].
  unfold play. run. simpl_world.
  assert (Hv : alter (fun el => {| srcObject := srcObject el; muted := true |}) v
                 (alter (fun el => {| srcObject := Some st; muted := muted el |}) v
                    (videos w))
               = alter (fun el => {| srcObject := Some st; muted := true |}) v (videos w)).
  { rewrite alter_alter_eq. apply alter_ext. by intros []. }
  destruct (env_playRejected env (calls w)); run; cbn; rewrite Hv; by repeat split.
Qed.

(** X13.  When [attachAvatarStream] finds a stream, it binds it and
    plays the element; if the browser refuses that play (autoplay blocked)
    it mutes the element and plays it once more, and whether this second
    play is refused changes nothing.  The element is muted only in that
    case, and the call returns normally in both. *)
Theorem attachAvatarStream_autoplay env w v st event :
  videoElement (svc w) = Some v ->
  pickStream w event = Some st ->
  let r := attachAvatarStream env event w in
  let blocked := env_playRejected env (calls w) in
  fst r = Normal tt
  /\ trace (snd r) = trace w ++ EvPlay v :: (if blocked then [EvPlay v] else [])
  /\ videos (snd r) =
       alter (fun el => {| srcObject := Some st; muted := muted el || blocked |}) v
         (videos w)
  /\ svc (snd r) = svc w /\ timers (snd r) = timers w.
Proof.
  intros Hv Hst. cbn zeta. unfold attachAvatarStream. run. rewrite Hv. run.
  rewrite Hst. unfold play. run. simpl_world.
  destruct (env_playRejected env (calls w)); run; cbn.
  - rewrite <- app_assoc. repeat split.
    rewrite alter_alter_eq. apply alter_ext. intros [s m] _. cbn.
    by rewrite orb_true_r.
  - repeat split. apply alter_ext. intros [s m] _. cbn. by rewrite orb_false_r.
Qed.

(** A page on which the browser refuses every play. *)
Definition blockedEnv : Env := {|
  env_token := env_token quietEnv;
  env_stopAvatar := env_stopAvatar quietEnv;
  env_newAvatarHasInterrupt := env_newAvatarHasInterrupt quietEnv;
  env_createStartAvatar := env_createStartAvatar quietEnv;
  env_register := env_register quietEnv;
  env_unregister := env_unregister quietEnv;
  env_sendPrompt := env_sendPrompt quietEnv;
  env_speak := env_speak quietEnv;
  env_interrupt := env_interrupt quietEnv;
  env_listenerThrows := env_listenerThrows quietEnv;
  env_playRejected := fun _ => true;
  env_activeSessions := env_activeSessions quietEnv
|}.

(** The payload of a [streamReady] event that carries stream 42. *)
Definition readyWithStream : option ReadyEvent :=
  Some {| detail := Some {| detail_stream := Some 42%nat; detail_mediaStream := None |};
          event_stream := None |}.

Lemma attachAvatarStream_autoplay_witness :
  videoElement (svc activeWorld) = Some 1%nat
  /\ pickStream activeWorld readyWithStream = Some 42%nat
  /\ fst (attachAvatarStream blockedEnv readyWithStream activeWorld) = Normal tt.
Proof.
  assert (H1 : videoElement (svc activeWorld) = Some 1%nat) by (vm_compute; reflexivity).
  assert (H2 : pickStream activeWorld readyWithStream = Some 42%nat)
    by (vm_compute; reflexivity).
  split; [exact H1|]. split; [exact H2|].
  destruct (attachAvatarStream_autoplay blockedEnv activeWorld 1%nat 42%nat
              readyWithStream H1 H2) as [H _].
  exact H.
Defined.

End HeyGenServiceProofs.

(** ** Properties of the manual negotiation *)

Module WebRTCProofs.
Import WebRTCService.
Local Open Scope js_scope.

Ltac rtc_fields :=
  cbn [svc pcs timeoutVar timerArmed promise settledAt now nextId trace
       peerConnection isConnected onTrackCallback onConnectionStateChangeCallback
       set_peerConnection set_isConnected set_onTrackCallback
       set_onConnectionStateChangeCallback].

(** Unfold the monad and the primitive steps, and nothing else. *)
Ltac rtc_run :=
  cbv [tryCatch bind emit getWorld modify updatePc setTimer setNow settle ret throw
       close cleanup startSession notifyConnectionState onTrack
       onIceConnectionStateChange andThen onRejected];
  rtc_fields.

Definition isClose (e : Event) : bool :=
  match e with EvClose _ => true | _ => false end.

(** The calls of the callbacks the view registered. *)
Definition isCallback (e : Event) : bool :=
  match e with
  | EvTrackCallback _ _ | EvConnectionStateChangeCallback _ _ => true
  | _ => false
  end.

(** The calls made on the browser, in order: the trace without the
    callbacks of the view. *)
Definition browserCalls (tr : list Event) : list Event :=
  List.filter (fun e => negb (isCallback e)) tr.

Lemma browserCalls_app tr1 tr2 :
  browserCalls (tr1 ++ tr2) = browserCalls tr1 ++ browserCalls tr2.
Proof. apply List.filter_app. Qed.

Lemma browserCalls_callbacks t : forallb isCallback t = true -> browserCalls t = [].
Proof.
  induction t as [|e t IH]; [reflexivity|]. cbn. intros [He Ht]%andb_prop.
  rewrite He. cbn. auto.
Qed.

Lemma callbacks_not_close t : forallb isCallback t = true -> existsb isClose t = false.
Proof.
  induction t as [|e t IH]; [reflexivity|]. cbn. intros [He Ht]%andb_prop.
  rewrite (IH Ht). by destruct e.
Qed.

Definition closedOf (w : World) (pc : handle) : option bool :=
  closed <$> pcs w !! pc.

(** [w'] differs from [w] by reports of the browser that triggered
    nothing: the promise, the connection and the field [peerConnection] are
    as they were, and only callbacks of the view were called. *)
Definition Idle (pc : handle) (w w' : World) : Prop :=
  promise w' = promise w
  /\ settledAt w' = settledAt w
  /\ timerArmed w' = timerArmed w
  /\ closedOf w' pc = closedOf w pc
  /\ peerConnection (svc w') = peerConnection (svc w)
  /\ exists t, trace w' = trace w ++ t /\ forallb isCallback t = true.

Lemma Idle_refl pc w : Idle pc w w.
Proof. repeat split. exists []. by rewrite app_nil_r. Qed.

Lemma Idle_trans pc w1 w2 w3 : Idle pc w1 w2 -> Idle pc w2 w3 -> Idle pc w1 w3.
Proof.
  intros (A1 & A2 & A3 & A4 & A5 & t1 & A6 & A7) (B1 & B2 & B3 & B4 & B5 & t2 & B6 & B7).
  repeat split; try congruence.
  exists (t1 ++ t2). rewrite B6, A6, <- app_assoc. split; [reflexivity|].
  by rewrite forallb_app, A7, B7.
Qed.

(** *** Submitting the answer *)

(** [sendAnswerToHeyGen] on a pending negotiation: the timer is cleared,
    the handler removed, and as [heygenService.startSession] is not a
    function the connection is closed and the promise rejected. *)
Definition answerRefused (pc : handle) (w : World) : World :=
  {| svc := svc w;
     pcs := alter setClosed pc (alter (setHandler false) pc (pcs w));
     timeoutVar := timeoutVar w;
     timerArmed := if timeoutVar w then None else timerArmed w;
     promise := Rejected "TypeError";
     settledAt := Some (now w);
     now := now w;
     nextId := nextId w;
     trace := trace w ++ (if timeoutVar w then [EvClearTimeout] else []) ++ [EvClose pc] |}.

Lemma sendAnswerToHeyGen_run pc sessionId w p sdp :
  pcs w !! pc = Some p ->
  localDescription p = Some sdp ->
  promise w = Pending ->
  sendAnswerToHeyGen pc sessionId w = (Normal tt, answerRefused pc w).
Proof.
  intros Hp Hl Hpend. unfold sendAnswerToHeyGen, answerRefused. rtc_run.
  destruct (timeoutVar w) eqn:Hv; rtc_fields; rewrite lookup_alter_eq, Hp; cbn;
    destruct p as [cl rd ld gs h]; cbn in Hl; subst ld; cbn; rewrite Hpend, ?Hv;
    rewrite <- ?app_assoc; reflexivity.
Qed.

(** The negotiation is over or was never armed: no timer is pending and
    the gathering handler is not installed. *)
Definition Inert (pc : handle) (w : World) : Prop :=
  timerArmed w = None
  /\ exists p, pcs w !! pc = Some p /\ onicegatheringstatechange p = false.

Lemma onIceEvent_inert pc sessionId t ev w :
  Inert pc w ->
  let r := onIceEvent pc sessionId t ev w in
  fst r = Normal tt /\ Inert pc (snd r) /\ Idle pc w (snd r).
Proof.
  intros (Ht & p & Hp & Hh). cbn zeta.
  assert (Hfin : forall W : World,
            timerArmed W = timerArmed w ->
            promise W = promise w -> settledAt W = settledAt w ->
            peerConnection (svc W) = peerConnection (svc w) ->
            (exists p', pcs W !! pc = Some p'
                        /\ onicegatheringstatechange p' = false
                        /\ closed p' = closed p) ->
            (exists t, trace W = trace w ++ t /\ forallb isCallback t = true) ->
            Inert pc W /\ Idle pc w W).
  { intros W H1 H2 H3 H4 (p' & H5 & H6 & H7) H8. split.
    - split; [congruence|eauto].
    - unfold Idle, closedOf. rewrite H5, Hp. cbn. rewrite H7. by repeat split. }
  destruct ev as [c|st|st|kind]; unfold onIceEvent.
  - rtc_run. cbn [fst snd]. split; [reflexivity|]. apply Hfin; rtc_fields; try reflexivity.
    + eexists. rewrite lookup_alter_eq, Hp. split; [reflexivity|]. by cbn.
    + exists []. by rewrite app_nil_r.
  - cbv [bind setNow updatePc getWorld ret]. rtc_fields.
    rewrite lookup_alter_eq, Hp.
    cbn [fmap option_fmap option_map setGathering onicegatheringstatechange].
    rewrite Hh. cbn [andb fst snd]. split; [reflexivity|].
    apply Hfin; rtc_fields; try reflexivity.
    + eexists. rewrite lookup_alter_eq, Hp. split; [reflexivity|]. by cbn.
    + exists []. by rewrite app_nil_r.
  - destruct st; rtc_run;
      (destruct (onConnectionStateChangeCallback (svc w)) as [cb|]; cbn [fst snd];
       (split; [reflexivity|]); apply Hfin; rtc_fields; try reflexivity;
       first [exists p; by repeat split | by eexists [_] | exists []; by rewrite app_nil_r]).
  - rtc_run.
    destruct (onTrackCallback (svc w)) as [cb|]; cbn [fst snd];
      (split; [reflexivity|]); apply Hfin; rtc_fields; try reflexivity;
      first [exists p; by repeat split | by eexists [_] | exists []; by rewrite app_nil_r].
Qed.

Lemma bind_normal {S A B} (m : Js S A) (k : A -> Js S B) w a w1 :
  m w = (Normal a, w1) -> bind m k w = k a w1.
Proof. unfold bind. by intros ->. Qed.

Lemma eventLoop_cons_waiting pc sessionId t ev rest w :
  match timerArmed w with Some deadline => deadline <=? t | None => false end = false ->
  eventLoop pc sessionId ((t, ev) :: rest) w =
  bind (onIceEvent pc sessionId t ev)
       (fun _ => eventLoop pc sessionId rest) w.
Proof.
  intros H. cbn [eventLoop]. unfold bind at 1 2, getWorld at 1.
  destruct (timerArmed w) as [d|]; [rewrite H|]; reflexivity.
Qed.

Lemma eventLoop_cons_due pc sessionId t ev rest w deadline :
  timerArmed w = Some deadline ->
  (deadline <=? t) = true ->
  eventLoop pc sessionId ((t, ev) :: rest) w =
  bind (onTimeout pc sessionId deadline)
       (fun _ => bind (onIceEvent pc sessionId t ev)
                      (fun _ => eventLoop pc sessionId rest)) w.
Proof.
  intros H1 H2. cbn [eventLoop]. unfold bind at 1 2, getWorld at 1.
  rewrite H1, H2. reflexivity.
Qed.

(** Once the handler is removed and no timer is pending, the browser's
    reports trigger nothing: no call is made on the browser, the promise
    and the closed flag stay as they are. *)
Lemma eventLoop_inert pc sessionId evs w :
  Inert pc w ->
  let r := eventLoop pc sessionId evs w in
  fst r = Normal tt /\ Idle pc w (snd r).
Proof.
  revert w. induction evs as [|[t ev] rest IH]; intros w Hin; cbn zeta.
  - destruct Hin as (Ht & _). cbn [eventLoop]. unfold bind, getWorld.
    rewrite Ht. split; [reflexivity|apply Idle_refl].
  - pose proof Hin as (Ht & _).
    rewrite eventLoop_cons_waiting by (by rewrite Ht).
    pose proof (onIceEvent_inert pc sessionId t ev w Hin) as H.
    cbn zeta in H.
    destruct (onIceEvent pc sessionId t ev w) as [[[]|e] w1] eqn:Hev;
      cbn [fst snd] in H; destruct H as (Hn & Hin1 & Hid); [|discriminate].
    rewrite (bind_normal _ _ _ _ _ Hev).
    specialize (IH w1 Hin1). cbn zeta in IH. destruct IH as [? Hid2].
    split; [assumption|]. exact (Idle_trans pc _ _ _ Hid Hid2).
Qed.

(** The state in which the negotiation waits for ICE gathering: the
    handler is installed, the timer is pending with deadline [d], the
    promise is pending, and the connection is open with its local
    description set. *)
Definition Waiting (pc : handle) (d : Z) (w : World) : Prop :=
  timerArmed w = Some d /\ timeoutVar w = true /\ promise w = Pending
  /\ exists p, pcs w !! pc = Some p
       /\ onicegatheringstatechange p = true
       /\ is_Some (localDescription p)
       /\ closed p = false.

(** ICE gathering never reaches the complete state. *)
Definition neverCompletes (evs : list (Z * IceEvent)) : bool :=
  forallb (fun tev =>
             match snd tev with
             | GatheringStateChange st => negb (isComplete st)
             | _ => true
             end) evs.

(** When the wait ends, for a timer with deadline [d]: at the first
    report of complete gathering, or at the deadline if that comes first
    or never. *)
Fixpoint endOfWait (d : Z) (evs : list (Z * IceEvent)) : Z :=
  match evs with
  | [] => d
  | (t, ev) :: rest =>
      if d <=? t then d
      else
        match ev with
        | GatheringStateChange IceComplete => t
        | _ => endOfWait d rest
        end
  end.

Lemma endOfWait_never d evs : neverCompletes evs = true -> endOfWait d evs = d.
Proof.
  induction evs as [|[t ev] rest IH]; [reflexivity|].
  cbn [neverCompletes forallb snd endOfWait]. intros [Hev Hrest]%andb_prop.
  destruct (d <=? t); [reflexivity|].
  destruct ev as [c|[]|st|k]; try discriminate; by apply IH.
Qed.

(** The end of a negotiation that got as far as [sendAnswerToHeyGen]:
    rejected with the [TypeError] at time [t], the connection closed, and
    on the browser the calls [tail] after those of [w]. *)
Definition Refused (pc : handle) (t : Z) (tail : list Event) (w w' : World) : Prop :=
  promise w' = Rejected "TypeError"
  /\ settledAt w' = Some t
  /\ closedOf w' pc = Some true
  /\ peerConnection (svc w') = peerConnection (svc w)
  /\ browserCalls (trace w') = browserCalls (trace w) ++ tail.

Lemma Refused_then_idle pc t tail w w1 w2 :
  Refused pc t tail w w1 -> Idle pc w1 w2 -> Refused pc t tail w w2.
Proof.
  intros (A1 & A2 & A3 & A4 & A5) (B1 & B2 & _ & B4 & B5 & t2 & B6 & B7).
  repeat split; try congruence.
  by rewrite B6, browserCalls_app, (browserCalls_callbacks _ B7), app_nil_r.
Qed.

Lemma idle_then_Refused pc t tail w w1 w2 :
  Idle pc w w1 -> Refused pc t tail w1 w2 -> Refused pc t tail w w2.
Proof.
  intros (B1 & B2 & _ & B4 & B5 & t2 & B6 & B7) (A1 & A2 & A3 & A4 & A5).
  repeat split; try congruence.
  by rewrite A5, B6, browserCalls_app, (browserCalls_callbacks _ B7), app_nil_r.
Qed.

Lemma answerRefused_Refused pc w p :
  pcs w !! pc = Some p ->
  timeoutVar w = true ->
  Inert pc (answerRefused pc w)
  /\ Refused pc (now w) [EvClearTimeout; EvClose pc] w (answerRefused pc w).
Proof.
  intros Hp Hv. unfold answerRefused, Inert, Refused, closedOf. rtc_fields.
  rewrite Hv, !lookup_alter_eq, Hp. cbn [fmap option_fmap option_map].
  split; [split; [reflexivity|eauto]|].
  repeat split. by rewrite browserCalls_app.
Qed.

Lemma onTimeout_waiting pc sessionId d w :
  Waiting pc d w ->
  let r := onTimeout pc sessionId d w in
  fst r = Normal tt
  /\ Inert pc (snd r)
  /\ Refused pc d [EvClearTimeout; EvClose pc] w (snd r).
Proof.
  intros (Ht & Hv & Hpend & p & Hp & Hh & [sdp Hl] & Hc). cbn zeta.
  set (w1 := snd (setTimer (timeoutVar w) None (snd (setNow d w)))).
  change (onTimeout pc sessionId d w) with (sendAnswerToHeyGen pc sessionId w1).
  rewrite (sendAnswerToHeyGen_run pc sessionId w1 p sdp Hp Hl Hpend). cbn [fst snd].
  split; [reflexivity|].
  exact (answerRefused_Refused pc w1 p Hp Hv).
Qed.

Lemma onIceEvent_complete pc sessionId t d w :
  Waiting pc d w ->
  let r := onIceEvent pc sessionId t (GatheringStateChange IceComplete) w in
  fst r = Normal tt
  /\ Inert pc (snd r)
  /\ Refused pc t [EvClearTimeout; EvClose pc] w (snd r).
Proof.
  intros (Ht & Hv & Hpend & p & Hp & Hh & [sdp Hl] & Hc). cbn zeta.
  set (w1 := snd (updatePc pc (setGathering IceComplete) (snd (setNow t w)))).
  assert (Hp1 : pcs w1 !! pc = Some (setGathering IceComplete p)).
  { subst w1. cbn. by rewrite lookup_alter_eq, Hp. }
  assert (Hrun : onIceEvent pc sessionId t (GatheringStateChange IceComplete) w
                 = sendAnswerToHeyGen pc sessionId w1).
  { subst w1. unfold onIceEvent, bind, setNow, updatePc, getWorld.
    cbn -[sendAnswerToHeyGen]. rewrite lookup_alter_eq, Hp.
    cbn -[sendAnswerToHeyGen]. by rewrite Hh. }
  rewrite !Hrun.
  rewrite (sendAnswerToHeyGen_run pc sessionId w1 _ sdp Hp1 Hl Hpend). cbn [fst snd].
  split; [reflexivity|].
  exact (answerRefused_Refused pc w1 _ Hp1 Hv).
Qed.

(** Any other report leaves the negotiation waiting. *)
Lemma onIceEvent_waiting pc sessionId t ev d w :
  Waiting pc d w ->
  ev <> GatheringStateChange IceComplete ->
  let r := onIceEvent pc sessionId t ev w in
  fst r = Normal tt /\ Waiting pc d (snd r) /\ Idle pc w (snd r).
Proof.
  intros (Ht & Hv & Hpend & p & Hp & Hh & Hl & Hc) Hev. cbn zeta.
  assert (Hfin : forall W : World,
            timerArmed W = timerArmed w -> timeoutVar W = timeoutVar w ->
            promise W = promise w -> settledAt W = settledAt w ->
            peerConnection (svc W) = peerConnection (svc w) ->
            (exists p', pcs W !! pc = Some p'
                        /\ onicegatheringstatechange p' = true
                        /\ is_Some (localDescription p')
                        /\ closed p' = closed p) ->
            (exists t, trace W = trace w ++ t /\ forallb isCallback t = true) ->
            Waiting pc d W /\ Idle pc w W).
  { intros W H1 H2 H3 H4 H5 (p' & H6 & H7 & H8 & H9) H10. split.
    - repeat split; try congruence. exists p'. repeat split; try assumption. congruence.
    - unfold Idle, closedOf. rewrite H6, Hp. cbn. rewrite H9. by repeat split. }
  destruct ev as [c|st|st|kind]; unfold onIceEvent.
  - rtc_run. cbn [fst snd]. split; [reflexivity|]. apply Hfin; rtc_fields; try reflexivity.
    + eexists. rewrite lookup_alter_eq, Hp. split; [reflexivity|]. cbn.
      repeat split; try assumption. destruct Hl as [sdp ->]. by eexists.
    + exists []. by rewrite app_nil_r.
  - assert (Hst : isComplete st = false) by (destruct st; try reflexivity; congruence).
    cbv [bind setNow updatePc getWorld ret]. rtc_fields.
    rewrite lookup_alter_eq, Hp.
    cbn [fmap option_fmap option_map setGathering onicegatheringstatechange
         iceGatheringState].
    rewrite Hh, Hst. cbn [andb fst snd]. split; [reflexivity|].
    apply Hfin; rtc_fields; try reflexivity.
    + eexists. rewrite lookup_alter_eq, Hp. split; [reflexivity|]. by cbn.
    + exists []. by rewrite app_nil_r.
  - destruct st; rtc_run;
      (destruct (onConnectionStateChangeCallback (svc w)) as [cb|]; cbn [fst snd];
       (split; [reflexivity|]); apply Hfin; rtc_fields; try reflexivity;
       first [exists p; by repeat split | by eexists [_] | exists []; by rewrite app_nil_r]).
  - rtc_run.
    destruct (onTrackCallback (svc w)) as [cb|]; cbn [fst snd];
      (split; [reflexivity|]); apply Hfin; rtc_fields; try reflexivity;
      first [exists p; by repeat split | by eexists [_] | exists []; by rewrite app_nil_r].
Qed.

(** Whatever the browser reports, the wait ends once. *)
Lemma eventLoop_waiting pc sessionId evs d w :
  Waiting pc d w ->
  let r := eventLoop pc sessionId evs w in
  fst r = Normal tt
  /\ Refused pc (endOfWait d evs) [EvClearTimeout; EvClose pc] w (snd r).
Proof.
  revert w. induction evs as [|[t ev] rest IH]; intros w Hw; cbn zeta.
  - pose proof Hw as (Ht & _). cbn [eventLoop endOfWait].
    unfold bind, getWorld. rewrite Ht.
    destruct (onTimeout_waiting pc sessionId d w Hw) as (? & _ & ?). by split.
  - pose proof Hw as (Ht & _). cbn [endOfWait].
    destruct (d <=? t) eqn:Hdue.
    + rewrite (eventLoop_cons_due _ _ _ _ _ _ d Ht Hdue).
      pose proof (onTimeout_waiting pc sessionId d w Hw) as H. cbn zeta in H.
      destruct (onTimeout pc sessionId d w) as [[[]|e] w1] eqn:Hto;
        cbn [fst snd] in H; destruct H as (Hn & Hin & Href); [|discriminate].
      rewrite (bind_normal _ _ _ _ _ Hto).
      pose proof (eventLoop_inert pc sessionId ((t, ev) :: rest) w1 Hin) as H.
      cbn zeta in H. pose proof Hin as (Ht1 & _).
      rewrite eventLoop_cons_waiting in H by (by rewrite Ht1).
      destruct H as [? Hid]. split; [assumption|].
      exact (Refused_then_idle pc _ _ _ _ _ Href Hid).
    + rewrite eventLoop_cons_waiting by (by rewrite Ht, Hdue).
      assert (Hcase : ev = GatheringStateChange IceComplete
                      \/ ev <> GatheringStateChange IceComplete)
        by (destruct ev as [c|[]|st|k]; first [by left | by right]).
      destruct Hcase as [->|Hev].
      * pose proof (onIceEvent_complete pc sessionId t d w Hw) as H. cbn zeta in H.
        destruct (onIceEvent pc sessionId t (GatheringStateChange IceComplete) w)
          as [[[]|e] w1] eqn:Hrun;
          cbn [fst snd] in H; destruct H as (Hn & Hin & Href); [|discriminate].
        rewrite (bind_normal _ _ _ _ _ Hrun).
        destruct (eventLoop_inert pc sessionId rest w1 Hin) as [? Hid].
        split; [assumption|]. exact (Refused_then_idle pc _ _ _ _ _ Href Hid).
      * pose proof (onIceEvent_waiting pc sessionId t ev d w Hw Hev) as H.
        cbn zeta in H.
        destruct (onIceEvent pc sessionId t ev w) as [[[]|e] w1] eqn:Hrun;
          cbn [fst snd] in H; destruct H as (Hn & Hw1 & Hid); [|discriminate].
        rewrite (bind_normal _ _ _ _ _ Hrun).
        destruct (IH w1 Hw1) as [? Href].
        split; [assumption|].
        assert (Heq : endOfWait d rest
                      = match ev with
                        | GatheringStateChange IceComplete => t
                        | _ => endOfWait d rest
                        end).
        { destruct ev as [c|[]|st|k]; try reflexivity. congruence. }
        rewrite <- Heq. exact (idle_then_Refused pc _ _ _ _ _ Hid Href).
Qed.

(** *** The executor *)

(** The SDP string [setupConnection] extracts from [sdpData]. *)
Definition offerOf (sdpData : SdpData) : option string :=
  match sdpData with
  | SdpString s => Some s
  | SdpObject sdp => sdp
  | SdpNull => None
  end.

(** The world in which the promise executor starts: a new promise, no
    timer, a new peer connection with its two receive-only transceivers. *)
Definition prepared (iceServers : option (list string)) (w : World) : World :=
  let pc := nextId w in
  {| svc := svc w;
     pcs := <[pc := {| closed := false; remoteDescription := None;
                       localDescription := None; iceGatheringState := IceNew;
                       onicegatheringstatechange := false |}]> (pcs w);
     timeoutVar := false; timerArmed := None; promise := Pending;
     settledAt := None; now := 0;
     nextId := S (nextId w);
     trace := trace w ++ [EvNewPeerConnection pc (iceServersOrDefault iceServers);
                          EvAddTransceiver pc "video";
                          EvAddTransceiver pc "audio"] |}.

Lemma setupConnection_prepared env sdpData iceServers sessionId w offer :
  offerOf sdpData = Some offer ->
  truthyStr offer = true ->
  setupConnection env sdpData iceServers sessionId w =
  snd (tryCatch
         (bind (executor env (nextId w) offer sessionId)
               (fun _ => eventLoop (nextId w) sessionId (env_ice env)))
         (fun error => settle (Rejected error))
         (prepared iceServers w)).
Proof.
  intros Ho Ht. unfold setupConnection, prepared.
  destruct sdpData as [s|[s|]|]; cbn in Ho; try discriminate;
    injection Ho as ->;
    unfold tryCatch, bind, newCall, ret, newPeerConnection, emit; cbn;
    rewrite Ht; cbn; rewrite <- !app_assoc; reflexivity.
Qed.

Lemma prepared_pc iceServers w :
  pcs (prepared iceServers w) !! nextId w =
  Some {| closed := false; remoteDescription := None; localDescription := None;
          iceGatheringState := IceNew; onicegatheringstatechange := false |}.
Proof. unfold prepared. cbn. by rewrite lookup_insert_eq. Qed.

(** The first step of the negotiation that is rejected, if any, among
    setting the remote description, creating the answer and setting the
    local description. *)
Definition earlyFailure (env : Env) : option Error :=
  match env_setRemoteDescription env with
  | Rejects e => Some e
  | Hangs => None
  | Fulfils _ =>
      match env_createAnswer env with
      | Rejects e => Some e
      | Hangs => None
      | Fulfils _ =>
          match env_setLocalDescription env with
          | Rejects e => Some e
          | _ => None
          end
      end
  end.

(** One of these steps is reached and never settles. *)
Definition stalls (env : Env) : bool :=
  match env_setRemoteDescription env with
  | Rejects _ => false
  | Hangs => true
  | Fulfils _ =>
      match env_createAnswer env with
      | Rejects _ => false
      | Hangs => true
      | Fulfils _ =>
          match env_setLocalDescription env with
          | Hangs => true
          | _ => false
          end
      end
  end.

Lemma steps_cases env :
  (exists e, earlyFailure env = Some e)
  \/ stalls env = true
  \/ (earlyFailure env = None /\ stalls env = false
      /\ env_setRemoteDescription env = Fulfils tt
      /\ (exists created, env_createAnswer env = Fulfils created)
      /\ env_setLocalDescription env = Fulfils tt).
Proof.
  unfold earlyFailure, stalls.
  destruct (env_setRemoteDescription env) as [[]|e|]; eauto.
  destruct (env_createAnswer env) as [created|e|]; eauto.
  destruct (env_setLocalDescription env) as [[]|e|]; eauto.
  right. right. repeat split. by exists created.
Qed.

Lemma earlyFailure_not_stalls env e : earlyFailure env = Some e -> stalls env = false.
Proof.
  unfold earlyFailure, stalls.
  destruct (env_setRemoteDescription env) as [[]|?|]; try done.
  destruct (env_createAnswer env) as [?|?|]; try done.
  by destruct (env_setLocalDescription env) as [[]|?|].
Qed.

Section Executor.

Context (env : Env) (pc : handle) (offer sessionId : string) (w : World)
  (p : PeerConnection).
Hypothesis Hp : pcs w !! pc = Some p.
Hypothesis Hc : closed p = false.
Hypothesis Hh : onicegatheringstatechange p = false.
Hypothesis Hv : timeoutVar w = false.
Hypothesis Ht : timerArmed w = None.
Hypothesis Hpend : promise w = Pending.

Lemma executor_early_failure e :
  earlyFailure env = Some e ->
  let r := executor env pc offer sessionId w in
  fst r = Normal tt
  /\ Inert pc (snd r)
  /\ promise (snd r) = Rejected e
  /\ closedOf (snd r) pc = Some false
  /\ peerConnection (svc (snd r)) = peerConnection (svc w)
  /\ exists t, trace (snd r) = trace w ++ t /\ existsb isClose t = false.
Proof using All.
  intros He. cbn zeta. unfold earlyFailure in He.
  unfold executor, Inert, closedOf.
  destruct (env_setRemoteDescription env) as [[]|e1|]; [|injection He as ->|discriminate].
  2:{ rtc_run. rewrite Hv, Hpend. cbn [fst snd]. rtc_fields.
      rewrite lookup_alter_eq, Hp. cbn. rewrite Hc, Ht. repeat split; eauto. }
  destruct (env_createAnswer env) as [created|e2|]; [|injection He as ->|discriminate].
  2:{ rtc_run. rewrite Hv, Hpend. cbn [fst snd]. rtc_fields.
      rewrite !lookup_alter_eq, Hp. cbn. rewrite Hc, Ht. repeat split; eauto.
      eexists. rewrite <- app_assoc. split; reflexivity. }
  destruct (env_setLocalDescription env) as [[]|e3|]; [discriminate| |discriminate].
  injection He as ->. rtc_run. rewrite Hv, Hpend. cbn [fst snd]. rtc_fields.
  rewrite !lookup_alter_eq, Hp. cbn. rewrite Hc, Ht. repeat split; eauto.
  eexists. rewrite <- !app_assoc. split; reflexivity.
Qed.

(** A step that never settles leaves the promise pending with no timer
    armed and no handler installed. *)
Lemma executor_stalls :
  stalls env = true ->
  let r := executor env pc offer sessionId w in
  fst r = Normal tt
  /\ Inert pc (snd r)
  /\ promise (snd r) = Pending
  /\ peerConnection (svc (snd r)) = peerConnection (svc w).
Proof using All.
  intros Hs. cbn zeta. unfold stalls in Hs. unfold executor, Inert.
  destruct (env_setRemoteDescription env) as [[]|e1|]; [|discriminate|].
  2:{ rtc_run. cbn [fst snd]. rtc_fields. repeat split; eauto. }
  destruct (env_createAnswer env) as [created|e2|]; [|discriminate|].
  2:{ rtc_run. cbn [fst snd]. rtc_fields. rewrite lookup_alter_eq, Hp.
      repeat split; eauto. }
  destruct (env_setLocalDescription env) as [[]|e3|]; [discriminate|discriminate|].
  rtc_run. cbn [fst snd]. rtc_fields. rewrite lookup_alter_eq, Hp.
  repeat split; eauto.
Qed.

(** The world when the local description is set. *)
Definition described (created : string) : World :=
  {| svc := svc w;
     pcs := alter (setGathering (env_gatheringAfterLocal env)) pc
              (alter (setLocal (Some {| answer := created; candidates := [] |})) pc
                 (alter (setRemote offer) pc (pcs w)));
     timeoutVar := timeoutVar w; timerArmed := timerArmed w;
     promise := promise w; settledAt := settledAt w;
     now := env_localSetAt env; nextId := nextId w;
     trace := trace w ++ [EvSetRemoteDescription pc offer; EvCreateAnswer pc;
                          EvSetLocalDescription pc created] |}.

Lemma executor_described created :
  env_setRemoteDescription env = Fulfils tt ->
  env_createAnswer env = Fulfils created ->
  env_setLocalDescription env = Fulfils tt ->
  executor env pc offer sessionId w
  = tryCatch (afterLocalDescription pc sessionId) (onRejected pc) (described created).
Proof using All.
  intros H1 H2 H3.
  remember (executor env pc offer sessionId w) as r eqn:Hr.
  unfold executor in Hr. rewrite H1, H2, H3 in Hr.
  cbv [bind emit andThen updatePc setNow] in Hr.
  cbn [svc pcs timeoutVar timerArmed promise settledAt now nextId trace] in Hr.
  rewrite <- !app_assoc in Hr. cbn [app] in Hr.
  exact Hr.
Qed.

Lemma described_pc created :
  pcs (described created) !! pc
  = Some {| closed := false; remoteDescription := Some offer;
            localDescription := Some {| answer := created; candidates := [] |};
            iceGatheringState := env_gatheringAfterLocal env;
            onicegatheringstatechange := false |}.
Proof using All.
  unfold described. rtc_fields. rewrite !lookup_alter_eq, Hp.
  unfold setGathering, setLocal, setRemote. cbn. by rewrite Hc, Hh.
Qed.

Lemma executor_waits created :
  env_setRemoteDescription env = Fulfils tt ->
  env_createAnswer env = Fulfils created ->
  env_setLocalDescription env = Fulfils tt ->
  isComplete (env_gatheringAfterLocal env) = false ->
  let r := executor env pc offer sessionId w in
  fst r = Normal tt
  /\ Waiting pc (env_localSetAt env + 15000) (snd r)
  /\ svc (snd r) = svc w
  /\ trace (snd r) =
       trace w ++ [EvSetRemoteDescription pc offer; EvCreateAnswer pc;
                   EvSetLocalDescription pc created; EvSetTimeout 15000].
Proof using All.
  intros H1 H2 H3 Hg. cbn zeta. rewrite (executor_described created H1 H2 H3).
  unfold afterLocalDescription. cbv [tryCatch bind getWorld].
  rewrite described_pc. cbn [iceGatheringState]. rewrite Hg.
  cbv [bind updatePc emit setTimer]. cbn [fst snd]. unfold Waiting. rtc_fields.
  rewrite lookup_alter_eq, described_pc. unfold described. rtc_fields.
  rewrite Hpend, <- !app_assoc. repeat split.
  eexists. split; [reflexivity|]. cbn. repeat split. by eexists.
Qed.

(** When gathering is already complete once the local description is
    set, [sendAnswerToHeyGen] runs from the [then] callback itself. *)
Lemma executor_complete created :
  env_setRemoteDescription env = Fulfils tt ->
  env_createAnswer env = Fulfils created ->
  env_setLocalDescription env = Fulfils tt ->
  isComplete (env_gatheringAfterLocal env) = true ->
  let r := executor env pc offer sessionId w in
  fst r = Normal tt
  /\ Inert pc (snd r)
  /\ Refused pc (env_localSetAt env)
       [EvSetRemoteDescription pc offer; EvCreateAnswer pc;
        EvSetLocalDescription pc created; EvClose pc] w (snd r).
Proof using All.
  intros H1 H2 H3 Hg. cbn zeta. rewrite (executor_described created H1 H2 H3).
  assert (Hrun : afterLocalDescription pc sessionId (described created)
                 = sendAnswerToHeyGen pc sessionId (described created)).
  { unfold afterLocalDescription. cbv [bind getWorld].
    rewrite described_pc. cbn [iceGatheringState]. by rewrite Hg. }
  unfold tryCatch. rewrite Hrun.
  rewrite (sendAnswerToHeyGen_run pc sessionId (described created) _ _
             (described_pc created) eq_refl Hpend).
  cbn [fst snd]. split; [reflexivity|].
  unfold answerRefused, Inert, Refused, closedOf. rtc_fields.
  rewrite !lookup_alter_eq, described_pc. unfold described. rtc_fields.
  rewrite Hv, Ht. cbn [fmap option_fmap option_map]. 
  split; [split; [reflexivity|eauto]|].
  repeat split. rewrite <- !app_assoc. cbn [app]. by rewrite browserCalls_app.
Qed.

End Executor.

(** *** Whole negotiations *)

Section Runs.

Context (env : Env) (sdpData : SdpData) (iceServers : option (list string))
  (sessionId : string) (w : World) (offer : string).
Hypothesis Ho : offerOf sdpData = Some offer.
Hypothesis Hoffer : truthyStr offer = true.

Let w0 := prepared iceServers w.
Let pc := nextId w.

Lemma negotiation_early_run e :
  earlyFailure env = Some e ->
  let w' := setupConnection env sdpData iceServers sessionId w in
  promise w' = Rejected e
  /\ closedOf w' pc = Some false
  /\ peerConnection (svc w') = peerConnection (svc w)
  /\ exists t, trace w' = trace w0 ++ t /\ existsb isClose t = false.
Proof.
  intros He. cbn zeta.
  rewrite (setupConnection_prepared env sdpData iceServers sessionId w offer Ho Hoffer).
  fold w0 pc.
  pose proof (executor_early_failure env pc offer sessionId w0 _
                (prepared_pc iceServers w) eq_refl eq_refl eq_refl eq_refl eq_refl
                e He) as H.
  cbn zeta in H. unfold tryCatch.
  destruct (executor env pc offer sessionId w0) as [[[]|e1] w1] eqn:Hex;
    cbn [fst snd] in H; destruct H as (Hn & Hin & Hpr & Hcl & Hsv & t & Htr & Hnc);
    [|discriminate].
  rewrite (bind_normal _ _ _ _ _ Hex).
  pose proof (eventLoop_inert pc sessionId (env_ice env) w1 Hin) as H.
  cbn zeta in H.
  destruct (eventLoop pc sessionId (env_ice env) w1) as [[[]|e2] w2];
    cbn [fst snd] in *; destruct H as (Hn2 & I1 & _ & _ & I4 & I5 & t2 & I6 & I7);
    [|discriminate].
  change (svc w0) with (svc w) in Hsv.
  repeat split; [congruence|congruence|congruence|].
  exists (t ++ t2). rewrite I6, Htr, <- app_assoc. split; [reflexivity|].
  by rewrite existsb_app, Hnc, (callbacks_not_close _ I7).
Qed.

Lemma negotiation_stalled_run :
  stalls env = true ->
  let w' := setupConnection env sdpData iceServers sessionId w in
  promise w' = Pending
  /\ timerArmed w' = None
  /\ peerConnection (svc w') = peerConnection (svc w).
Proof.
  intros Hs. cbn zeta.
  rewrite (setupConnection_prepared env sdpData iceServers sessionId w offer Ho Hoffer).
  fold w0 pc.
  pose proof (executor_stalls env pc offer sessionId w0 _
                (prepared_pc iceServers w) eq_refl eq_refl eq_refl eq_refl eq_refl
                Hs) as H.
  cbn zeta in H. unfold tryCatch.
  destruct (executor env pc offer sessionId w0) as [[[]|e1] w1] eqn:Hex;
    cbn [fst snd] in H; destruct H as (Hn & Hin & Hpr & Hsv); [|discriminate].
  rewrite (bind_normal _ _ _ _ _ Hex).
  pose proof (eventLoop_inert pc sessionId (env_ice env) w1 Hin) as H.
  cbn zeta in H. destruct Hin as [Hta _].
  destruct (eventLoop pc sessionId (env_ice env) w1) as [[[]|e2] w2];
    cbn [fst snd] in *; destruct H as (Hn2 & I1 & _ & I3 & _ & I5 & _);
    [|discriminate].
  change (svc w0) with (svc w) in Hsv.
  repeat split; congruence.
Qed.

Lemma negotiation_complete_run created :
  env_setRemoteDescription env = Fulfils tt ->
  env_createAnswer env = Fulfils created ->
  env_setLocalDescription env = Fulfils tt ->
  isComplete (env_gatheringAfterLocal env) = true ->
  Refused pc (env_localSetAt env)
    [EvSetRemoteDescription pc offer; EvCreateAnswer pc;
     EvSetLocalDescription pc created; EvClose pc]
    w0 (setupConnection env sdpData iceServers sessionId w).
Proof.
  intros H1 H2 H3 Hg.
  rewrite (setupConnection_prepared env sdpData iceServers sessionId w offer Ho Hoffer).
  fold w0 pc.
  pose proof (executor_complete env pc offer sessionId w0 _
                (prepared_pc iceServers w) eq_refl eq_refl eq_refl eq_refl eq_refl
                created H1 H2 H3 Hg) as H.
  cbn zeta in H. unfold tryCatch.
  destruct (executor env pc offer sessionId w0) as [[[]|e1] w1] eqn:Hex;
    cbn [fst snd] in H; destruct H as (Hn & Hin & Href); [|discriminate].
  rewrite (bind_normal _ _ _ _ _ Hex).
  pose proof (eventLoop_inert pc sessionId (env_ice env) w1 Hin) as H.
  cbn zeta in H.
  destruct (eventLoop pc sessionId (env_ice env) w1) as [[[]|e2] w2];
    cbn [fst snd] in *; destruct H as (Hn2 & Hid); [|discriminate].
  exact (Refused_then_idle pc _ _ _ _ _ Href Hid).
Qed.

Lemma negotiation_waiting_run created :
  env_setRemoteDescription env = Fulfils tt ->
  env_createAnswer env = Fulfils created ->
  env_setLocalDescription env = Fulfils tt ->
  isComplete (env_gatheringAfterLocal env) = false ->
  Refused pc (endOfWait (env_localSetAt env + 15000) (env_ice env))
    [EvSetRemoteDescription pc offer; EvCreateAnswer pc;
     EvSetLocalDescription pc created; EvSetTimeout 15000;
     EvClearTimeout; EvClose pc]
    w0 (setupConnection env sdpData iceServers sessionId w).
Proof.
  intros H1 H2 H3 Hg.
  rewrite (setupConnection_prepared env sdpData iceServers sessionId w offer Ho Hoffer).
  fold w0 pc.
  pose proof (executor_waits env pc offer sessionId w0 _
                (prepared_pc iceServers w) eq_refl eq_refl eq_refl eq_refl eq_refl
                created H1 H2 H3 Hg) as H.
  cbn zeta in H. unfold tryCatch.
  destruct (executor env pc offer sessionId w0) as [[[]|e1] w1] eqn:Hex;
    cbn [fst snd] in H; destruct H as (Hn & Hw & Hsv & Htr); [|discriminate].
  rewrite (bind_normal _ _ _ _ _ Hex).
  pose proof (eventLoop_waiting pc sessionId (env_ice env) _ w1 Hw) as H.
  cbn zeta in H.
  destruct (eventLoop pc sessionId (env_ice env) w1) as [[[]|e2] w2];
    cbn [fst snd] in *; destruct H as (Hn2 & R1 & R2 & R3 & R4 & R5); [|discriminate].
  repeat split; try congruence.
  rewrite R5, Htr, browserCalls_app, <- app_assoc. reflexivity.
Qed.

End Runs.

(** C7 on the code.  When setting the remote description, creating the
    answer or setting the local description fails, the negotiation rejects
    with that error while the peer connection is still open: [close] is
    never called on it. *)
Theorem early_failure_rejects_without_close
    env sdpData iceServers sessionId w offer e :
  offerOf sdpData = Some offer ->
  truthyStr offer = true ->
  earlyFailure env = Some e ->
  let w' := setupConnection env sdpData iceServers sessionId w in
  promise w' = Rejected e
  /\ closedOf w' (nextId w) = Some false
  /\ exists t, trace w' = trace (prepared iceServers w) ++ t
              /\ existsb isClose t = false.
Proof.
  intros Ho Ht He.
  destruct (negotiation_early_run env sdpData iceServers sessionId w offer Ho Ht e He)
    as (H1 & H2 & _ & H4).
  by repeat split.
Qed.

(** A negotiation whose offer the browser cannot parse. *)
Definition malformedOfferEnv : Env := {|
  env_setRemoteDescription := Rejects "Failed to parse SessionDescription";
  env_createAnswer := Fulfils "v=0 answer";
  env_setLocalDescription := Fulfils tt;
  env_localSetAt := 40;
  env_gatheringAfterLocal := IceGathering;
  env_ice := []
|}.

Lemma early_failure_rejects_without_close_witness :
  offerOf (SdpString "not an sdp") = Some "not an sdp"
  /\ truthyStr "not an sdp" = true
  /\ earlyFailure malformedOfferEnv = Some "Failed to parse SessionDescription"
  /\ promise (setupConnection malformedOfferEnv (SdpString "not an sdp") None
                "session-1" initialWorld)
       = Rejected "Failed to parse SessionDescription"
  /\ closedOf (setupConnection malformedOfferEnv (SdpString "not an sdp") None
                 "session-1" initialWorld) 1%nat = Some false.
Proof.
  do 3 (split; [reflexivity|]).
  pose proof (early_failure_rejects_without_close malformedOfferEnv
                (SdpString "not an sdp") None "session-1" initialWorld
                "not an sdp" "Failed to parse SessionDescription"
                eq_refl eq_refl eq_refl) as H.
  exact (conj (proj1 H) (proj1 (proj2 H))).
Defined.

(** The other failing step does close the connection: when submitting
    the answer fails, [close] is called before the promise is rejected. *)
Example failed_submission_closes_connection :
  let immediate :=
    {| env_setRemoteDescription := Fulfils tt;
       env_createAnswer := Fulfils "v=0 answer";
       env_setLocalDescription := Fulfils tt;
       env_localSetAt := 40;
       env_gatheringAfterLocal := IceComplete;
       env_ice := [] |} in
  let w' := setupConnection immediate (SdpString "v=0 offer") None "session-1"
              initialWorld in
  promise w' = Rejected "TypeError"
  /\ closedOf w' 1%nat = Some true
  /\ last (trace w') = Some (EvClose 1).
Proof. vm_compute. repeat split. Qed.

(** C6 on the code.  Take a negotiation whose offer is present and whose
    remote description, answer and local description succeed, and in which
    ICE gathering is not complete when the local description is set and
    never becomes complete afterwards.  The wait does end when the
    15000 ms timer fires, but not by submitting the answer:
    [sendAnswerToHeyGen] clears the timer and calls
    [heygenService.startSession], which is not a function; the [TypeError]
    is caught, the peer connection is closed and the promise is rejected
    with it, at the deadline.  Nothing is sent, the promise never resolves
    and the service does not record the connection. *)
Theorem negotiation_timeout_rejects
    env sdpData iceServers sessionId w offer created :
  offerOf sdpData = Some offer ->
  truthyStr offer = true ->
  env_setRemoteDescription env = Fulfils tt ->
  env_createAnswer env = Fulfils created ->
  env_setLocalDescription env = Fulfils tt ->
  isComplete (env_gatheringAfterLocal env) = false ->
  neverCompletes (env_ice env) = true ->
  let w' := setupConnection env sdpData iceServers sessionId w in
  let pc := nextId w in
  promise w' = Rejected "TypeError"
  /\ settledAt w' = Some (env_localSetAt env + 15000)
  /\ closedOf w' pc = Some true
  /\ peerConnection (svc w') = peerConnection (svc w)
  /\ browserCalls (trace w') =
       browserCalls (trace (prepared iceServers w)) ++
       [EvSetRemoteDescription pc offer; EvCreateAnswer pc;
        EvSetLocalDescription pc created; EvSetTimeout 15000;
        EvClearTimeout; EvClose pc].
Proof.
  intros Ho Ht H1 H2 H3 Hg Hnc. cbn zeta.
  destruct (negotiation_waiting_run env sdpData iceServers sessionId w offer Ho Ht
              created H1 H2 H3 Hg) as (R1 & R2 & R3 & R4 & R5).
  rewrite (endOfWait_never _ _ Hnc) in R2. by repeat split.
Qed.

(** A negotiation in which gathering stalls: two candidates arrive, the
    state never becomes complete, the connection is reported connected, a
    third candidate comes after the deadline. *)
Definition stalledEnv : Env := {|
  env_setRemoteDescription := Fulfils tt;
  env_createAnswer := Fulfils "v=0 answer";
  env_setLocalDescription := Fulfils tt;
  env_localSetAt := 40;
  env_gatheringAfterLocal := IceGathering;
  env_ice := [(120, Candidate 1); (130, GatheringStateChange IceGathering);
              (900, Candidate 2); (950, IceConnectionStateChange ConnectionConnected);
              (20000, Candidate 3)]
|}.

Lemma negotiation_timeout_rejects_witness :
  let w' := setupConnection stalledEnv (SdpObject (Some "v=0 offer")) None
              "session-1" initialWorld in
  promise w' = Rejected "TypeError"
  /\ settledAt w' = Some 15040
  /\ closedOf w' 1%nat = Some true.
Proof.
  intros w'.
  destruct (negotiation_timeout_rejects stalledEnv (SdpObject (Some "v=0 offer")) None
              "session-1" initialWorld "v=0 offer" "v=0 answer"
              eq_refl eq_refl eq_refl eq_refl eq_refl eq_refl eq_refl)
    as (H1 & H2 & H3 & _).
  by repeat split.
Defined.

(** The events of that negotiation: at 15040 ms the timer is cleared and
    the connection closed; no request is made in between. *)
Example stalled_negotiation_trace :
  trace (setupConnection stalledEnv (SdpObject (Some "v=0 offer")) None
           "session-1" initialWorld) =
  [EvNewPeerConnection 1 defaultIceServers;
   EvAddTransceiver 1 "video"; EvAddTransceiver 1 "audio";
   EvSetRemoteDescription 1 "v=0 offer"; EvCreateAnswer 1;
   EvSetLocalDescription 1 "v=0 answer"; EvSetTimeout 15000;
   EvClearTimeout; EvClose 1].
Proof. vm_compute. reflexivity. Qed.

(** X14.  Whatever the browser reports while candidates are gathered,
    a negotiation that reaches the wait (offer present, remote description,
    answer and local description set, gathering not yet complete) ends
    exactly once: when gathering is first reported complete, or when the
    15000 ms timer fires if that comes first or gathering never completes.
    At that moment the timer is cleared and [sendAnswerToHeyGen] fails on
    [heygenService.startSession]: the connection is closed once and the
    promise rejected with the [TypeError].  The calls on the browser are
    exactly the six listed after the set-up; reports that come before or
    after only reach the callbacks of the view, and the service never
    records the connection. *)
Theorem negotiation_wait_ends_once env sdpData iceServers sessionId w offer created :
  offerOf sdpData = Some offer ->
  truthyStr offer = true ->
  env_setRemoteDescription env = Fulfils tt ->
  env_createAnswer env = Fulfils created ->
  env_setLocalDescription env = Fulfils tt ->
  isComplete (env_gatheringAfterLocal env) = false ->
  let w' := setupConnection env sdpData iceServers sessionId w in
  let pc := nextId w in
  promise w' = Rejected "TypeError"
  /\ settledAt w' = Some (endOfWait (env_localSetAt env + 15000) (env_ice env))
  /\ closedOf w' pc = Some true
  /\ peerConnection (svc w') = peerConnection (svc w)
  /\ browserCalls (trace w') =
       browserCalls (trace (prepared iceServers w)) ++
       [EvSetRemoteDescription pc offer; EvCreateAnswer pc;
        EvSetLocalDescription pc created; EvSetTimeout 15000;
        EvClearTimeout; EvClose pc].
Proof.
  intros Ho Ht H1 H2 H3 Hg. cbn zeta.
  destruct (negotiation_waiting_run env sdpData iceServers sessionId w offer Ho Ht
              created H1 H2 H3 Hg) as (R1 & R2 & R3 & R4 & R5).
  by repeat split.
Qed.

(** A negotiation in which gathering completes after two candidates and
    before the deadline; the caller passed one ICE server and registered a
    connection-state callback. *)
Definition promptEnv : Env := {|
  env_setRemoteDescription := Fulfils tt;
  env_createAnswer := Fulfils "v=0 answer";
  env_setLocalDescription := Fulfils tt;
  env_localSetAt := 40;
  env_gatheringAfterLocal := IceGathering;
  env_ice := [(120, Candidate 1); (900, Candidate 2);
              (1000, IceConnectionStateChange ConnectionConnected);
              (1300, GatheringStateChange IceComplete); (1400, Candidate 3)]
|}.

Definition listeningWorld : World :=
  snd (setOnConnectionStateChangeCallback (Some 5%nat) initialWorld).

Lemma negotiation_wait_ends_once_witness :
  let w' := setupConnection promptEnv (SdpObject (Some "v=0 offer"))
              (Some ["turn:relay.example"]) "session-1" listeningWorld in
  promise w' = Rejected "TypeError" /\ settledAt w' = Some 1300.
Proof.
  intros w'.
  destruct (negotiation_wait_ends_once promptEnv (SdpObject (Some "v=0 offer"))
              (Some ["turn:relay.example"]) "session-1" listeningWorld
              "v=0 offer" "v=0 answer"
              eq_refl eq_refl eq_refl eq_refl eq_refl eq_refl) as (H1 & H2 & _).
  by split.
Defined.

(** The events of that negotiation: the caller's server list is used as
    given, the callback hears of the connection at 1000 ms, and at 1300 ms
    the timer is cleared and the connection closed. *)
Example prompt_negotiation_trace :
  let w' := setupConnection promptEnv (SdpObject (Some "v=0 offer"))
              (Some ["turn:relay.example"]) "session-1" listeningWorld in
  trace w' =
    [EvNewPeerConnection 1 ["turn:relay.example"];
     EvAddTransceiver 1 "video"; EvAddTransceiver 1 "audio";
     EvSetRemoteDescription 1 "v=0 offer"; EvCreateAnswer 1;
     EvSetLocalDescription 1 "v=0 answer"; EvSetTimeout 15000;
     EvConnectionStateChangeCallback 5 true;
     EvClearTimeout; EvClose 1]
  /\ isConnected (svc w') = true.
Proof. vm_compute. by split. Qed.

(** X15.  When gathering is already complete once the local description
    is set, [sendAnswerToHeyGen] runs at once, from the [then] callback: no
    timer is armed (and none cleared), no handler is installed, and the
    negotiation ends there, at the time the local description was set, with
    the connection closed and the promise rejected with the [TypeError] of
    the missing [heygenService.startSession].  What the browser reports
    afterwards only reaches the callbacks of the view. *)
Theorem gathering_already_complete env sdpData iceServers sessionId w offer created :
  offerOf sdpData = Some offer ->
  truthyStr offer = true ->
  env_setRemoteDescription env = Fulfils tt ->
  env_createAnswer env = Fulfils created ->
  env_setLocalDescription env = Fulfils tt ->
  isComplete (env_gatheringAfterLocal env) = true ->
  let w' := setupConnection env sdpData iceServers sessionId w in
  let pc := nextId w in
  promise w' = Rejected "TypeError"
  /\ settledAt w' = Some (env_localSetAt env)
  /\ closedOf w' pc = Some true
  /\ peerConnection (svc w') = peerConnection (svc w)
  /\ browserCalls (trace w') =
       browserCalls (trace (prepared iceServers w)) ++
       [EvSetRemoteDescription pc offer; EvCreateAnswer pc;
        EvSetLocalDescription pc created; EvClose pc].
Proof.
  intros Ho Ht H1 H2 H3 Hg. cbn zeta.
  destruct (negotiation_complete_run env sdpData iceServers sessionId w offer Ho Ht
              created H1 H2 H3 Hg) as (R1 & R2 & R3 & R4 & R5).
  by repeat split.
Qed.

(** A negotiation whose gathering is complete at once. *)
Definition completeEnv : Env := {|
  env_setRemoteDescription := Fulfils tt;
  env_createAnswer := Fulfils "v=0 answer";
  env_setLocalDescription := Fulfils tt;
  env_localSetAt := 40;
  env_gatheringAfterLocal := IceComplete;
  env_ice := [(120, Candidate 1); (130, GatheringStateChange IceComplete)]
|}.

Lemma gathering_already_complete_witness :
  let w' := setupConnection completeEnv (SdpString "v=0 offer") None
              "session-1" initialWorld in
  promise w' = Rejected "TypeError" /\ settledAt w' = Some 40.
Proof.
  intros w'.
  destruct (gathering_already_complete completeEnv (SdpString "v=0 offer") None
              "session-1" initialWorld "v=0 offer" "v=0 answer"
              eq_refl eq_refl eq_refl eq_refl eq_refl eq_refl) as (H1 & H2 & _).
  by split.
Defined.

(** Whether [sdpData] carries a non-empty SDP offer. *)
Definition offerPresent (sdpData : SdpData) : bool :=
  match offerOf sdpData with Some offer => truthyStr offer | None => false end.

(** The error of a call without offer: reading [sdp] off [null] or
    [undefined] is a [TypeError], every other [sdpData] without offer is
    refused by the check. *)
Definition offerError (sdpData : SdpData) : Error :=
  match sdpData with
  | SdpNull => "TypeError"
  | _ => "No SDP offer found in response"
  end.

Lemma setupConnection_without_offer env sdpData iceServers sessionId w :
  offerPresent sdpData = false ->
  let w' := setupConnection env sdpData iceServers sessionId w in
  promise w' = Rejected (offerError sdpData)
  /\ pcs w' = pcs w /\ nextId w' = nextId w /\ trace w' = trace w /\ svc w' = svc w.
Proof.
  intros H. cbn zeta. unfold offerPresent in H. unfold setupConnection, offerError.
  destruct sdpData as [s|[s|]|]; cbn in H;
    unfold tryCatch, bind, newCall, ret, throw, settle; cbn; rewrite ?H; cbn;
    by repeat split.
Qed.

(** X16.  Without an SDP offer ([sdpData] is [null] or [undefined], has
    no [sdp] property, or the offer is the empty string) the call rejects
    before anything is set up: no peer connection is created, nothing is
    asked of the browser or of the provider, and the service is left as it
    was. *)
Theorem setupConnection_rejects_missing_offer env sdpData iceServers sessionId w :
  offerPresent sdpData = false ->
  let w' := setupConnection env sdpData iceServers sessionId w in
  promise w' = Rejected (offerError sdpData)
  /\ pcs w' = pcs w /\ nextId w' = nextId w /\ trace w' = trace w /\ svc w' = svc w.
Proof. exact (setupConnection_without_offer env sdpData iceServers sessionId w). Qed.

Lemma setupConnection_rejects_missing_offer_witness :
  offerPresent (SdpObject None) = false
  /\ promise (setupConnection stalledEnv (SdpObject None) None "session-1" initialWorld)
     = Rejected "No SDP offer found in response".
Proof.
  split; [reflexivity|].
  destruct (setupConnection_rejects_missing_offer stalledEnv (SdpObject None) None
              "session-1" initialWorld eq_refl) as [H _].
  exact H.
Defined.

(** X17.  How a call of [setupConnection] can end.  It never resolves:
    every path that reaches [sendAnswerToHeyGen] fails on the missing
    [heygenService.startSession], so [this.peerConnection] is never
    assigned.  Its promise stays pending exactly when the offer is present
    and one of the browser's promises that is reached (setting the remote
    description, creating the answer, setting the local description) never
    settles; no timer is armed then, as the 15 s timeout is set only once
    the local description is in place.  In every other case the promise is
    rejected. *)
Theorem setupConnection_never_resolves env sdpData iceServers sessionId w :
  let w' := setupConnection env sdpData iceServers sessionId w in
  (promise w' = Pending <-> offerPresent sdpData = true /\ stalls env = true)
  /\ (promise w' = Pending -> timerArmed w' = None)
  /\ (forall pc, promise w' <> Resolved pc)
  /\ peerConnection (svc w') = peerConnection (svc w).
Proof.
  cbn zeta.
  assert (Hrej : forall e, 
            promise (setupConnection env sdpData iceServers sessionId w) = Rejected e ->
            (offerPresent sdpData = true /\ stalls env = true -> False) ->
            peerConnection (svc (setupConnection env sdpData iceServers sessionId w))
              = peerConnection (svc w) ->
            (promise (setupConnection env sdpData iceServers sessionId w) = Pending
             <-> offerPresent sdpData = true /\ stalls env = true)
            /\ (promise (setupConnection env sdpData iceServers sessionId w) = Pending
                -> timerArmed (setupConnection env sdpData iceServers sessionId w) = None)
            /\ (forall pc, promise (setupConnection env sdpData iceServers sessionId w)
                           <> Resolved pc)
            /\ peerConnection (svc (setupConnection env sdpData iceServers sessionId w))
               = peerConnection (svc w)).
  { intros e -> Hno Hsv. repeat split; try discriminate; try assumption.
    intros H. by destruct (Hno H). }
  destruct (offerPresent sdpData) eqn:Hoffer.
  2:{ destruct (setupConnection_without_offer env sdpData iceServers sessionId w Hoffer)
        as (Hp & _ & _ & _ & Hs).
      apply (Hrej _ Hp); [by intros []|by rewrite Hs]. }
  unfold offerPresent in Hoffer.
  destruct (offerOf sdpData) as [offer|] eqn:Ho; [|discriminate].
  destruct (steps_cases env) as [[e He]|[Hst|(He & Hst & H1 & [created H2] & H3)]].
  - destruct (negotiation_early_run env sdpData iceServers sessionId w offer Ho Hoffer
                e He) as (Hp & _ & Hs & _).
    apply (Hrej _ Hp); [|exact Hs].
    intros [_ Hst]. by rewrite (earlyFailure_not_stalls env e He) in Hst.
  - destruct (negotiation_stalled_run env sdpData iceServers sessionId w offer Ho Hoffer
                Hst) as (Hp & Hta & Hs).
    split; [split; [by split|intros _; exact Hp]|].
    split; [intros _; exact Hta|]. split; [|exact Hs].
    intros pc. rewrite Hp. discriminate.
  - assert (H : Refused (nextId w)
                  (if isComplete (env_gatheringAfterLocal env) then env_localSetAt env
                   else endOfWait (env_localSetAt env + 15000) (env_ice env))
                  (if isComplete (env_gatheringAfterLocal env)
                   then [EvSetRemoteDescription (nextId w) offer; EvCreateAnswer (nextId w);
                         EvSetLocalDescription (nextId w) created; EvClose (nextId w)]
                   else [EvSetRemoteDescription (nextId w) offer; EvCreateAnswer (nextId w);
                         EvSetLocalDescription (nextId w) created; EvSetTimeout 15000;
                         EvClearTimeout; EvClose (nextId w)])
                  (prepared iceServers w)
                  (setupConnection env sdpData iceServers sessionId w)).
    { destruct (isComplete (env_gatheringAfterLocal env)) eqn:Hg.
      - exact (negotiation_complete_run env sdpData iceServers sessionId w offer Ho Hoffer
                 created H1 H2 H3 Hg).
      - exact (negotiation_waiting_run env sdpData iceServers sessionId w offer Ho Hoffer
                 created H1 H2 H3 Hg). }
    destruct H as (Hp & _ & _ & Hs & _).
    apply (Hrej _ Hp); [|exact Hs].
    intros [_ Hst']. congruence.
Qed.

(** A browser whose [createAnswer] never settles. *)
Definition hangingEnv : Env := {|
  env_setRemoteDescription := Fulfils tt;
  env_createAnswer := Hangs;
  env_setLocalDescription := Fulfils tt;
  env_localSetAt := 40;
  env_gatheringAfterLocal := IceGathering;
  env_ice := [(120, Candidate 1); (20000, GatheringStateChange IceComplete)]
|}.

(** With it the negotiation hangs: the promise is still pending when
    every report has been handled, and nothing is armed to end the wait. *)
Example hanging_negotiation :
  let w' := setupConnection hangingEnv (SdpString "v=0 offer") None "session-1"
              initialWorld in
  promise w' = Pending /\ timerArmed w' = None
  /\ trace w' = [EvNewPeerConnection 1 defaultIceServers;
                 EvAddTransceiver 1 "video"; EvAddTransceiver 1 "audio";
                 EvSetRemoteDescription 1 "v=0 offer"; EvCreateAnswer 1].
Proof. vm_compute. by repeat split. Qed.



End WebRTCProofs.

(** ** Properties of the view's handlers *)

Module AppProofs.
Import HeyGenService HeyGenServiceProofs.

Lemma trimStart_blank (s : JsString) :
  forallb isWhiteSpace s = true -> trimStart s = [].
Proof.
  induction s as [|c r IH]; [reflexivity|].
  cbn [forallb trimStart]. intros H. apply andb_prop in H as [Hc Hr].
  rewrite Hc. exact (IH Hr).
Qed.

Lemma trim_blank (s : JsString) :
  forallb isWhiteSpace s = true -> trim s = [].
Proof.
  intros H. unfold trim. rewrite (trimStart_blank s H). reflexivity.
Qed.

(** The page after mount: nothing typed, no session. *)
Definition mountedPage : App.Page :=
  {| App.state := App.initialState; App.videoRef := Some 1%nat;
     App.world := mountedWorld |}.

(** A render in which the prompt box holds a space, a tab and a line
    feed. *)
Definition blankRender : App.State :=
  {| App.avatarId := App.avatarId App.initialState;
     App.voiceId := App.voiceId App.initialState;
     App.heygenConnected := true;
     App.activeSessions := 1%nat;
     App.prompt := [32; 9; 10]%N;
     App.loading := false;
     App.sessionId := Some "session-1";
     App.lastResponse := None;
     App.chatRefreshTrigger := 0%nat;
     App.isAvatarSpeaking := false;
     App.isVoiceMode := false;
     App.transcriptionBuffer := [] |}.

Definition blankPage : App.Page :=
  {| App.state := blankRender; App.videoRef := Some 1%nat;
     App.world := activeWorld |}.

(** C5, as the code has it.  For a prompt that is empty or made of
    white space only, the view's [sendPrompt] returns at once and without
    an error: the page is left exactly as it was, so no request to the
    backend and no [speak] is issued and no state changes. *)
Theorem sendPrompt_blank_is_ignored env (r : App.State) (p : App.Page) :
  forallb isWhiteSpace (App.prompt r) = true ->
  App.sendPrompt env r p = (Normal tt, p).
Proof.
  intros H. unfold App.sendPrompt. rewrite (trim_blank _ H). reflexivity.
Qed.

Lemma sendPrompt_blank_is_ignored_witness :
  forallb isWhiteSpace (App.prompt blankRender) = true
  /\ App.sendPrompt quietEnv blankRender blankPage = (Normal tt, blankPage).
Proof.
  split; [reflexivity | apply sendPrompt_blank_is_ignored; reflexivity].
Defined.

(** C5, as stated, fails twice over.  On a white-space prompt the view's
    [sendPrompt] does not fail: it returns normally.  And the service's
    [sendPrompt], which has no check of the text, forwards the same prompt
    to the backend and to the avatar. *)
Lemma blank_prompt_counterexample :
  forallb isWhiteSpace [32; 9; 10]%N = true
  /\ fst (App.sendPrompt quietEnv blankRender blankPage) = Normal tt
  /\ isNormal (fst (HeyGenService.sendPrompt quietEnv [32; 9; 10]%N activeWorld)) = true
  /\ trace (snd (HeyGenService.sendPrompt quietEnv [32; 9; 10]%N activeWorld)) =
       trace activeWorld ++
       [EvFetchSendPrompt [32; 9; 10]%N;
        EvSpeak 2 (Some [104; 105]%N) None (Some "session-1")].
Proof. vm_compute. repeat split. Qed.

(** *** Renewal *)

Definition pageTrace (p : App.Page) : list Event := trace (App.world p).

Lemma emitsOnly_service {X} Phi (m : M X) :
  emitsOnly trace Phi m -> emitsOnly pageTrace Phi (App.service m).
Proof.
  intros Hm p. destruct (Hm (App.world p)) as (t & E & F).
  exists t. unfold App.service, pageTrace.
  destruct (m (App.world p)) as [c w']. by cbn in *.
Qed.

Lemma emitsOnly_alert a v message :
  emitsOnly pageTrace (asksOnlyFor a v) (App.alert message).
Proof. apply emitsOnly_service, emitsOnly_emit. exact I. Qed.

Lemma emitsOnly_fetchActiveSessions env a v :
  emitsOnly pageTrace (asksOnlyFor a v) (App.fetchActiveSessions env).
Proof.
  unfold App.fetchActiveSessions.
  repeat emits_step;
    try (apply emitsOnly_service; first [apply emitsOnly_emit; exact I
                                        | apply emitsOnly_silent; by intros]).
Qed.

Lemma emitsOnly_closeHeyGenSession env a v :
  emitsOnly pageTrace (asksOnlyFor a v) (App.closeHeyGenSession env).
Proof.
  pose proof (emitsOnly_fetchActiveSessions env a v).
  unfold App.closeHeyGenSession.
  repeat emits_step.
  - apply emitsOnly_service, emitsOnly_closeSession.
  - apply emitsOnly_silent. intros p. by destruct (App.videoRef p).
Qed.

Lemma emitsOnly_createHeyGenSession env r :
  emitsOnly pageTrace (asksOnlyFor (App.avatarId r) (App.currentVoiceId r))
    (App.createHeyGenSession env r).
Proof.
  pose proof (emitsOnly_fetchActiveSessions env (App.avatarId r) (App.currentVoiceId r)).
  apply (emitsOnly_ext _ _ _
           (bind (App.setState (App.setLoading true))
                 (fun _ => App.createHeyGenSession_settle env (App.avatarId r)
                             (App.currentVoiceId r)))); [reflexivity|].
  unfold App.createHeyGenSession_settle.
  repeat emits_step.
  - apply emitsOnly_service, emitsOnly_createSessionWithBackend.
  - apply emitsOnly_alert.
Qed.

(** What a renewal asks of the provider: whenever the refresh callback
    of a render calls [createStartAvatar], it passes the avatar selected in
    that render and the voice the table gives for it. *)
Lemma refreshSession_asks_for_its_selection env r :
  emitsOnly pageTrace (asksOnlyFor (App.avatarId r) (App.currentVoiceId r))
    (App.refreshSession env r).
Proof.
  pose proof (emitsOnly_closeHeyGenSession env (App.avatarId r) (App.currentVoiceId r)).
  pose proof (emitsOnly_createHeyGenSession env r).
  unfold App.refreshSession.
  repeat emits_step.
  - apply emitsOnly_service, emitsOnly_emit. exact I.
  - apply emitsOnly_alert.
Qed.

(** So a renewal keeps the identity of the session it replaces as long as
    the selection of its render is still that session's. *)
Lemma renewal_keeps_identity_of_unchanged_selection env r p a v :
  currentAvatarId (svc (App.world p)) = Some a ->
  currentVoiceId (svc (App.world p)) = Some v ->
  App.avatarId r = a ->
  App.currentVoiceId r = v ->
  exists t,
    pageTrace (snd (App.refreshSession env r p)) = pageTrace p ++ t
    /\ Forall (asksOnlyFor a v) t.
Proof.
  intros _ _ <- <-. apply refreshSession_asks_for_its_selection.
Qed.

(** The user presses Start with Josh selected ... *)
Definition afterClick : App.Page :=
  snd (App.createHeyGenSession_issue (App.state mountedPage) mountedPage).

(** ... picks Anthony while the session is being created (the selector is
    locked only by [heygenConnected]) ... *)
Definition afterSelect : App.Page :=
  snd (App.handleAvatarChange (App.state afterClick)
         "Anthony_Chair_Sitting_public" afterClick).

(** ... and the call issued at the click settles: Josh's session is up. *)
Definition connectedPage : App.Page :=
  snd (App.createHeyGenSession_settle quietEnv "josh_lite3_20230714"
         "da04d9a268ac468887a68359908e55b7" afterSelect).

(** Nine minutes later the refresh armed by that render runs. *)
Definition renewedPage : App.Page :=
  snd (App.refreshSession quietEnv (App.state connectedPage) connectedPage).

(** C8 on the code.  The call issued at the click carries Josh's ids and
    the session it creates is Josh's; the render that follows arms the
    nine-minute refresh; when it runs, the close-then-create sequence asks
    the provider for Anthony with Anthony's voice. *)
Theorem renewal_after_selection_change :
  fst (App.createHeyGenSession_issue (App.state mountedPage) mountedPage)
    = Normal ("josh_lite3_20230714", "da04d9a268ac468887a68359908e55b7")
  /\ App.heygenConnected (App.state afterClick) = false
  /\ currentAvatarId (svc (App.world connectedPage)) = Some "josh_lite3_20230714"
  /\ currentVoiceId (svc (App.world connectedPage))
       = Some "da04d9a268ac468887a68359908e55b7"
  /\ option_map fst (App.sessionRefreshEffect quietEnv (App.state connectedPage))
       = Some 540000
  /\ trace (App.world renewedPage) =
       trace (App.world connectedPage) ++
       [EvClearInterval 3; EvStopAvatar 2; EvFetchUnregister (Some "session-1");
        EvFetchActiveSessions; EvSleep 1000;
        EvFetchToken; EvStopAvatar 2; EvNewStreamingAvatar 4 "token-1";
        EvCreateStartAvatar 4 "Anthony_Chair_Sitting_public"
          "0009aabefe3a4553bc581d837b6268cb";
        EvFetchRegister (Some "session-1") "Anthony_Chair_Sitting_public"
          "0009aabefe3a4553bc581d837b6268cb";
        EvSetInterval 5 30000; EvFetchActiveSessions]
  /\ currentAvatarId (svc (App.world renewedPage))
       = Some "Anthony_Chair_Sitting_public"
  /\ currentVoiceId (svc (App.world renewedPage))
       = Some "0009aabefe3a4553bc581d837b6268cb".
Proof. vm_compute. repeat split. Qed.

Local Open Scope js_scope.

(** *** Handlers that cannot fail *)

(** [yields Q m]: whenever [m] returns, the value it returns satisfies
    [Q]. *)
Definition yields {S A} (Q : A -> Prop) (m : Js S A) : Prop :=
  forall w, match fst (m w) with Normal a => Q a | Throw _ => True end.

Lemma yields_ret {S A} (Q : A -> Prop) (a : A) : Q a -> yields (S:=S) Q (ret a).
Proof. intros H w. exact H. Qed.

Lemma yields_throw {S A} (Q : A -> Prop) e : yields (S:=S) Q (throw e).
Proof. intros w. exact I. Qed.

Lemma yields_bind {S A B} (Q : B -> Prop) (m : Js S A) (k : A -> Js S B) :
  (forall a, yields Q (k a)) -> yields Q (bind m k).
Proof.
  intros Hk w. unfold bind. destruct (m w) as [[a|e] w1]; [apply Hk | exact I].
Qed.

Lemma yields_tryCatch {S A} (Q : A -> Prop) (m : Js S A) h :
  yields Q m -> (forall e, yields Q (h e)) -> yields Q (tryCatch m h).
Proof.
  intros Hm Hh w. specialize (Hm w). unfold tryCatch.
  destruct (m w) as [[a|e] w1]; [exact Hm | apply Hh].
Qed.

Ltac yields_step :=
  match goal with
  | |- yields _ (bind _ _) => apply yields_bind; intros ?
  | |- yields _ (tryCatch _ _) => apply yields_tryCatch; [|intros ?]
  | |- yields _ (ret _) => apply yields_ret
  | |- yields _ (throw _) => apply yields_throw
  | |- yields _ (match ?x with _ => _ end) => destruct x
  | |- yields _ (if ?b then _ else _) => destruct b
  end.

(** Whatever [createSessionWithBackend] resolves to has [success] set. *)
Lemma createSession_yields_success env a v :
  yields (fun sd => data_success sd = true) (createSessionWithBackend env a v).
Proof.
  unfold createSessionWithBackend, createSessionTry. repeat yields_step. reflexivity.
Qed.

(** [neverThrows m]: [m] returns, from every state. *)
Definition neverThrows {S A} (m : Js S A) : Prop :=
  forall w, isNormal (fst (m w)) = true.

Lemma neverThrows_ret {S A} (a : A) : neverThrows (S:=S) (ret a).
Proof. by intros w. Qed.

Lemma neverThrows_bind {S A B} (m : Js S A) (k : A -> Js S B) :
  neverThrows m -> (forall a, neverThrows (k a)) -> neverThrows (bind m k).
Proof.
  intros Hm Hk w. specialize (Hm w). unfold bind.
  destruct (m w) as [[a|e] w1]; [apply Hk | discriminate].
Qed.

Lemma neverThrows_tryCatch {S A} (m : Js S A) h :
  (forall e, neverThrows (h e)) -> neverThrows (tryCatch m h).
Proof.
  intros Hh w. unfold tryCatch. destruct (m w) as [[a|e] w1]; [reflexivity | apply Hh].
Qed.

Lemma neverThrows_tryFinally {S A} (m : Js S A) f :
  neverThrows m -> neverThrows (tryFinally m f).
Proof.
  intros Hm w. specialize (Hm w). unfold tryFinally. by destruct (m w).
Qed.

Lemma neverThrows_setState f : neverThrows (App.setState f).
Proof. by intros p. Qed.

Lemma neverThrows_alert message : neverThrows (App.alert message).
Proof. by intros p. Qed.

Lemma tryCatch_neverThrows {S A} (m : Js S A) h w :
  neverThrows m -> tryCatch m h w = m w.
Proof.
  intros Hm. specialize (Hm w). unfold tryCatch.
  by destruct (m w) as [[a|e] w1].
Qed.

Lemma neverThrows_fetchActiveSessions env : neverThrows (App.fetchActiveSessions env).
Proof. apply neverThrows_tryCatch. intros e. apply neverThrows_ret. Qed.

Lemma neverThrows_closeHeyGenSession env : neverThrows (App.closeHeyGenSession env).
Proof. apply neverThrows_tryCatch. intros e. apply neverThrows_ret. Qed.

Lemma neverThrows_createHeyGenSession env r : neverThrows (App.createHeyGenSession env r).
Proof.
  unfold App.createHeyGenSession, App.createHeyGenSession_issue,
    App.createHeyGenSession_settle.
  apply neverThrows_bind.
  - apply neverThrows_bind; [apply neverThrows_setState|intros _; apply neverThrows_ret].
  - intros args. apply neverThrows_tryFinally, neverThrows_tryCatch.
    intros e. apply neverThrows_alert.
Qed.

(** X18.  The refresh callback never reaches its [catch]: closing
    swallows its errors, the one-second wait cannot fail and creating
    reports its errors by itself.  So the callback always returns normally
    and is the plain sequence close, wait, create; the alert
    ["Session refresh failed. Please restart manually."] is dead code. *)
Theorem refreshSession_catch_is_dead env r p :
  App.refreshSession env r p =
    (App.closeHeyGenSession env >>
     App.service (sleep 1000) >>
     App.createHeyGenSession env r) p
  /\ fst (App.refreshSession env r p) = Normal tt.
Proof.
  assert (Hn : neverThrows (App.closeHeyGenSession env >>
                            App.service (sleep 1000) >>
                            App.createHeyGenSession env r)).
  { apply neverThrows_bind; [apply neverThrows_closeHeyGenSession|intros _].
    apply neverThrows_bind; [by intros q|intros _].
    apply neverThrows_createHeyGenSession. }
  unfold App.refreshSession. rewrite (tryCatch_neverThrows _ _ _ Hn).
  split; [reflexivity|].
  specialize (Hn p).
  by destruct ((App.closeHeyGenSession env >> App.service (sleep 1000) >>
                App.createHeyGenSession env r) p) as [[[]|e] p1].
Qed.

(** [fetchActiveSessions] touches only the session count of the view. *)
Lemma fetchActiveSessions_run env p :
  let res := App.fetchActiveSessions env p in
  fst res = Normal tt
  /\ App.videoRef (snd res) = App.videoRef p
  /\ App.loading (App.state (snd res)) = App.loading (App.state p)
  /\ App.heygenConnected (App.state (snd res)) = App.heygenConnected (App.state p)
  /\ App.sessionId (App.state (snd res)) = App.sessionId (App.state p)
  /\ App.isAvatarSpeaking (App.state (snd res)) = App.isAvatarSpeaking (App.state p)
  /\ App.avatarId (App.state (snd res)) = App.avatarId (App.state p)
  /\ App.voiceId (App.state (snd res)) = App.voiceId (App.state p)
  /\ App.prompt (App.state (snd res)) = App.prompt (App.state p)
  /\ videos (App.world (snd res)) = videos (App.world p)
  /\ svc (App.world (snd res)) = svc (App.world p)
  /\ trace (App.world (snd res)) = trace (App.world p) ++ [EvFetchActiveSessions].
Proof.
  cbn zeta. unfold App.fetchActiveSessions, tryCatch, bind, App.service, emit, ask,
    App.setActiveSessions, App.setState, throw, ret.
  cbn. destruct (env_activeSessions env (calls (App.world p))) as [n|e]; cbn;
    by repeat split.
Qed.

(** The page with another world of the service. *)
Definition withWorld (p : App.Page) (w : World) : App.Page :=
  {| App.state := App.state p; App.videoRef := App.videoRef p; App.world := w |}.

Definition withState (p : App.Page) (s : App.State) : App.Page :=
  {| App.state := s; App.videoRef := App.videoRef p; App.world := App.world p |}.

Lemma page_setState {X} f (k : unit -> App.A X) p :
  bind (App.setState f) k p = k tt (withState p (f (App.state p))).
Proof. reflexivity. Qed.

Lemma page_ret {X Y} (a : X) (k : X -> App.A Y) (p : App.Page) : bind (ret a) k p = k a p.
Proof. reflexivity. Qed.

Lemma page_bind {X Y Z} (m : App.A X) (f : X -> App.A Y) (g : Y -> App.A Z) p :
  bind (bind m f) g p = bind m (fun a => bind (f a) g) p.
Proof. unfold bind. destruct (m p) as [[a|e] p']; reflexivity. Qed.

Lemma page_service {X Y} (m : M X) (k : X -> App.A Y) p :
  bind (App.service m) k p =
  match m (App.world p) with
  | (Normal a, w1) => k a (withWorld p w1)
  | (Throw e, w1) => (Throw e, withWorld p w1)
  end.
Proof.
  unfold bind, App.service, withWorld. by destruct (m (App.world p)) as [[a|e] w1].
Qed.

(** X19.  [createHeyGenSession] never throws and always ends with
    [loading] reset.  The view is marked connected, with the session id the
    service reports, exactly when the service call resolved; when it
    rejected, the connection flag and the session id of the view are left
    as they were and the error is shown in an alert, after which nothing
    else is asked of anyone. *)
Theorem createHeyGenSession_total env r p :
  let created :=
    createSessionWithBackend env (App.avatarId r) (App.currentVoiceId r) (App.world p) in
  let res := App.createHeyGenSession env r p in
  let s' := App.state (snd res) in
  fst res = Normal tt
  /\ App.loading s' = false
  /\ match fst created with
     | Normal sessionData =>
         App.heygenConnected s' = true
         /\ App.sessionId s' = data_sessionId sessionData
         /\ trace (App.world (snd res)) = trace (snd created) ++ [EvFetchActiveSessions]
     | Throw e =>
         App.heygenConnected s' = App.heygenConnected (App.state p)
         /\ App.sessionId s' = App.sessionId (App.state p)
         /\ trace (App.world (snd res)) =
              trace (snd created) ++ [EvAlert ("Error creating session: " ++ e)]
     end.
Proof.
  cbn zeta.
  pose proof (createSession_yields_success env (App.avatarId r) (App.currentVoiceId r)
                (App.world p)) as Hok.
  destruct (App.createHeyGenSession env r p) as [c p'] eqn:Hr. cbn [fst snd].
  revert Hr.
  unfold App.createHeyGenSession, App.createHeyGenSession_issue,
    App.createHeyGenSession_settle.
  rewrite page_bind, page_setState, page_ret. cbn [fst snd].
  unfold tryFinally, tryCatch. rewrite page_service.
  change (App.world (withState p (App.setLoading true (App.state p))))
    with (App.world p).
  destruct (createSessionWithBackend env (App.avatarId r) (App.currentVoiceId r)
              (App.world p)) as [[sd|e] w1]; cbn [fst snd] in *.
  - rewrite Hok. unfold App.setSessionId, App.setHeygenConnected.
    rewrite !page_setState.
    match goal with |- context [App.fetchActiveSessions env ?q] =>
      pose proof (fetchActiveSessions_run env q) as H;
      destruct (App.fetchActiveSessions env q) as [c1 q1]
    end.
    cbn zeta in H. cbn [fst snd] in H.
    destruct H as (-> & _ & _ & Hc & Hs & _ & _ & _ & _ & _ & _ & Ht).
    intros [= <- <-]. cbn in *. by repeat split.
  - intros [= <- <-]. cbn. by repeat split.
Qed.

(** X20.  [closeHeyGenSession] never throws.  When the service's close
    resolves, the view forgets the session (no session id, not connected,
    not speaking), clears the source of its video element and refreshes the
    session count.  When the close rejects, nothing of that happens: the
    error is swallowed and the view is left exactly as it was, still marked
    connected to a session the service could not close. *)
Theorem closeHeyGenSession_total env p :
  let closed := closeSession env (App.world p) in
  let res := App.closeHeyGenSession env p in
  let s' := App.state (snd res) in
  fst res = Normal tt
  /\ match fst closed with
     | Normal _ =>
         App.sessionId s' = None
         /\ App.heygenConnected s' = false
         /\ App.isAvatarSpeaking s' = false
         /\ (forall v, App.videoRef p = Some v ->
               videoSrcObject (App.world (snd res)) v = None)
         /\ trace (App.world (snd res)) = trace (snd closed) ++ [EvFetchActiveSessions]
     | Throw _ =>
         snd res = {| App.state := App.state p; App.videoRef := App.videoRef p;
                      App.world := snd closed |}
     end.
Proof.
  cbn zeta.
  destruct (App.closeHeyGenSession env p) as [c0 p'] eqn:Hr. cbn [fst snd].
  revert Hr. unfold App.closeHeyGenSession, tryCatch. rewrite page_service.
  destruct (closeSession env (App.world p)) as [[c|e] w1]; cbn [fst snd].
  2:{ intros [= <- <-]. split; reflexivity. }
  set (p1 := withWorld p w1).
  set (p2 := match App.videoRef p with
             | Some v => snd (App.service (setSrcObject v None) p1)
             | None => p1
             end).
  assert (H2 : forall (k : unit -> App.A unit),
             bind (fun q : App.Page =>
                     match App.videoRef q with
                     | Some v => App.service (setSrcObject v None) q
                     | None => (Normal tt, q)
                     end) k p1 = k tt p2).
  { intros k. unfold bind. subst p2 p1. cbn [App.videoRef withWorld].
    by destruct (App.videoRef p). }
  rewrite H2. unfold App.setSessionId, App.setHeygenConnected, App.setIsAvatarSpeaking.
  rewrite !page_setState.
  match goal with |- context [App.fetchActiveSessions env ?q] =>
    pose proof (fetchActiveSessions_run env q) as H;
    destruct (App.fetchActiveSessions env q) as [c1 q1]
  end.
  cbn zeta in H. cbn [fst snd] in H.
  destruct H as (-> & _ & _ & Hc & Hs & Hsp & _ & _ & _ & Hv & _ & Ht).
  intros [= <- <-]. cbn in Hc, Hs, Hsp, Hv, Ht.
  split; [reflexivity|]. do 3 (split; [assumption|]).
  split.
  - intros v Hv1. unfold videoSrcObject. rewrite Hv. subst p2 p1.
    rewrite Hv1. cbn. rewrite lookup_alter_eq. by destruct (videos w1 !! v).
  - rewrite Ht. subst p2 p1. by destruct (App.videoRef p).
Qed.

(** *** Prompts from the view *)

(** The guard of the view's [sendPrompt]. *)
Definition promptIgnored (r : App.State) : bool :=
  negb (truthyJs (trim (App.prompt r))) || App.loading r.

(** X21.  The view's [sendPrompt] never throws.  When the prompt of
    the render is blank or a prompt is already in flight it does nothing.
    Otherwise it calls the service once, with the prompt of the render,
    and always ends with [loading] reset: on success the answer is stored
    with that prompt as its query, the chat history is told to refresh and
    the prompt box, the transcription buffer and the voice mode are reset;
    on failure the error is shown in an alert and the prompt box, the last
    answer and the refresh counter are left alone. *)
Theorem view_sendPrompt_total env r p :
  let sent := HeyGenService.sendPrompt env (App.prompt r) (App.world p) in
  let res := App.sendPrompt env r p in
  let s' := App.state (snd res) in
  fst res = Normal tt
  /\ if promptIgnored r then snd res = p
     else
       App.loading s' = false
       /\ match fst sent with
          | Normal result =>
              App.world (snd res) = snd sent
              /\ App.lastResponse s' =
                   Some {| App.query := App.prompt r;
                           App.response := result_response result;
                           App.used_knowledge_base := result_used_knowledge_base result |}
              /\ App.chatRefreshTrigger s' = S (App.chatRefreshTrigger (App.state p))
              /\ App.prompt s' = []
              /\ App.transcriptionBuffer s' = []
              /\ App.isVoiceMode s' = false
          | Throw e =>
              trace (App.world (snd res)) = trace (snd sent) ++ [EvAlert ("Error: " ++ e)]
              /\ App.lastResponse s' = App.lastResponse (App.state p)
              /\ App.chatRefreshTrigger s' = App.chatRefreshTrigger (App.state p)
              /\ App.prompt s' = App.prompt (App.state p)
          end.
Proof.
  cbn zeta.
  destruct (App.sendPrompt env r p) as [c p'] eqn:Hr. cbn [fst snd].
  revert Hr. unfold App.sendPrompt, promptIgnored.
  destruct (negb (truthyJs (trim (App.prompt r))) || App.loading r).
  { intros [= <- <-]. by split. }
  rewrite page_setState. unfold tryFinally, tryCatch. rewrite page_service.
  change (App.world (withState p (App.setLoading true (App.state p))))
    with (App.world p).
  destruct (HeyGenService.sendPrompt env (App.prompt r) (App.world p))
    as [[result|e] w1]; cbn [fst snd].
  - unfold App.setLastResponse, App.bumpChatRefreshTrigger, App.setPrompt,
      App.setTranscriptionBuffer, App.setIsVoiceMode.
    rewrite !page_setState. intros [= <- <-]. cbn. by repeat split.
  - intros [= <- <-]. cbn. by repeat split.
Qed.

(** Every prompt the computation sends to the backend is [q]. *)
Definition sendsOnly (q : JsString) (e : Event) : Prop :=
  match e with
  | EvFetchSendPrompt q' => q' = q
  | _ => True
  end.

Lemma emitsOnly_service_sendPrompt env q :
  emitsOnly trace (sendsOnly q) (HeyGenService.sendPrompt env q).
Proof.
  unfold HeyGenService.sendPrompt, provider_speak.
  repeat emits_step; first [exact I | reflexivity].
Qed.

Lemma emitsOnly_view_sendPrompt env r :
  emitsOnly pageTrace (sendsOnly (App.prompt r)) (App.sendPrompt env r).
Proof.
  unfold App.sendPrompt. repeat emits_step.
  - apply emitsOnly_service, emitsOnly_service_sendPrompt.
  - apply emitsOnly_service, emitsOnly_emit. exact I.
Qed.

(** X22.  A final transcription is put into the prompt box, and a
    timeout of 100 ms is armed whose callback is the [sendPrompt] of the
    render the handler belongs to.  That callback reads the prompt of its
    own render, not the transcription: whatever it sends to the backend is
    the prompt the box held before, and when the box was blank (or a prompt
    was in flight) in that render it sends nothing at all, from whatever
    page it runs on. *)
Theorem final_transcription_uses_render_prompt env r text p :
  let res := App.handleTranscriptionUpdate env r text true p in
  App.prompt (App.state (snd res)) = text
  /\ App.transcriptionBuffer (App.state (snd res)) = []
  /\ App.isVoiceMode (App.state (snd res)) = false
  /\ App.world (snd res) = App.world p
  /\ exists callback,
       fst res = Normal (Some (100, callback))
       /\ (forall q, exists t,
             pageTrace (snd (callback q)) = pageTrace q ++ t
             /\ Forall (sendsOnly (App.prompt r)) t)
       /\ (promptIgnored r = true -> forall q, callback q = (Normal tt, q)).
Proof.
  cbn zeta. unfold App.handleTranscriptionUpdate.
  do 4 (split; [reflexivity|]).
  exists (App.sendPrompt env r). split; [reflexivity|]. split.
  - apply emitsOnly_view_sendPrompt.
  - intros Hg q. unfold App.sendPrompt. unfold promptIgnored in Hg. by rewrite Hg.
Qed.

(** X23.  The Enter key is the Send button: [handleKeyPress] on
    [Enter] does exactly what [sendPrompt] does, also when the prompt is
    blank or a prompt is in flight (its own check repeats the guard of
    [sendPrompt]); every other key does nothing. *)
Theorem handleKeyPress_enter_is_sendPrompt env r key p :
  App.handleKeyPress env r key p =
  if String.eqb key "Enter" then App.sendPrompt env r p else (Normal tt, p).
Proof.
  unfold App.handleKeyPress, App.sendPrompt.
  destruct (String.eqb key "Enter"); [|reflexivity]. cbn [andb].
  destruct (App.loading r); cbn [negb andb]; [by rewrite orb_true_r|].
  by destruct (truthyJs (trim (App.prompt r))).
Qed.

(** *** Selecting an avatar *)

Lemma workingAvatars_have_voices :
  forallb (fun a => truthyStr (App.voice_id a)) App.workingAvatars = true.
Proof. reflexivity. Qed.

Lemma findAvatar_voice x a :
  App.findAvatar x = Some a -> App.id a = x /\ truthyStr (App.voice_id a) = true.
Proof.
  unfold App.findAvatar. intros H.
  pose proof (find_some _ _ H) as [Hin Hid].
  apply String.eqb_eq in Hid. split; [exact Hid|].
  pose proof workingAvatars_have_voices as Hall.
  rewrite forallb_forall in Hall. exact (Hall a Hin).
Qed.

(** X24.  Selecting an avatar of the table while no session is
    connected sets the avatar id and the voice id together, to the id and
    the voice of that table entry, so the voice the next session is created
    with is the selected avatar's own.  While a session is connected the
    selection is refused: an alert, and the state is untouched. *)
Theorem handleAvatarChange_selects_pair r selectedId a p :
  App.findAvatar selectedId = Some a ->
  let res := App.handleAvatarChange r selectedId p in
  fst res = Normal tt
  /\ if App.heygenConnected r
     then App.state (snd res) = App.state p
          /\ trace (App.world (snd res)) =
               trace (App.world p) ++
               [EvAlert "Please end the current session before changing avatars"]
     else App.avatarId (App.state (snd res)) = App.id a
          /\ App.voiceId (App.state (snd res)) = App.voice_id a
          /\ App.currentVoiceId (App.state (snd res)) = App.voice_id a
          /\ App.world (snd res) = App.world p.
Proof.
  intros Hfind. cbn zeta. destruct (findAvatar_voice _ _ Hfind) as [Hid Hvoice].
  unfold App.handleAvatarChange. destruct (App.heygenConnected r).
  - by repeat split.
  - rewrite Hfind, Hvoice.
    unfold bind, App.setAvatarId, App.setVoiceId, App.setState, App.currentVoiceId.
    cbn [fst snd App.state App.avatarId App.voiceId App.world].
    rewrite Hfind, Hvoice. by repeat split.
Qed.

Lemma handleAvatarChange_selects_pair_witness :
  App.findAvatar "Anthony_Chair_Sitting_public"
    = Some {| App.id := "Anthony_Chair_Sitting_public"; App.name := "Anthony";
              App.voice_id := "0009aabefe3a4553bc581d837b6268cb";
              App.gender := "male" |}
  /\ fst (App.handleAvatarChange (App.state mountedPage) "Anthony_Chair_Sitting_public"
            mountedPage) = Normal tt.
Proof.
  assert (H : App.findAvatar "Anthony_Chair_Sitting_public"
              = Some {| App.id := "Anthony_Chair_Sitting_public"; App.name := "Anthony";
                        App.voice_id := "0009aabefe3a4553bc581d837b6268cb";
                        App.gender := "male" |}) by reflexivity.
  split; [exact H|].
  destruct (handleAvatarChange_selects_pair (App.state mountedPage)
              "Anthony_Chair_Sitting_public" _ mountedPage H) as [Hn _].
  exact Hn.
Defined.

End AppProofs.

(** ** Properties of the room service *)

Module LiveKitProofs.
Import LiveKitService.
Local Open Scope js_scope.

(** *** Running a computation *)

Ltac room_fields :=
  cbn [svc timers nextId calls trace room isConnected onTrackCallback
       onConnectionStateChangeCallback onParticipantCallback sessionId
       participantMonitorInterval set_room set_isConnected set_onTrackCallback
       set_onConnectionStateChangeCallback set_onParticipantCallback
       set_sessionId set_participantMonitorInterval].

(** Unfold the monad and the primitive steps, and nothing else. *)
Ltac room_run :=
  cbv [tryCatch bind modify emit ask fresh addTimer removeTimer getSvc ret throw];
  room_fields.

(** *** What a computation leaves behind *)

(** [after P m Qn Qe]: run from a state in [P], [m] ends in [Qn] when it
    returns and in [Qe] when it throws. *)
Definition after {S A} (P : S -> Prop) (m : Js S A)
    (Qn : A -> S -> Prop) (Qe : S -> Prop) : Prop :=
  forall w, P w ->
    match m w with
    | (Normal a, w') => Qn a w'
    | (Throw _, w') => Qe w'
    end.

Lemma after_bind {S A B} P (m : Js S A) (k : A -> Js S B) R Qn Qe :
  after P m R Qe ->
  (forall a, after (R a) (k a) Qn Qe) ->
  after P (bind m k) Qn Qe.
Proof.
  intros Hm Hk w HP. specialize (Hm w HP). unfold bind.
  destruct (m w) as [[a|e] w']; [exact (Hk a w' Hm) | exact Hm].
Qed.

Lemma after_tryCatch {S A} P (m : Js S A) (h : Error -> Js S A) R Qn Qe :
  after P m Qn R ->
  (forall e, after R (h e) Qn Qe) ->
  after P (tryCatch m h) Qn Qe.
Proof.
  intros Hm Hh w HP. specialize (Hm w HP). unfold tryCatch.
  destruct (m w) as [[a|e] w']; [exact Hm | exact (Hh e w' Hm)].
Qed.

(** [preserves J m]: [J] holds when [m] ends, however it ends. *)
Definition preserves {S A} (J : S -> Prop) (m : Js S A) : Prop :=
  after J m (fun _ => J) J.

Lemma preserves_ret {S A} (J : S -> Prop) (a : A) : preserves J (ret a).
Proof. intros w H. exact H. Qed.

Lemma preserves_throw {S A} (J : S -> Prop) e : preserves J (throw (A:=A) e).
Proof. intros w H. exact H. Qed.

Lemma preserves_bind {S A B} (J : S -> Prop) (m : Js S A) (k : A -> Js S B) :
  preserves J m -> (forall a, preserves J (k a)) -> preserves J (bind m k).
Proof. intros. eapply after_bind; eauto. Qed.

Lemma preserves_tryCatch {S A} (J : S -> Prop) (m : Js S A) h :
  preserves J m -> (forall e, preserves J (h e)) -> preserves J (tryCatch m h).
Proof. intros. eapply after_tryCatch; eauto. Qed.

Lemma preserves_liftCompletion {S A} (J : S -> Prop) (c : Completion A) :
  preserves J (liftCompletion c).
Proof. destruct c; intros w H; exact H. Qed.

Lemma preserves_snd {S A} (J : S -> Prop) (m : Js S A) w :
  preserves J m -> J w -> J (snd (m w)).
Proof.
  intros Hm HJ. specialize (Hm w HJ). by destruct (m w) as [[a|e] w'].
Qed.

(** A predicate that reads neither the trace nor the call counter. *)
Definition Quiet (J : World -> Prop) : Prop :=
  forall w c tr,
    J w ->
    J {| svc := svc w; timers := timers w; nextId := nextId w;
         calls := c; trace := tr |}.

Lemma preserves_getSvc J : preserves J getSvc.
Proof. intros w H. exact H. Qed.

Lemma preserves_emit J e : Quiet J -> preserves J (emit e).
Proof. intros HQ w H. exact (HQ w _ _ H). Qed.

Lemma preserves_ask {A} J (f : nat -> A) : Quiet J -> preserves J (ask f).
Proof. intros HQ w H. exact (HQ w _ _ H). Qed.

Lemma preserves_call env J e : Quiet J -> preserves J (call env e).
Proof.
  intros HQ. unfold call.
  apply preserves_bind; [by apply preserves_emit|intros _].
  apply preserves_bind; [by apply preserves_ask|intros []].
  - apply preserves_throw.
  - apply preserves_ret.
Qed.

Lemma preserves_modify (J : World -> Prop) f :
  (forall w, J w ->
     J {| svc := f (svc w); timers := timers w; nextId := nextId w;
          calls := calls w; trace := trace w |}) ->
  preserves J (modify f).
Proof. intros Hf w H. exact (Hf w H). Qed.

(** *** The timers of the room service *)

Lemma room_elem_of_dropTimer id ts t :
  t ∈ dropTimer id ts <-> t ∈ ts /\ timerId t <> id.
Proof.
  unfold dropTimer. rewrite list_elem_of_filter.
  rewrite Is_true_true, negb_true_iff, Nat.eqb_neq. tauto.
Qed.

Lemma room_NoDup_dropTimer id ts :
  NoDup (timerId <$> ts) -> NoDup (timerId <$> dropTimer id ts).
Proof.
  induction ts as [|x r IH]; [intros; constructor|].
  cbn [fmap list_fmap]. rewrite NoDup_cons. intros [Hx Hr].
  unfold dropTimer. rewrite filter_cons. fold (dropTimer id r).
  destruct (decide _); [|auto].
  cbn [fmap list_fmap]. apply NoDup_cons. split; [|auto].
  intros Hin. apply Hx. apply list_elem_of_fmap in Hin as (t & Ht & Hin).
  apply room_elem_of_dropTimer in Hin as [Hin _]. apply list_elem_of_fmap. eauto.
Qed.

(** With distinct ids, [find] by id returns the timer of that id. *)
Lemma find_timer ts t :
  NoDup (timerId <$> ts) -> t ∈ ts ->
  find (fun x => Nat.eqb (timerId x) (timerId t)) ts = Some t.
Proof.
  induction ts as [|x r IH]; [by intros _ ?%elem_of_nil|].
  cbn [fmap list_fmap find]. rewrite NoDup_cons. intros [Hx Hr] Hin.
  apply elem_of_cons in Hin as [->|Hin].
  - by rewrite Nat.eqb_refl.
  - destruct (Nat.eqb_spec (timerId x) (timerId t)) as [Heq|_]; [|auto].
    destruct Hx. rewrite Heq. apply list_elem_of_fmap. eauto.
Qed.

Lemma find_timer_Some id ts t :
  find (fun x => Nat.eqb (timerId x) id) ts = Some t -> t ∈ ts /\ timerId t = id.
Proof.
  induction ts as [|x r IH]; [discriminate|]. cbn [find].
  destruct (Nat.eqb_spec (timerId x) id) as [Heq|_].
  - intros [= ->]. split; [apply list_elem_of_here | exact Heq].
  - intros H. destruct (IH H). split; [by apply list_elem_of_further | assumption].
Qed.

Definition isTick (k : Task) : bool :=
  match k with MonitorTick => true | _ => false end.

(** A timer that repeats and is not the one the service holds. *)
Definition Orphan (t : Timer) (w : World) : Prop :=
  t ∈ timers w /\ timerRepeats t = true
  /\ participantMonitorInterval (svc w) <> Some (timerId t).

(** Timer ids are handed out once; the intervals are the monitor ticks;
    the interval the service holds is pending.  With [Some t], [t] is in
    addition an orphan. *)
Definition RoomInv (o : option Timer) (w : World) : Prop :=
  NoDup (timerId <$> timers w)
  /\ (forall t, t ∈ timers w -> (timerId t < nextId w)%nat)
  /\ (forall t, t ∈ timers w -> timerRepeats t = isTick (timerTask t))
  /\ (forall id, participantMonitorInterval (svc w) = Some id ->
        exists t, t ∈ timers w /\ timerId t = id /\ timerRepeats t = true)
  /\ match o with Some t => Orphan t w | None => True end.

Lemma RoomInv_quiet o : Quiet (RoomInv o).
Proof. intros w c tr H. exact H. Qed.

Lemma RoomInv_weaken o w : RoomInv o w -> RoomInv None w.
Proof. intros (H1 & H2 & H3 & H4 & _). by repeat split. Qed.

(** The timers and the held interval are untouched, ids only grow. *)
Lemma RoomInv_ext o w w' :
  timers w' = timers w ->
  (nextId w <= nextId w')%nat ->
  participantMonitorInterval (svc w') = participantMonitorInterval (svc w) ->
  RoomInv o w -> RoomInv o w'.
Proof.
  intros Ht Hn Hk (H1 & H2 & H3 & H4 & H5). unfold RoomInv, Orphan in *.
  rewrite Ht, Hk. repeat split; try assumption.
  intros t Hin. specialize (H2 t Hin). lia.
Qed.

(** A timeout is added. *)
Lemma RoomInv_timeout o t w w' :
  timers w' = timers w ++ [t] ->
  timerId t = nextId w ->
  timerRepeats t = isTick (timerTask t) ->
  (nextId w < nextId w')%nat ->
  participantMonitorInterval (svc w') = participantMonitorInterval (svc w) ->
  RoomInv o w -> RoomInv o w'.
Proof.
  intros Ht Hid Hrep Hn Hk (H1 & H2 & H3 & H4 & H5). unfold RoomInv, Orphan in *.
  rewrite Ht, Hk. repeat split.
  - rewrite fmap_app. apply NoDup_app. repeat split.
    + exact H1.
    + intros x Hx Hx'. apply list_elem_of_fmap in Hx as (t' & -> & Hin).
      cbn in Hx'. apply list_elem_of_singleton in Hx'.
      specialize (H2 t' Hin). lia.
    + apply NoDup_singleton.
  - intros t' Hin. apply elem_of_app in Hin as [Hin|Hin].
    + specialize (H2 t' Hin). lia.
    + apply list_elem_of_singleton in Hin as ->. lia.
  - intros t' Hin. apply elem_of_app in Hin as [Hin|Hin]; [auto|].
    by apply list_elem_of_singleton in Hin as ->.
  - intros id Hid'. destruct (H4 id Hid') as (t' & Hin & Heq & Hr).
    exists t'. repeat split; [apply elem_of_app; by left | exact Heq | exact Hr].
  - destruct o as [t0|]; [|exact I]. destruct H5 as (Hin & Hr & Hne).
    repeat split; [apply elem_of_app; by left | exact Hr | exact Hne].
Qed.

(** The interval [t] is added and becomes the one the service holds. *)
Lemma RoomInv_interval o t w w' :
  timers w' = timers w ++ [t] ->
  timerId t = nextId w ->
  timerRepeats t = isTick (timerTask t) ->
  timerRepeats t = true ->
  (nextId w < nextId w')%nat ->
  participantMonitorInterval (svc w') = Some (timerId t) ->
  RoomInv o w -> RoomInv o w'.
Proof.
  intros Ht Hid Hrep Htrue Hn Hk (H1 & H2 & H3 & H4 & H5). unfold RoomInv, Orphan in *.
  rewrite Ht, Hk. repeat split.
  - rewrite fmap_app. apply NoDup_app. repeat split.
    + exact H1.
    + intros x Hx Hx'. apply list_elem_of_fmap in Hx as (t' & -> & Hin).
      cbn in Hx'. apply list_elem_of_singleton in Hx'.
      specialize (H2 t' Hin). lia.
    + apply NoDup_singleton.
  - intros t' Hin. apply elem_of_app in Hin as [Hin|Hin].
    + specialize (H2 t' Hin). lia.
    + apply list_elem_of_singleton in Hin as ->. lia.
  - intros t' Hin. apply elem_of_app in Hin as [Hin|Hin]; [auto|].
    by apply list_elem_of_singleton in Hin as ->.
  - intros id [= <-]. exists t. repeat split; [|exact Htrue].
    apply elem_of_app. right. by apply list_elem_of_singleton.
  - destruct o as [t0|]; [|exact I]. destruct H5 as (Hin & Hr & Hne).
    repeat split; [apply elem_of_app; by left | exact Hr |].
    intros [= Heq]. specialize (H2 t0 Hin). lia.
Qed.

(** The held interval is cleared and forgotten. *)
Lemma RoomInv_clear o id w w' :
  timers w' = dropTimer id (timers w) ->
  nextId w' = nextId w ->
  participantMonitorInterval (svc w) = Some id ->
  participantMonitorInterval (svc w') = None ->
  RoomInv o w -> RoomInv o w'.
Proof.
  intros Ht Hn Hk Hk' (H1 & H2 & H3 & H4 & H5). unfold RoomInv, Orphan in *.
  rewrite Ht, Hk', Hn. repeat split.
  - by apply room_NoDup_dropTimer.
  - intros t Hin. apply room_elem_of_dropTimer in Hin as [Hin _]. auto.
  - intros t Hin. apply room_elem_of_dropTimer in Hin as [Hin _]. auto.
  - intros id' [=].
  - destruct o as [t0|]; [|exact I]. destruct H5 as (Hin & Hr & Hne).
    repeat split; [|exact Hr|discriminate].
    apply room_elem_of_dropTimer. split; [exact Hin|]. congruence.
Qed.

(** A timeout that fired is gone. *)
Lemma RoomInv_fired o t w w' :
  t ∈ timers w ->
  timerRepeats t = false ->
  timers w' = dropTimer (timerId t) (timers w) ->
  nextId w' = nextId w ->
  participantMonitorInterval (svc w') = participantMonitorInterval (svc w) ->
  RoomInv o w -> RoomInv o w'.
Proof.
  intros Hin0 Hrep Ht Hn Hk (H1 & H2 & H3 & H4 & H5). unfold RoomInv, Orphan in *.
  rewrite Ht, Hk, Hn.
  assert (Huniq : forall t', t' ∈ timers w -> timerId t' = timerId t -> t' = t).
  { intros t' Hin' Heq.
    pose proof (find_timer _ _ H1 Hin0) as F1.
    pose proof (find_timer _ _ H1 Hin') as F2.
    rewrite Heq in F2. congruence. }
  repeat split.
  - by apply room_NoDup_dropTimer.
  - intros t' Hin. apply room_elem_of_dropTimer in Hin as [Hin _]. auto.
  - intros t' Hin. apply room_elem_of_dropTimer in Hin as [Hin _]. auto.
  - intros id Hid. destruct (H4 id Hid) as (t' & Hin & Heq & Hr).
    exists t'. repeat split; [|exact Heq|exact Hr].
    apply room_elem_of_dropTimer. split; [exact Hin|].
    intros Hsame. rewrite (Huniq t' Hin Hsame) in Hr. congruence.
  - destruct o as [t0|]; [|exact I]. destruct H5 as (Hin & Hr & Hne).
    repeat split; [|exact Hr|exact Hne].
    apply room_elem_of_dropTimer. split; [exact Hin|].
    intros Hsame. rewrite (Huniq t0 Hin Hsame) in Hr. congruence.
Qed.

(** *** Every step keeps the invariant *)

Ltac room_leaf :=
  let w := fresh "w" in let H := fresh "H" in
  intros w H; cbn;
  first [ exact H
        | apply (RoomInv_ext _ w); [reflexivity | cbn; lia | reflexivity | exact H] ].

Create HintDb room discriminated.

Ltac preserves_room :=
  repeat match goal with
  | H : preserves (RoomInv ?o) ?m |- preserves (RoomInv ?o) ?m => exact H
  | |- preserves (RoomInv _) _ => solve [auto 1 with room nocore]
  | |- preserves _ (bind _ _) => apply preserves_bind; [|intros ?]
  | |- preserves _ (tryCatch _ _) => apply preserves_tryCatch; [|intros ?]
  | |- preserves _ (liftCompletion _) => apply preserves_liftCompletion
  | |- preserves _ (match ?x with _ => _ end) => destruct x
  | |- preserves _ (if ?b then _ else _) => destruct b
  | |- preserves (RoomInv _) _ => solve [room_leaf]
  end.

Lemma inv_call o env e : preserves (RoomInv o) (call env e).
Proof. apply preserves_call, RoomInv_quiet. Qed.

#[local] Hint Resolve inv_call : room.

Lemma inv_notifyConnectionState o env x :
  preserves (RoomInv o) (notifyConnectionState env x).
Proof. unfold notifyConnectionState. preserves_room. Qed.

Lemma stopParticipantMonitoring_run w :
  stopParticipantMonitoring w
  = match participantMonitorInterval (svc w) with
    | Some id =>
        (Normal tt,
         {| svc := set_participantMonitorInterval None (svc w);
            timers := dropTimer id (timers w); nextId := nextId w;
            calls := calls w; trace := trace w ++ [EvClearInterval id] |})
    | None => (Normal tt, w)
    end.
Proof.
  unfold stopParticipantMonitoring. room_run.
  destruct (participantMonitorInterval (svc w)); [|reflexivity].
  unfold clearInterval. room_run. reflexivity.
Qed.

Lemma inv_stopParticipantMonitoring o :
  preserves (RoomInv o) stopParticipantMonitoring.
Proof.
  intros w H. rewrite stopParticipantMonitoring_run.
  destruct (participantMonitorInterval (svc w)) as [id|] eqn:Hk; [|exact H].
  apply (RoomInv_clear o id w); [reflexivity | reflexivity | exact Hk | reflexivity | exact H].
Qed.

Definition monitorTimer (id : nat) : Timer :=
  {| timerId := id; timerDelay := 5000; timerRepeats := true; timerTask := MonitorTick |}.

Definition stopTimer (id : nat) : Timer :=
  {| timerId := id; timerDelay := 120000; timerRepeats := false; timerTask := MonitorStop |}.

Definition checkTimer (id : nat) : Timer :=
  {| timerId := id; timerDelay := 8000; timerRepeats := false; timerTask := DelayedCheck |}.

(** Monitoring takes two fresh ids: the interval, then the timeout that
    ends it. *)
Definition monitoring (w : World) : World :=
  {| svc := set_participantMonitorInterval (Some (nextId w)) (svc w);
     timers := (timers w ++ [monitorTimer (nextId w)]) ++ [stopTimer (S (nextId w))];
     nextId := S (S (nextId w));
     calls := calls w;
     trace := (trace w ++ [EvSetInterval (nextId w) 5000])
                ++ [EvSetTimeout (S (nextId w)) 120000] |}.

Lemma startParticipantMonitoring_run w :
  startParticipantMonitoring w
  = match room (svc w) with
    | Some _ => (Normal tt, monitoring w)
    | None => (Normal tt, w)
    end.
Proof.
  unfold startParticipantMonitoring. room_run.
  destruct (room (svc w)); cbn [HeyGenService.isSome negb]; [|reflexivity].
  unfold setInterval, setTimeout. room_run. reflexivity.
Qed.

Lemma RoomInv_monitoring o w : RoomInv o w -> RoomInv o (monitoring w).
Proof.
  intros H.
  set (w1 := {| svc := set_participantMonitorInterval (Some (nextId w)) (svc w);
                timers := timers w ++ [monitorTimer (nextId w)];
                nextId := S (nextId w); calls := calls w; trace := trace w |}).
  assert (H1 : RoomInv o w1).
  { apply (RoomInv_interval o (monitorTimer (nextId w)) w);
      [reflexivity | reflexivity | reflexivity | reflexivity | cbn; lia
      | reflexivity | exact H]. }
  apply (RoomInv_timeout o (stopTimer (S (nextId w))) w1);
    [reflexivity | reflexivity | reflexivity | cbn; lia | reflexivity | exact H1].
Qed.

Lemma inv_startParticipantMonitoring o :
  preserves (RoomInv o) startParticipantMonitoring.
Proof.
  intros w H. rewrite startParticipantMonitoring_run.
  destruct (room (svc w)); [by apply RoomInv_monitoring | exact H].
Qed.

Lemma inv_setTimeout o task ms :
  isTick task = false -> preserves (RoomInv o) (setTimeout task ms).
Proof.
  intros Htask w H. unfold setTimeout. room_run.
  apply (RoomInv_timeout o
           {| timerId := nextId w; timerDelay := ms; timerRepeats := false;
              timerTask := task |} w);
    [reflexivity | reflexivity | cbn; by rewrite Htask | cbn; lia | reflexivity | exact H].
Qed.

#[local] Hint Resolve inv_notifyConnectionState inv_stopParticipantMonitoring
  inv_startParticipantMonitoring : room.

Lemma inv_monitorTick o env : preserves (RoomInv o) (monitorTick env).
Proof. unfold monitorTick, participantCount. preserves_room. Qed.

Lemma inv_delayedCheck o env : preserves (RoomInv o) (delayedCheck env).
Proof. unfold delayedCheck, participantCount. preserves_room. Qed.

Lemma inv_setupRoomEventListeners o : preserves (RoomInv o) setupRoomEventListeners.
Proof. unfold setupRoomEventListeners. preserves_room. Qed.

Lemma inv_newRoom o : preserves (RoomInv o) newRoom.
Proof. unfold newRoom. preserves_room. Qed.

#[local] Hint Resolve inv_setupRoomEventListeners inv_newRoom : room.

Lemma inv_connectToRoom o env d : preserves (RoomInv o) (connectToRoom env d).
Proof.
  unfold connectToRoom.
  apply preserves_tryCatch; [|intros e; preserves_room].
  destruct (livekit_url d) as [url|]; [|apply preserves_throw].
  destruct (access_token d) as [token|]; [|apply preserves_throw].
  destruct (negb (truthyStr url) || negb (truthyStr token)); [apply preserves_throw|].
  do 9 (apply preserves_bind; [preserves_room|intros ?]).
  apply preserves_bind; [by apply inv_setTimeout|intros ?].
  preserves_room.
Qed.

Lemma inv_disconnect o env : preserves (RoomInv o) (disconnect env).
Proof. unfold disconnect. preserves_room. Qed.

Lemma inv_handleTrack o env p : preserves (RoomInv o) (handleTrack env p).
Proof. unfold handleTrack. preserves_room. Qed.

#[local] Hint Resolve inv_handleTrack : room.

Lemma inv_handlePublications o env p pubs :
  preserves (RoomInv o) (handlePublications env p pubs).
Proof.
  induction pubs as [|b rest IH]; cbn [handlePublications]; preserves_room.
Qed.

#[local] Hint Resolve inv_handlePublications : room.

Lemma inv_onRoomEvent o env ev : preserves (RoomInv o) (onRoomEvent env ev).
Proof. destruct ev; cbn [onRoomEvent]; preserves_room. Qed.

Lemma inv_runTask o env t : preserves (RoomInv o) (runTask env t).
Proof.
  destruct t; cbn [runTask];
    [apply inv_delayedCheck | apply inv_monitorTick | apply inv_stopParticipantMonitoring].
Qed.

Lemma inv_fireTimer o env id : preserves (RoomInv o) (fireTimer env id).
Proof.
  intros w H. unfold fireTimer.
  destruct (find _ (timers w)) as [t|] eqn:Hf; [|exact H].
  apply find_timer_Some in Hf as [Hin Hid].
  destruct (timerRepeats t) eqn:Hrep.
  - exact (inv_runTask o env (timerTask t) w H).
  - apply (inv_runTask o env (timerTask t)).
    apply (RoomInv_fired o t w);
      [exact Hin | exact Hrep | cbn; by rewrite Hid | reflexivity | reflexivity | exact H].
Qed.

Lemma perform_RoomInv o env s w : RoomInv o w -> RoomInv o (perform env s w).
Proof.
  intros H. destruct s; cbn [perform]; apply preserves_snd; try exact H.
  - apply inv_connectToRoom.
  - apply inv_disconnect.
  - unfold setOnTrackCallback. room_leaf.
  - unfold setOnConnectionStateChangeCallback. room_leaf.
  - unfold setOnParticipantCallback. room_leaf.
  - apply inv_onRoomEvent.
  - apply inv_fireTimer.
Qed.

Lemma performAll_RoomInv o env steps w :
  RoomInv o w -> RoomInv o (performAll env steps w).
Proof.
  revert w. induction steps as [|s rest IH]; intros w H; [exact H|].
  cbn [performAll fold_left]. apply IH. by apply perform_RoomInv.
Qed.

Lemma initial_RoomInv : RoomInv None initialWorld.
Proof.
  repeat split; cbn.
  - constructor.
  - by intros t ?%elem_of_nil.
  - by intros t ?%elem_of_nil.
  - intros id [=].
Qed.

Lemma reachable_RoomInv env w : Reachable env w -> RoomInv None w.
Proof. intros [steps ->]. apply performAll_RoomInv, initial_RoomInv. Qed.

(** *** The runs of [connectToRoom] and [disconnect] *)

(** A notification only makes calls. *)
Definition SameState (w w' : World) : Prop :=
  svc w' = svc w /\ timers w' = timers w /\ nextId w' = nextId w.

Lemma notifyConnectionState_run env x w :
  notifyConnectionState env x w
  = match onConnectionStateChangeCallback (svc w) with
    | Some c =>
        (if env_callbackThrows env (calls w)
         then Throw "callback failed" else Normal tt,
         {| svc := svc w; timers := timers w; nextId := nextId w;
            calls := S (calls w);
            trace := trace w ++ [EvConnectionStateChangeCallback c x] |})
    | None => (Normal tt, w)
    end.
Proof.
  unfold notifyConnectionState. room_run.
  destruct (onConnectionStateChangeCallback (svc w)); [|reflexivity].
  unfold call. room_run. cbn [calls].
  destruct (env_callbackThrows env (calls w)); reflexivity.
Qed.

Lemma notifyConnectionState_same env x w :
  SameState w (snd (notifyConnectionState env x w)).
Proof.
  rewrite notifyConnectionState_run.
  by destruct (onConnectionStateChangeCallback (svc w)).
Qed.

(** The [catch] block of [connectToRoom]. *)
Definition connectFailed (env : Env) (error : Error) : M bool :=
  modify (set_isConnected false) >>
  notifyConnectionState env false >>
  throw error.

(** The room is created and listened to, and [connect] is called. *)
Definition roomCreated (d : SessionData) (url token : string) (w : World) : World :=
  {| svc := set_room (Some (nextId w)) (set_sessionId (session_id d) (svc w));
     timers := timers w;
     nextId := S (nextId w);
     calls := S (calls w);
     trace := trace w ++ [EvNewRoom (nextId w);
                          EvRoomOn (nextId w) "RoomEvent.ConnectionStateChanged";
                          EvRoomOn (nextId w) "RoomEvent.ParticipantConnected";
                          EvRoomOn (nextId w) "RoomEvent.ParticipantDisconnected";
                          EvRoomOn (nextId w) "RoomEvent.TrackSubscribed";
                          EvRoomOn (nextId w) "RoomEvent.TrackUnsubscribed";
                          EvRoomOn (nextId w) "RoomEvent.Disconnected";
                          EvRoomOn (nextId w) "RoomEvent.ConnectionError";
                          EvRoomConnect (nextId w) url token] |}.

Definition markConnected (w : World) : World :=
  {| svc := set_isConnected true (svc w); timers := timers w; nextId := nextId w;
     calls := calls w; trace := trace w |}.

(** The 8 s look at the participants is scheduled. *)
Definition checkScheduled (w : World) : World :=
  {| svc := svc w; timers := timers w ++ [checkTimer (nextId w)];
     nextId := S (nextId w); calls := calls w;
     trace := trace w ++ [EvSetTimeout (nextId w) 8000] |}.

Lemma connectToRoom_run env d w :
  connectToRoom env d w
  = match livekit_url d, access_token d with
    | Some url, Some token =>
        if negb (truthyStr url) || negb (truthyStr token)
        then connectFailed env "Missing LiveKit connection data from HeyGen" w
        else
          match env_connect env (calls w) with
          | Throw e => connectFailed env e (roomCreated d url token w)
          | Normal _ =>
              match notifyConnectionState env true
                      (markConnected (roomCreated d url token w)) with
              | (Throw e, w2) => connectFailed env e w2
              | (Normal _, w2) => (Normal true, monitoring (checkScheduled w2))
              end
          end
    | _, _ => connectFailed env "Missing LiveKit connection data from HeyGen" w
    end.
Proof.
  unfold connectToRoom, connectFailed.
  destruct (livekit_url d) as [url|]; [|room_run; reflexivity].
  destruct (access_token d) as [token|]; [|room_run; reflexivity].
  destruct (negb (truthyStr url) || negb (truthyStr token));
    [room_run; reflexivity|].
  unfold newRoom, setupRoomEventListeners, setTimeout.
  room_run. rewrite <- !app_assoc. cbn [app].
  unfold markConnected, roomCreated. room_fields.
  destruct (env_connect env (calls w)) as [[]|e]; cbn [liftCompletion];
    cbv [ret throw]; [|reflexivity].
  room_fields. rewrite !notifyConnectionState_run. room_fields.
  destruct (onConnectionStateChangeCallback (svc w)) as [c|] eqn:Hcb.
  - destruct (env_callbackThrows env (S (calls w))).
    + rewrite !notifyConnectionState_run. room_fields. rewrite Hcb. reflexivity.
    + rewrite startParticipantMonitoring_run. reflexivity.
  - rewrite startParticipantMonitoring_run. reflexivity.
Qed.

(** The [catch] block marks the service disconnected and rethrows, or
    throws what the callback threw. *)
Lemma connectFailed_run env e w :
  let r := connectFailed env e w in
  (exists e', fst r = Throw e')
  /\ svc (snd r) = set_isConnected false (svc w)
  /\ timers (snd r) = timers w
  /\ nextId (snd r) = nextId w.
Proof.
  unfold connectFailed. room_run.
  rewrite notifyConnectionState_run. room_fields.
  destruct (onConnectionStateChangeCallback (svc w));
    [destruct (env_callbackThrows env (calls w))|]; cbn; eauto.
Qed.

Lemma connectToRoom_returned env d w b :
  fst (connectToRoom env d w) = Normal b ->
  let w' := snd (connectToRoom env d w) in
  b = true
  /\ isConnected (svc w') = true
  /\ room (svc w') = Some (nextId w)
  /\ sessionId (svc w') = session_id d
  /\ participantMonitorInterval (svc w') = Some (S (S (nextId w)))
  /\ timers w'
     = timers w ++ [checkTimer (S (nextId w)); monitorTimer (S (S (nextId w)));
                    stopTimer (S (S (S (nextId w))))].
Proof.
  rewrite connectToRoom_run.
  assert (Hno : forall e w0, fst (connectFailed env e w0) = Normal b -> False).
  { intros e w0. destruct (connectFailed_run env e w0) as ([e' ->] & _). discriminate. }
  destruct (livekit_url d) as [url|]; [|by intros ?%Hno].
  destruct (access_token d) as [token|]; [|by intros ?%Hno].
  destruct (negb (truthyStr url) || negb (truthyStr token)); [by intros ?%Hno|].
  destruct (env_connect env (calls w)) as [[]|e]; [|by intros ?%Hno].
  pose proof (notifyConnectionState_same env true
                (markConnected (roomCreated d url token w))) as (Hs & Ht & Hn).
  destruct (notifyConnectionState env true _) as [[[]|e] w2]; cbn [snd] in Hs, Ht, Hn;
    [|by intros ?%Hno].
  cbn [fst snd]. intros [= <-]. unfold monitoring, checkScheduled. room_fields.
  rewrite Hs, Ht, Hn. cbn. rewrite <- !app_assoc. by repeat split.
Qed.

Lemma connectToRoom_threw env d w e :
  fst (connectToRoom env d w) = Throw e ->
  let w' := snd (connectToRoom env d w) in
  isConnected (svc w') = false
  /\ timers w' = timers w
  /\ participantMonitorInterval (svc w') = participantMonitorInterval (svc w)
  /\ ((room (svc w') = room (svc w) /\ sessionId (svc w') = sessionId (svc w))
      \/ (room (svc w') = Some (nextId w) /\ sessionId (svc w') = session_id d)).
Proof.
  rewrite connectToRoom_run.
  assert (Hmiss : forall e0,
            let w' := snd (connectFailed env e0 w) in
            isConnected (svc w') = false
            /\ timers w' = timers w
            /\ participantMonitorInterval (svc w') = participantMonitorInterval (svc w)
            /\ ((room (svc w') = room (svc w) /\ sessionId (svc w') = sessionId (svc w))
                \/ (room (svc w') = Some (nextId w)
                    /\ sessionId (svc w') = session_id d))).
  { intros e0 w'. subst w'. destruct (connectFailed_run env e0 w) as (_ & -> & -> & _).
    repeat split. by left. }
  destruct (livekit_url d) as [url|]; [|intros _; apply Hmiss].
  destruct (access_token d) as [token|]; [|intros _; apply Hmiss].
  destruct (negb (truthyStr url) || negb (truthyStr token)); [intros _; apply Hmiss|].
  destruct (env_connect env (calls w)) as [[]|e1].
  - pose proof (notifyConnectionState_same env true
                  (markConnected (roomCreated d url token w))) as (Hs & Ht & Hn).
    destruct (notifyConnectionState env true _) as [[[]|e1] w2];
      cbn [snd] in Hs, Ht, Hn; cbn beta iota zeta; [discriminate|intros _].
    destruct (connectFailed_run env e1 w2) as (_ & -> & -> & _). rewrite Hs, Ht. cbn.
    repeat split. by right.
  - intros _. cbn beta iota zeta.
    destruct (connectFailed_run env e1 (roomCreated d url token w)) as (_ & -> & -> & _).
    cbn. repeat split. by right.
Qed.

(** The room is left: monitoring is stopped and [room.disconnect] is
    called; the fields are reset whatever that call answers. *)
Definition roomLeft (h : handle) (w : World) : World :=
  let w1 := snd (stopParticipantMonitoring w) in
  {| svc := set_sessionId None (set_isConnected false (set_room None (svc w1)));
     timers := timers w1;
     nextId := nextId w1;
     calls := S (calls w1);
     trace := trace w1 ++ [EvRoomDisconnect h] |}.

Lemma disconnect_run env w :
  disconnect env w
  = match room (svc w) with
    | Some h => notifyConnectionState env false (roomLeft h w)
    | None => (Normal tt, w)
    end.
Proof.
  unfold disconnect, roomLeft. room_run.
  destruct (room (svc w)) as [h|]; [|reflexivity].
  rewrite stopParticipantMonitoring_run.
  destruct (participantMonitorInterval (svc w)) as [id|]; cbn [snd]; room_fields;
    destruct (env_disconnect env _) as [[]|e]; cbn [liftCompletion]; room_run;
    reflexivity.
Qed.

Definition clearedEvents (w : World) : list Event :=
  match participantMonitorInterval (svc w) with
  | Some id => [EvClearInterval id]
  | None => []
  end.

Definition notifiedEvents (x : bool) (w : World) : list Event :=
  match onConnectionStateChangeCallback (svc w) with
  | Some c => [EvConnectionStateChangeCallback c x]
  | None => []
  end.

(** X25.  [disconnect] on a service that holds a room always ends with
    the room, the connected flag, the session id and the monitor interval
    reset, whether [room.disconnect()] resolves or rejects: the rejection is
    swallowed.  The monitor interval, if one is pending, is cleared and is
    the only timer removed; the calls made are that [clearInterval],
    [room.disconnect()] and the connection-state callback with [false].  The
    method throws only when that callback does. *)
Theorem disconnect_always_resets env w h :
  room (svc w) = Some h ->
  let r := disconnect env w in
  room (svc (snd r)) = None
  /\ isConnected (svc (snd r)) = false
  /\ sessionId (svc (snd r)) = None
  /\ participantMonitorInterval (svc (snd r)) = None
  /\ (forall t, t ∈ timers (snd r) <->
        t ∈ timers w /\ participantMonitorInterval (svc w) <> Some (timerId t))
  /\ trace (snd r)
     = trace w ++ clearedEvents w ++ [EvRoomDisconnect h] ++ notifiedEvents false w
  /\ fst r = match onConnectionStateChangeCallback (svc w) with
             | Some _ =>
                 if env_callbackThrows env (S (calls w))
                 then Throw "callback failed" else Normal tt
             | None => Normal tt
             end.
Proof.
  intros Hroom r. subst r. rewrite disconnect_run, Hroom.
  rewrite notifyConnectionState_run. unfold roomLeft, clearedEvents, notifiedEvents.
  rewrite stopParticipantMonitoring_run.
  destruct (participantMonitorInterval (svc w)) as [id|] eqn:Hid;
    cbn [snd]; room_fields;
    destruct (onConnectionStateChangeCallback (svc w)) as [c|];
    cbn [fst snd]; room_fields; rewrite <- ?app_assoc; cbn [app];
    rewrite ?app_nil_r, ?Hid;
    do 4 (split; [reflexivity|]); (split; [|split; reflexivity]); intros t.
  1, 2: rewrite room_elem_of_dropTimer;
        split; intros [? ?]; (split; [assumption|congruence]).
  all: split; [intros ?; split; [assumption|discriminate] | by intros [? _]].
Qed.

Lemma disconnect_always_resets_witness :
  let env := {| env_connect := fun _ => Normal tt;
                env_disconnect := fun _ => Throw "room is gone";
                env_participantCount := fun _ => 0%nat;
                env_callbackThrows := fun _ => false |} in
  let w := performAll env
             [CallSetOnConnectionStateChangeCallback (Some 7%nat);
              CallConnectToRoom {| session_id := Some "s1";
                                   livekit_url := Some "wss://room";
                                   access_token := Some "token" |}]
             initialWorld in
  room (svc w) = Some 1%nat
  /\ room (svc (snd (disconnect env w))) = None
  /\ fst (disconnect env w) = Normal tt.
Proof.
  intros env w.
  assert (H : room (svc w) = Some 1%nat) by (vm_compute; reflexivity).
  split; [exact H|].
  destruct (disconnect_always_resets env w 1%nat H) as (H1 & _ & _ & _ & _ & _ & H7).
  split; [exact H1 | exact H7].
Defined.

(** X26.  What [connectToRoom] leaves behind.  When it returns, it
    returns [true]: the service holds the room just created, is marked
    connected, carries the session id of the data, the 8 s check, the 5 s
    monitor and the 120 s stop are pending under three fresh ids, and the
    monitor is the interval the service holds.  When it throws, the service
    is marked disconnected and no timer was added or removed; either room
    and session id are as before (the data was incomplete), or the room just
    created and the new session id are left in place. *)
Theorem connectToRoom_outcome env d w :
  let r := connectToRoom env d w in
  match fst r with
  | Normal b =>
      b = true
      /\ isConnected (svc (snd r)) = true
      /\ room (svc (snd r)) = Some (nextId w)
      /\ sessionId (svc (snd r)) = session_id d
      /\ participantMonitorInterval (svc (snd r)) = Some (S (S (nextId w)))
      /\ timers (snd r)
         = timers w ++ [checkTimer (S (nextId w)); monitorTimer (S (S (nextId w)));
                        stopTimer (S (S (S (nextId w))))]
  | Throw _ =>
      isConnected (svc (snd r)) = false
      /\ timers (snd r) = timers w
      /\ participantMonitorInterval (svc (snd r)) = participantMonitorInterval (svc w)
      /\ ((room (svc (snd r)) = room (svc w)
           /\ sessionId (svc (snd r)) = sessionId (svc w))
          \/ (room (svc (snd r)) = Some (nextId w)
              /\ sessionId (svc (snd r)) = session_id d))
  end.
Proof.
  intros r. subst r.
  destruct (fst (connectToRoom env d w)) as [b|e] eqn:Hr.
  - exact (connectToRoom_returned env d w b Hr).
  - exact (connectToRoom_threw env d w e Hr).
Qed.

Lemma timer_unique ts t t' :
  NoDup (timerId <$> ts) -> t ∈ ts -> t' ∈ ts -> timerId t = timerId t' -> t = t'.
Proof.
  intros Hnd Hin Hin' Heq.
  pose proof (find_timer _ _ Hnd Hin) as F1.
  pose proof (find_timer _ _ Hnd Hin') as F2.
  rewrite Heq in F1. congruence.
Qed.

(** X27.  Connecting again while the monitor of an earlier connection is
    still running leaks that monitor.  [startParticipantMonitoring]
    overwrites the interval id it holds without clearing the interval, and
    from then on nothing clears it: whatever happens next (calls, room
    events, timers), the old interval is still pending, and it is not the
    one the service holds. *)
Theorem reconnect_leaks_monitor env steps d more id :
  let w := performAll env steps initialWorld in
  participantMonitorInterval (svc w) = Some id ->
  fst (connectToRoom env d w) = Normal true ->
  let w' := performAll env more (snd (connectToRoom env d w)) in
  participantMonitorInterval (svc w') <> Some id
  /\ exists t, t ∈ timers w' /\ timerId t = id /\ timerRepeats t = true
               /\ timerTask t = MonitorTick.
Proof.
  intros w Hid Hok w'.
  assert (Hinv : RoomInv None w) by (apply (reachable_RoomInv env); by exists steps).
  destruct Hinv as (H1 & H2 & H3 & H4 & _).
  destruct (H4 id Hid) as (t & Hin & Heq & Hrep).
  destruct (connectToRoom_returned env d w true Hok) as (_ & _ & _ & _ & Hk & Ht).
  assert (Hw1 : RoomInv (Some t) (snd (connectToRoom env d w))).
  { assert (Hb : RoomInv None (snd (connectToRoom env d w))).
    { apply preserves_snd; [apply inv_connectToRoom|by repeat split]. }
    destruct Hb as (B1 & B2 & B3 & B4 & _). repeat split; try assumption.
    - rewrite Ht. apply elem_of_app. by left.
    - rewrite Hk. intros [= Hsame]. specialize (H2 t Hin). lia. }
  pose proof (performAll_RoomInv (Some t) env more _ Hw1) as (_ & _ & K3 & _ & Ho).
  fold w' in K3, Ho. destruct Ho as (Hin' & _ & Hne).
  split; [by rewrite <- Heq|].
  exists t. repeat split; try assumption.
  specialize (K3 t Hin'). rewrite Hrep in K3. by destruct (timerTask t).
Qed.

Definition roomData : SessionData :=
  {| session_id := Some "s1"; livekit_url := Some "wss://room";
     access_token := Some "token" |}.

Definition quietRoom : Env :=
  {| env_connect := fun _ => Normal tt;
     env_disconnect := fun _ => Normal tt;
     env_participantCount := fun _ => 0%nat;
     env_callbackThrows := fun _ => false |}.

Lemma reconnect_leaks_monitor_witness :
  let w := performAll quietRoom [CallConnectToRoom roomData] initialWorld in
  let w' := performAll quietRoom [CallDisconnect; TimerFires 3%nat; TimerFires 4%nat]
              (snd (connectToRoom quietRoom roomData w)) in
  participantMonitorInterval (svc w) = Some 3%nat
  /\ participantMonitorInterval (svc w') <> Some 3%nat
  /\ exists t, t ∈ timers w' /\ timerId t = 3%nat /\ timerRepeats t = true
               /\ timerTask t = MonitorTick.
Proof.
  intros w w'.
  assert (H1 : participantMonitorInterval (svc w) = Some 3%nat)
    by (vm_compute; reflexivity).
  assert (H2 : fst (connectToRoom quietRoom roomData w) = Normal true)
    by (vm_compute; reflexivity).
  split; [exact H1|].
  exact (reconnect_leaks_monitor quietRoom [CallConnectToRoom roomData] roomData
           [CallDisconnect; TimerFires 3%nat; TimerFires 4%nat] 3%nat H1 H2).
Defined.

Lemma disconnect_keeps_timer env w t :
  t ∈ timers w ->
  participantMonitorInterval (svc w) <> Some (timerId t) ->
  t ∈ timers (snd (disconnect env w))
  /\ nextId (snd (disconnect env w)) = nextId w.
Proof.
  intros Hin Hne. rewrite disconnect_run.
  destruct (room (svc w)) as [h|]; [|by split].
  destruct (notifyConnectionState_same env false (roomLeft h w)) as (_ & -> & ->).
  unfold roomLeft. rewrite stopParticipantMonitoring_run.
  destruct (participantMonitorInterval (svc w)) as [id|]; cbn [snd]; room_fields;
    [|by split].
  split; [|reflexivity]. apply room_elem_of_dropTimer. split; [exact Hin|congruence].
Qed.

(** X28.  The 120 s timeout that ends monitoring is not cancelled by
    [disconnect], and it ends whatever monitoring runs when it fires.  A
    stop timeout pending at a reachable state is still pending after
    [disconnect] and a new successful [connectToRoom]; the new connection
    has started its own monitor; when the old timeout fires, that monitor is
    cleared and the service holds no interval, however young the new
    connection is. *)
Theorem stop_timeout_outlives_disconnect env steps d t :
  let w := performAll env steps initialWorld in
  t ∈ timers w ->
  timerTask t = MonitorStop ->
  let r := connectToRoom env d (snd (disconnect env w)) in
  fst r = Normal true ->
  let fired := snd (fireTimer env (timerId t) (snd r)) in
  t ∈ timers (snd r)
  /\ (timerId t < nextId w)%nat
  /\ participantMonitorInterval (svc (snd r)) = Some (S (S (nextId w)))
  /\ monitorTimer (S (S (nextId w))) ∈ timers (snd r)
  /\ participantMonitorInterval (svc fired) = None
  /\ (forall t', t' ∈ timers fired -> timerId t' <> S (S (nextId w))).
Proof.
  intros w Hin Htask r Hok fired.
  assert (Hinv : RoomInv None w) by (apply (reachable_RoomInv env); by exists steps).
  assert (Hrep : timerRepeats t = false).
  { destruct Hinv as (_ & _ & H3 & _). rewrite (H3 t Hin), Htask. reflexivity. }
  assert (Hne : participantMonitorInterval (svc w) <> Some (timerId t)).
  { intros Hk. destruct Hinv as (H1 & _ & _ & H4 & _).
    destruct (H4 _ Hk) as (t' & Hin' & Heq & Hrep').
    rewrite (timer_unique _ _ _ H1 Hin' Hin Heq) in Hrep'. congruence. }
  destruct (disconnect_keeps_timer env w t Hin Hne) as [Hin1 Hn1].
  destruct (connectToRoom_returned env d _ true Hok) as (_ & _ & _ & _ & Hk & Ht).
  fold r in Hk, Ht. rewrite Hn1 in Hk, Ht.
  assert (Hin2 : t ∈ timers (snd r)) by (rewrite Ht; apply elem_of_app; by left).
  assert (Hinv2 : RoomInv None (snd r)).
  { apply preserves_snd; [apply inv_connectToRoom|].
    apply preserves_snd; [apply inv_disconnect|exact Hinv]. }
  split; [exact Hin2|].
  split; [destruct Hinv as (_ & H2 & _); by apply H2|].
  split; [exact Hk|].
  split.
  { rewrite Ht. apply elem_of_app. right. apply elem_of_cons. right.
    apply list_elem_of_here. }
  subst fired. unfold fireTimer.
  destruct Hinv2 as (N1 & _).
  rewrite (find_timer _ _ N1 Hin2), Hrep, Htask. cbn [runTask].
  rewrite stopParticipantMonitoring_run. room_fields. rewrite Hk. cbn [snd]. room_fields.
  split; [reflexivity|].
  intros t' Hin'. by apply room_elem_of_dropTimer in Hin' as [_ ?].
Qed.

Lemma stop_timeout_outlives_disconnect_witness :
  let w := performAll quietRoom [CallConnectToRoom roomData] initialWorld in
  let r := connectToRoom quietRoom roomData (snd (disconnect quietRoom w)) in
  stopTimer 4%nat ∈ timers w
  /\ participantMonitorInterval (svc (snd r)) = Some 7%nat
  /\ participantMonitorInterval (svc (snd (fireTimer quietRoom 4%nat (snd r)))) = None.
Proof.
  intros w r.
  assert (H1 : stopTimer 4%nat ∈ timers w).
  { assert (Hw : timers w = [checkTimer 2; monitorTimer 3; stopTimer 4])
      by (vm_compute; reflexivity).
    rewrite Hw. do 2 apply list_elem_of_further. apply list_elem_of_here. }
  assert (H2 : fst r = Normal true) by (vm_compute; reflexivity).
  split; [exact H1|].
  destruct (stop_timeout_outlives_disconnect quietRoom [CallConnectToRoom roomData]
              roomData (stopTimer 4%nat) H1 eq_refl H2) as (_ & _ & Hk & _ & Hf & _).
  split; [exact Hk | exact Hf].
Defined.

(** [disconnect] never leaves a room behind; it returns when the
    callback does not throw. *)
Lemma disconnect_room env w : room (svc (snd (disconnect env w))) = None.
Proof.
  rewrite disconnect_run. destruct (room (svc w)) as [h|] eqn:Hroom; [|exact Hroom].
  destruct (notifyConnectionState_same env false (roomLeft h w)) as (-> & _).
  reflexivity.
Qed.

Lemma disconnect_returns env w :
  (forall n, env_callbackThrows env n = false) ->
  fst (disconnect env w) = Normal tt.
Proof.
  intros Hcb. rewrite disconnect_run. destruct (room (svc w)) as [h|]; [|reflexivity].
  rewrite notifyConnectionState_run, Hcb.
  by destruct (onConnectionStateChangeCallback _).
Qed.

(** *** The registered callbacks *)

(** The three callbacks the service holds. *)
Definition Callbacks (a b c : option nat) (w : World) : Prop :=
  onTrackCallback (svc w) = a
  /\ onConnectionStateChangeCallback (svc w) = b
  /\ onParticipantCallback (svc w) = c.

Ltac preserves_callbacks :=
  repeat match goal with
  | |- preserves _ (bind _ _) => apply preserves_bind; [|intros ?]
  | |- preserves _ (tryCatch _ _) => apply preserves_tryCatch; [|intros ?]
  | |- preserves _ (liftCompletion _) => apply preserves_liftCompletion
  | |- preserves _ (match ?x with _ => _ end) => destruct x
  | |- preserves _ (if ?b then _ else _) => destruct b
  | |- preserves _ _ => solve [let w := fresh in let H := fresh in intros w H; exact H]
  end.

(** Only the three setters change a callback: [connectToRoom] and
    [disconnect] leave them as they are. *)
Lemma callbacks_connectToRoom env d a b c :
  preserves (Callbacks a b c) (connectToRoom env d).
Proof.
  unfold connectToRoom, notifyConnectionState, call, newRoom,
    setupRoomEventListeners, startParticipantMonitoring, setTimeout, setInterval.
  preserves_callbacks.
Qed.

Lemma callbacks_disconnect env a b c :
  preserves (Callbacks a b c) (disconnect env).
Proof.
  unfold disconnect, stopParticipantMonitoring, clearInterval,
    notifyConnectionState, call.
  preserves_callbacks.
Qed.

End LiveKitProofs.

(** ** Properties of the avatar integration *)

Module IntegrationProofs.
Import HeyGenLiveKitIntegration.
Import LiveKitProofs.
Local Open Scope js_scope.

Ltac integration_fields :=
  cbn [integration livekit nextAvatar calls trace avatar sessionData isSessionActive
       set_avatar set_sessionData set_isSessionActive].

(** Unfold the monad and the primitive steps, and nothing else. *)
Ltac integration_run :=
  cbv [tryCatch bind modify emit ask fresh getIntegration service ret throw];
  integration_fields.

Lemma after_weaken {S A} (P P' : S -> Prop) (m : Js S A)
    (Qn Qn' : A -> S -> Prop) (Qe Qe' : S -> Prop) :
  (forall w, P w -> P' w) ->
  (forall a w, Qn' a w -> Qn a w) ->
  (forall w, Qe' w -> Qe w) ->
  after P' m Qn' Qe' -> after P m Qn Qe.
Proof.
  intros HP Hn He Hm w Hw. specialize (Hm w (HP w Hw)).
  destruct (m w) as [[a|e] w']; auto.
Qed.

(** X29.  When the provider's [stopAvatar] rejects, [disconnect] of the
    integration rethrows that error after the one SDK call and does nothing
    else: the room service is not asked to disconnect and is left exactly as
    it was, and the integration keeps its avatar, its session data and its
    active flag. *)
Theorem stopAvatar_failure_keeps_everything env w h id e :
  stoppable (integration w) = Some (h, id) ->
  env_stopAvatar env (calls w) = Throw e ->
  let r := disconnect env w in
  fst r = Throw e
  /\ integration (snd r) = integration w
  /\ livekit (snd r) = livekit w
  /\ trace (snd r) = trace w ++ [EvStopAvatar h id].
Proof.
  intros Hs He r. subst r. unfold disconnect. integration_run.
  rewrite Hs. integration_run. rewrite He. cbn [liftCompletion]. integration_run.
  cbn [fst snd]. integration_fields. by repeat split.
Qed.

Definition rejectingProvider : Env :=
  {| env_livekit := quietRoom;
     env_fetchToken := fun _ => Normal "token";
     env_createStartAvatar := fun _ => Normal (Some roomData);
     env_speak := fun _ => Normal (Some {| task_id := Some "t1" |});
     env_interrupt := fun _ => Normal tt;
     env_startVoiceChat := fun _ => Normal None;
     env_closeVoiceChat := fun _ => Normal None;
     env_stopAvatar := fun _ => Throw "stop failed" |}.

Lemma stopAvatar_failure_keeps_everything_witness :
  let w := snd (initializeHeyGenWithLiveKit rejectingProvider initialWorld) in
  let r := disconnect rejectingProvider w in
  isSessionActive (integration w) = true
  /\ fst r = Throw "stop failed"
  /\ isSessionActive (integration (snd r)) = true
  /\ LiveKitService.isConnected (LiveKitService.svc (livekit (snd r))) = true.
Proof.
  intros w r.
  assert (H1 : stoppable (integration w) = Some (1%nat, "s1")) by (vm_compute; reflexivity).
  assert (H2 : env_stopAvatar rejectingProvider (calls w) = Throw "stop failed")
    by reflexivity.
  assert (H3 : isSessionActive (integration w) = true) by (vm_compute; reflexivity).
  assert (H4 : LiveKitService.isConnected (LiveKitService.svc (livekit w)) = true)
    by (vm_compute; reflexivity).
  destruct (stopAvatar_failure_keeps_everything rejectingProvider w 1%nat "s1"
              "stop failed" H1 H2) as (Hr & Hi & Hl & _).
  fold r in Hr, Hi, Hl.
  split; [exact H3|]. split; [exact Hr|].
  split; [rewrite Hi; exact H3 | rewrite Hl; exact H4].
Defined.

(** *** Setting the integration up *)

(** The session is started: the integration is marked active and holds
    an avatar and the session data. *)
Definition Started (w : World) : Prop :=
  isSessionActive (integration w) = true
  /\ is_Some (avatar (integration w))
  /\ is_Some (sessionData (integration w)).

(** The room service holds a room and is marked connected. *)
Definition InRoom (w : World) : Prop :=
  LiveKitService.isConnected (LiveKitService.svc (livekit w)) = true
  /\ is_Some (LiveKitService.room (LiveKitService.svc (livekit w))).

(** The integration is as constructed and the room service holds no
    room. *)
Definition Released (w : World) : Prop :=
  integration w = constructor
  /\ LiveKitService.room (LiveKitService.svc (livekit w)) = None.

(** The room service is the one the set-up found. *)
Definition Untouched (l : LiveKitService.World) (w : World) : Prop :=
  livekit w = l.

(** The room service once [connectToLiveKitRoom] has handed it the three
    callbacks of the integration. *)
Definition registered (l : LiveKitService.World) : LiveKitService.World :=
  snd (LiveKitService.setOnParticipantCallback (Some participantCallback)
    (snd (LiveKitService.setOnConnectionStateChangeCallback
            (Some connectionStateCallback)
       (snd (LiveKitService.setOnTrackCallback (Some trackCallback) l))))).

(** The room service has been through [connectToRoom], with the
    callbacks registered. *)
Definition Reached (env : Env) (l : LiveKitService.World) (w : World) : Prop :=
  exists d,
    livekit w = snd (LiveKitService.connectToRoom (env_livekit env) d (registered l)).

(** The room service holds the three callbacks of the integration. *)
Definition Listening (l : LiveKitService.World) : Prop :=
  Callbacks (Some trackCallback) (Some connectionStateCallback)
    (Some participantCallback) l.

Lemma registered_listening l : Listening (registered l).
Proof. by repeat split. Qed.

Lemma registered_nextId l :
  LiveKitService.nextId (registered l) = LiveKitService.nextId l.
Proof. reflexivity. Qed.

Lemma initializeAvatar_after l accessToken :
  after (Untouched l) (initializeAvatar accessToken)
    (fun _ w => is_Some (avatar (integration w)) /\ Untouched l w) (Untouched l).
Proof.
  intros w Hl. unfold initializeAvatar, setupAvatarEventListeners. integration_run.
  split; [by eexists | exact Hl].
Qed.

Lemma startAvatarSession_after env l config :
  after (fun w => is_Some (avatar (integration w)) /\ Untouched l w)
    (startAvatarSession env config)
    (fun _ w => Started w /\ Untouched l w) (Untouched l).
Proof.
  intros w [[h Hh] Hl]. unfold startAvatarSession. integration_run. rewrite Hh.
  integration_run.
  destruct (env_createStartAvatar env (calls w)) as [[d|]|e]; cbn [liftCompletion];
    integration_run; done.
Qed.

Lemma connectToLiveKitRoom_after env l d :
  after (fun w => Started w /\ Untouched l w) (connectToLiveKitRoom env d)
    (fun _ w => Started w /\ InRoom w /\ Reached env l w) (Reached env l).
Proof.
  intros w [Hw Hl]. unfold connectToLiveKitRoom. red in Hl.
  unfold LiveKitService.setOnTrackCallback,
    LiveKitService.setOnConnectionStateChangeCallback,
    LiveKitService.setOnParticipantCallback, LiveKitService.modify.
  integration_run. rewrite Hl.
  match goal with
  | |- context [LiveKitService.connectToRoom ?e ?d ?l0] =>
      change l0 with (registered l);
      pose proof (connectToRoom_returned e d (registered l)) as Hret;
      assert (Hr : Reached env l
                     {| integration := integration w;
                        livekit := snd (LiveKitService.connectToRoom e d (registered l));
                        nextAvatar := nextAvatar w; calls := calls w;
                        trace := trace w |}) by (by exists d);
      destruct (LiveKitService.connectToRoom e d (registered l)) as [[b|err] l']
  end; [|exact Hr].
  destruct (Hret b eq_refl) as (_ & Hc & Hroom & _). cbn [snd] in Hc, Hroom, Hr.
  split; [exact Hw|]. split; [|exact Hr].
  split; cbn; [exact Hc | rewrite Hroom; by eexists].
Qed.

Definition greeting : string :=
  "Hello! I am now connected to the LiveKit room and ready to talk.".

(** The last call on the SDK is the greeting. *)
Definition Greeted (w : World) : Prop :=
  exists h tr,
    avatar (integration w) = Some h
    /\ trace w = tr ++ [EvSpeak h greeting "sync" (sessionIdOf (integration w))].

Lemma sendTextToAvatar_after env l :
  after (fun w => Started w /\ InRoom w /\ Reached env l w)
    (sendTextToAvatar env greeting None)
    (fun _ w => Started w /\ InRoom w /\ Greeted w) (Reached env l).
Proof.
  intros w (Hs & Hr & Hl). unfold sendTextToAvatar, activeAvatar. integration_run.
  destruct Hs as (Ha & [h Hh] & Hd). rewrite Hh, Ha. integration_run.
  destruct (env_speak env (calls w)) as [[x|]|e]; cbn [liftCompletion];
    integration_run; try exact Hl.
  split; [by repeat split; [|exists h|]|]. split; [exact Hr|].
  exists h, (trace w). by split.
Qed.

(** The cleanup of a failed set-up, when neither the provider nor a
    callback fails in it: the integration is reset, and the room service
    is what its own [disconnect] makes of it. *)
Lemma disconnect_after env l :
  (forall n, env_stopAvatar env n = Normal tt) ->
  (forall n, LiveKitService.env_callbackThrows (env_livekit env) n = false) ->
  after (Untouched l) (disconnect env)
    (fun _ w => Released w
                /\ livekit w = snd (LiveKitService.disconnect (env_livekit env) l))
    (fun _ => False).
Proof.
  intros Hstop Hcb w Hl. red in Hl. unfold disconnect. integration_run.
  pose proof (disconnect_room (env_livekit env) l) as H1.
  pose proof (disconnect_returns (env_livekit env) l Hcb) as H2.
  destruct (stoppable (integration w)) as [[h id]|]; integration_run;
    rewrite ?Hstop; cbn [liftCompletion]; integration_run; rewrite Hl;
    destruct (LiveKitService.disconnect (env_livekit env) l) as [[[]|e] l'];
    first [discriminate | by repeat split].
Qed.

(** What a failed set-up has made of the room service [l] it found:
    [disconnect] was run on it, either as it was or after
    [connectToRoom]. *)
Definition CleanedUp (env : Env) (l : LiveKitService.World) (w : World) : Prop :=
  Released w
  /\ (livekit w = snd (LiveKitService.disconnect (env_livekit env) l)
      \/ exists d,
           livekit w
           = snd (LiveKitService.disconnect (env_livekit env)
                    (snd (LiveKitService.connectToRoom (env_livekit env) d
                            (registered l))))).

Lemma initializeHeyGenWithLiveKit_after env l :
  (forall n, env_stopAvatar env n = Normal tt) ->
  (forall n, LiveKitService.env_callbackThrows (env_livekit env) n = false) ->
  after (Untouched l) (initializeHeyGenWithLiveKit env)
    (fun _ w' => Started w' /\ InRoom w' /\ Greeted w') (CleanedUp env l).
Proof.
  intros Hstop Hcb. unfold initializeHeyGenWithLiveKit.
  apply after_bind with (R := fun _ => Untouched l); [by intros ? ?|intros _].
  apply after_tryCatch with (R := fun w => Untouched l w \/ Reached env l w).
  - apply after_bind with (R := fun _ => Untouched l);
      [intros w0 H0; exact H0|intros _].
    apply after_bind with (R := fun _ => Untouched l);
      [intros w0 H0; exact H0|intros t].
    apply after_bind with (R := fun _ => Untouched l);
      [destruct t; intros w0 H0; [exact H0|left; exact H0]|intros accessToken].
    eapply after_bind;
      [eapply after_weaken; [| | |apply (initializeAvatar_after l)];
         [by intros|by intros|by left] |intros ?; cbv beta].
    eapply after_bind;
      [eapply after_weaken; [| | |apply (startAvatarSession_after env l)];
         [by intros|by intros|by left] |intros d; cbv beta].
    eapply after_bind;
      [eapply after_weaken; [| | |apply (connectToLiveKitRoom_after env l)];
         [by intros|by intros|by right] |intros ?; cbv beta].
    eapply after_bind;
      [eapply after_weaken; [| | |apply (sendTextToAvatar_after env l)];
         [by intros|by intros|by right] |intros ?; cbv beta].
    by intros ? ?.
  - intros e.
    apply after_bind with (R := fun _ => CleanedUp env l); [|intros _; by intros ? ?].
    intros w0 [Hl|[d Hd]].
    + pose proof (disconnect_after env l Hstop Hcb w0 Hl) as H.
      destruct (disconnect env w0) as [[[]|e'] w']; [|destruct H].
      destruct H as [H1 H2]. split; [exact H1|by left].
    + pose proof (disconnect_after env _ Hstop Hcb w0 Hd) as H.
      destruct (disconnect env w0) as [[[]|e'] w']; [|destruct H].
      destruct H as [H1 H2]. split; [exact H1|right; by exists d].
Qed.

(** X30.  [initializeHeyGenWithLiveKit] either sets everything up or
    resets the integration, provided the cleanup itself does not fail
    ([stopAvatar] resolves and no room callback throws).  When it returns,
    the integration is active with an avatar and session data, the room
    service holds a room and is marked connected, and the last SDK call is
    the greeting.  When it throws (the token, the session, the room or the
    greeting failed), the integration is back to its constructed state and
    the room service holds no room; the room service is what its own
    [disconnect] makes of it, and that is not a full reset.  Either
    [connectToRoom] was never called, or it was: then the three callbacks of
    the integration stay registered with the room service, and when
    [connectToRoom] had returned, the 8 s check and the 120 s stop it
    scheduled are still pending. *)
Theorem initializeHeyGenWithLiveKit_outcome env w :
  (forall n, env_stopAvatar env n = Normal tt) ->
  (forall n, LiveKitService.env_callbackThrows (env_livekit env) n = false) ->
  let r := initializeHeyGenWithLiveKit env w in
  let room := env_livekit env in
  let n := LiveKitService.nextId (livekit w) in
  match fst r with
  | Normal _ => Started (snd r) /\ InRoom (snd r) /\ Greeted (snd r)
  | Throw _ =>
      Released (snd r)
      /\ (livekit (snd r) = snd (LiveKitService.disconnect room (livekit w))
          \/ exists d,
               let c := LiveKitService.connectToRoom room d (registered (livekit w)) in
               livekit (snd r) = snd (LiveKitService.disconnect room (snd c))
               /\ Listening (livekit (snd r))
               /\ (fst c = Normal true ->
                   checkTimer (S n) ∈ LiveKitService.timers (livekit (snd r))
                   /\ stopTimer (S (S (S n)))
                        ∈ LiveKitService.timers (livekit (snd r))))
  end.
Proof.
  intros Hstop Hcb r room n.
  pose proof (initializeHeyGenWithLiveKit_after env (livekit w) Hstop Hcb w eq_refl)
    as H.
  fold r in H. destruct r as [[a|e] w']; cbn [fst snd]; [exact H|].
  destruct H as [Hrel [Hl|[d Hd]]]; (split; [exact Hrel|]); [by left|].
  right. exists d. cbn zeta. fold room in Hd. split; [exact Hd|].
  rewrite Hd. split.
  - apply preserves_snd; [apply callbacks_disconnect|].
    apply preserves_snd; [apply callbacks_connectToRoom|].
    apply registered_listening.
  - intros Hc.
    destruct (connectToRoom_returned room d _ true Hc) as (_ & _ & _ & _ & Hk & Ht).
    rewrite registered_nextId in Hk, Ht. fold n in Hk, Ht.
    split.
    + apply disconnect_keeps_timer.
      * rewrite Ht. apply elem_of_app. right. apply list_elem_of_here.
      * rewrite Hk. cbn. intros [= Hn]. lia.
    + apply disconnect_keeps_timer.
      * rewrite Ht. apply elem_of_app. right.
        do 2 apply list_elem_of_further. apply list_elem_of_here.
      * rewrite Hk. cbn. intros [= Hn]. lia.
Qed.

Definition silentProvider : Env :=
  {| env_livekit := quietRoom;
     env_fetchToken := fun _ => Normal "token";
     env_createStartAvatar := fun _ => Normal (Some roomData);
     env_speak := fun _ => Throw "speak failed";
     env_interrupt := fun _ => Normal tt;
     env_startVoiceChat := fun _ => Normal None;
     env_closeVoiceChat := fun _ => Normal None;
     env_stopAvatar := fun _ => Normal tt |}.

Lemma initializeHeyGenWithLiveKit_outcome_witness :
  let r := initializeHeyGenWithLiveKit silentProvider initialWorld in
  fst r = Throw "speak failed" /\ Released (snd r).
Proof.
  intros r.
  assert (H1 : forall n, env_stopAvatar silentProvider n = Normal tt) by reflexivity.
  assert (H2 : forall n,
            LiveKitService.env_callbackThrows (env_livekit silentProvider) n = false)
    by reflexivity.
  assert (H3 : fst r = Throw "speak failed") by (vm_compute; reflexivity).
  split; [exact H3|].
  pose proof (initializeHeyGenWithLiveKit_outcome silentProvider initialWorld H1 H2) as H.
  cbv zeta in H. fold r in H. rewrite H3 in H. exact (proj1 H).
Defined.

(** The greeting fails after the room was joined: the integration is
    reset and the room is left, but the room service keeps the three
    callbacks and the two timeouts. *)
Example failed_greeting_leftover :
  let r := initializeHeyGenWithLiveKit silentProvider initialWorld in
  let l := livekit (snd r) in
  fst r = Throw "speak failed"
  /\ integration (snd r) = constructor
  /\ LiveKitService.svc l
     = {| LiveKitService.room := None;
          LiveKitService.isConnected := false;
          LiveKitService.onTrackCallback := Some trackCallback;
          LiveKitService.onConnectionStateChangeCallback := Some connectionStateCallback;
          LiveKitService.onParticipantCallback := Some participantCallback;
          LiveKitService.sessionId := None;
          LiveKitService.participantMonitorInterval := None |}
  /\ LiveKitService.timers l = [checkTimer 2; stopTimer 4].
Proof. vm_compute. by repeat split. Qed.

End IntegrationProofs.
